(** * PlantConnect: the sensor-to-signal pipeline and its consumers

    A shallow embedding of the TypeScript sources of PlantConnect:

    - [JS]: the few JavaScript primitives the code relies on;
    - [Binary64]: rounding to the nearest IEEE double;
    - [BioSynth]: the violin-like audio engine of [DeviceMonitor.tsx];
    - [DeviceMonitor]: the sampling tick (auto-calibration, deviation,
      chart window), the touch edge detector and the interaction
      controller of the same component;
    - [DeviceMonitor64]: the calibration of the tick in double arithmetic;
    - [GeminiService]: [getApiKey] and [generatePlantResponse];
    - [PlantHealthTypes], [PlantHealthSimulator]: the telemetry records,
      [generateReading] and [updateState];
    - [VertexAIService]: the bounded health analysis window and the end of
      [generateCompanionResponse].

    Modelling conventions.  A JavaScript [number] is a rational ([Q]);
    values the code keeps integral ([Math.floor] results, counters) are
    [Z].  Arithmetic is exact, except where a statement depends on the
    rounding of IEEE doubles: [Binary64] rounds a rational to the nearest
    double, and [DeviceMonitor64] (the calibration over many ticks) and
    the leaf-colour average of [calculateHealthScore] compute with it.
    Mutable refs and React state become record fields that every operation
    takes and returns.  [Math.random()], [Date.now()] and the remote
    services are inputs of the operations that consult them.  An [await]
    splits an operation into the part that runs before the suspension and
    the continuation that runs when the awaited value arrives. *)

From Stdlib Require Import ZArith QArith Qabs Qround Qpower Qminmax Lqa Lia List Bool String Ascii.
From stdpp Require Import base list gmap strings pretty.

Local Open Scope Q_scope.

(** ** JavaScript primitives *)

Module JS.

(** [x < y], [x <= y] and [x === y] on numbers. *)
Definition lt (x y : Q) : bool := negb (Qle_bool y x).
Definition le (x y : Q) : bool := Qle_bool x y.
Definition strict_eq (x y : Q) : bool := Qeq_bool x y.

Definition Math_max (x y : Q) : Q := if Qle_bool x y then y else x.
Definition Math_min (x y : Q) : Q := if Qle_bool x y then x else y.
Definition Math_abs (x : Q) : Q := Qabs x.
Definition Math_floor (x : Q) : Z := Qfloor x.

(** [Math.round] rounds half up: [floor (x + 0.5)]. *)
Definition Math_round (x : Q) : Z := Qfloor (x + 0.5).

(** Strings: code units are modelled as [ascii] characters. *)
Definition lower_char (c : ascii) : ascii :=
  let n := nat_of_ascii c in
  if (65 <=? n)%nat && (n <=? 90)%nat then ascii_of_nat (n + 32) else c.

Fixpoint toLowerCase (s : string) : string :=
  match s with
  | EmptyString => EmptyString
  | String c s' => String (lower_char c) (toLowerCase s')
  end.

Fixpoint includes (s sub : string) : bool :=
  String.prefix sub s ||
  match s with
  | EmptyString => false
  | String _ s' => includes s' sub
  end.

(** [s.slice(0, n)]. *)
Definition slice0 (n : nat) (s : string) : string := String.substring 0 n s.

Definition is_white (c : ascii) : bool :=
  let n := nat_of_ascii c in
  (n =? 32)%nat || ((9 <=? n)%nat && (n <=? 13)%nat).

Fixpoint trimStart (s : string) : string :=
  match s with
  | EmptyString => EmptyString
  | String c s' => if is_white c then trimStart s' else s
  end.

Definition trim (s : string) : string :=
  String.rev (trimStart (String.rev (trimStart s))).

(** Truthiness of a string: non-empty. *)
Definition truthy (s : string) : bool :=
  match s with EmptyString => false | _ => true end.

(** [a || b] on strings. *)
Definition or_else (a b : string) : string := if truthy a then a else b.

End JS.

(** ** Double-precision arithmetic *)

Module Binary64.

(** The integer part of the binary logarithm of [|x|], for [x] other
    than 0: the difference of the logarithms of numerator and denominator,
    or one less. *)
Definition ilog2 (x : Q) : Z :=
  let k := (Z.log2 (Z.abs (Qnum x)) - Z.log2 (Zpos (Qden x)))%Z in
  if Qle_bool (2 ^ k) (Qabs x) then k else (k - 1)%Z.

(** The nearest integer, a tie going to the even one. *)
Definition roundEven (q : Q) : Z :=
  let f := Qfloor q in
  match Qcompare (q - inject_Z f) (1 # 2) with
  | Lt => f
  | Gt => (f + 1)%Z
  | Eq => if Z.even f then f else (f + 1)%Z
  end.

(** [fl x] is the IEEE 754 binary64 nearest to [x], ties to even: a
    significand of 53 bits, and a spacing of [2^-1074] among the
    subnormals.  Overflow to infinity (from [2^1024] on) is left out; no
    value in this development comes near it. *)
Definition fl (x : Q) : Q :=
  if Qeq_bool x 0 then 0
  else
    let e := Z.max (ilog2 x - 52) (-1074) in
    inject_Z (roundEven (x / 2 ^ e)) * 2 ^ e.

(** The operators [+], [-], [*] and [/] on doubles. *)
Definition add (x y : Q) : Q := fl (x + y).
Definition sub (x y : Q) : Q := fl (x - y).
Definition mul (x y : Q) : Q := fl (x * y).
Definition div (x y : Q) : Q := fl (x / y).

(** The unit roundoff [2^-53], and half the smallest subnormal. *)
Definition u : Q := 1 # 9007199254740992.
Definition eta : Q := 2 ^ (-1075).

End Binary64.

(** ** The bio-synth audio engine ([class BioSynth]) *)

Module BioSynth.

Record Params := {
  fmin : Q;
  fmax : Q;
  ampMax : Q;
  glide : Q;
  vibratoSpeed : Q;
  vibratoDepth : Q;
  brightness : Q
}.

Definition defaultParams : Params := {|
  fmin := 196;
  fmax := 1000;
  ampMax := 1.5;
  glide := 0.2;
  vibratoSpeed := 6.0;
  vibratoDepth := 4.0;
  brightness := 2000
|}.

Inductive ContextState := running | suspended | closed.

Record AudioContext := {
  currentTime : Q;
  state : ContextState
}.

(** An [AudioParam] is its intrinsic value and its automation timeline.
    The only automation the engine schedules is [setTargetAtTime]: an
    exponential approach to [target] that starts at [startTime] with time
    constant [timeConstant]. *)
Record Automation := SetTarget {
  target : Q;
  startTime : Q;
  timeConstant : Q
}.

Record AudioParam := {
  pvalue : Q;
  timeline : list Automation
}.

Definition newParam (v : Q) : AudioParam := {| pvalue := v; timeline := [] |}.

Definition setValue (v : Q) (p : AudioParam) : AudioParam :=
  {| pvalue := v; timeline := timeline p |}.

Definition setTargetAtTime (tgt start tc : Q) (p : AudioParam) : AudioParam :=
  {| pvalue := pvalue p; timeline := timeline p ++ [SetTarget tgt start tc] |}.

(** [cancelScheduledValues t] drops every event scheduled at or after [t]. *)
Definition cancelScheduledValues (t : Q) (p : AudioParam) : AudioParam :=
  {| pvalue := pvalue p;
     timeline := List.filter (fun ev => JS.lt (startTime ev) t) (timeline p) |}.

(** The target the parameter is currently driven toward: the one of the
    event scheduled last, if any. *)
Definition drivenToward (p : AudioParam) : option Automation := last (timeline p).

Inductive OscType := sine | sawtooth.

Record OscillatorNode := {
  otype : OscType;
  frequency : AudioParam;
  detune : Q;
  started : option Q
}.

Record BiquadFilterNode := {
  cutoff : AudioParam;
  resonance : Q
}.

Record Engine := {
  ctx : option AudioContext;
  masterGain : option AudioParam;
  osc1 : option OscillatorNode;
  osc2 : option OscillatorNode;
  lfo : option OscillatorNode;
  lfoGain : option AudioParam;
  filter : option BiquadFilterNode;
  params : Params;
  masterVolume : Q
}.

(** [new BioSynth()]. *)
Definition create : Engine := {|
  ctx := None; masterGain := None; osc1 := None; osc2 := None;
  lfo := None; lfoGain := None; filter := None;
  params := defaultParams;
  masterVolume := 1.0
|}.

Definition withFrequency (f : AudioParam) (o : OscillatorNode) : OscillatorNode :=
  {| otype := otype o; frequency := f; detune := detune o; started := started o |}.

Definition withCutoff (f : AudioParam) (b : BiquadFilterNode) : BiquadFilterNode :=
  {| cutoff := f; resonance := resonance b |}.

(** [init()]: builds the graph once.  [fresh] is the context the browser
    hands out. *)
Definition init (fresh : AudioContext) (e : Engine) : Engine :=
  match ctx e with
  | Some _ => e
  | None =>
    let now := currentTime fresh in
    {| ctx := Some fresh;
       masterGain := Some (setValue 0 (newParam 1));
       osc1 := Some {| otype := sawtooth; frequency := newParam 440;
                       detune := 0; started := Some now |};
       osc2 := Some {| otype := sawtooth; frequency := newParam 440;
                       detune := 10; started := Some now |};
       lfo := Some {| otype := sine;
                      frequency := setValue (vibratoSpeed (params e)) (newParam 440);
                      detune := 0; started := Some now |};
       lfoGain := Some (setValue (vibratoDepth (params e)) (newParam 1));
       filter := Some {| cutoff := setValue (brightness (params e)) (newParam 350);
                         resonance := 1.0 |};
       params := params e;
       masterVolume := masterVolume e |}
  end.

Definition withContextState (s : ContextState) (e : Engine) : Engine :=
  {| ctx := match ctx e with
            | Some c => Some {| currentTime := currentTime c; state := s |}
            | None => None
            end;
     masterGain := masterGain e; osc1 := osc1 e; osc2 := osc2 e; lfo := lfo e;
     lfoGain := lfoGain e; filter := filter e; params := params e;
     masterVolume := masterVolume e |}.

Definition resume (e : Engine) : Engine :=
  match ctx e with
  | Some c => match state c with suspended => withContextState running e | _ => e end
  | None => e
  end.

Definition suspend (e : Engine) : Engine :=
  match ctx e with
  | Some c => match state c with running => withContextState suspended e | _ => e end
  | None => e
  end.

Definition setMasterVolume (v : Q) (e : Engine) : Engine :=
  {| ctx := ctx e; masterGain := masterGain e; osc1 := osc1 e; osc2 := osc2 e;
     lfo := lfo e; lfoGain := lfoGain e; filter := filter e; params := params e;
     masterVolume := v |}.

Definition maxExpected : Q := 120.
Definition minVol : Q := 0.2.

Definition inputRange (threshold : Q) : Q := JS.Math_max 1 (maxExpected - threshold).

Definition normalizedInput (raw threshold : Q) : Q :=
  JS.Math_min 1.0 (JS.Math_max 0 ((raw - threshold) / inputRange threshold)).

(** [update(raw, threshold)]. *)
Definition update (raw threshold : Q) (e : Engine) : Engine :=
  match ctx e, masterGain e, osc1 e, osc2 e with
  | Some c, Some mg, Some o1, Some o2 =>
    let now := currentTime c in
    let p := params e in
    if JS.le raw threshold then
      {| ctx := ctx e;
         masterGain := Some (setTargetAtTime 0 now 0.1 (cancelScheduledValues now mg));
         osc1 := osc1 e; osc2 := osc2 e; lfo := lfo e; lfoGain := lfoGain e;
         filter := filter e; params := params e; masterVolume := masterVolume e |}
    else
      let normalized := normalizedInput raw threshold in
      let maxVol := ampMax p in
      let targetAmp := minVol + (normalized * (maxVol - minVol)) in
      let targetFreq := fmin p + (normalized * (fmax p - fmin p)) in
      let targetBrightness := 800 + (normalized * 3000) in
      let finalAmp := targetAmp * masterVolume e in
      {| ctx := ctx e;
         masterGain := Some (setTargetAtTime finalAmp now (glide p) mg);
         osc1 := Some (withFrequency (setTargetAtTime targetFreq now 0.1 (frequency o1)) o1);
         osc2 := Some (withFrequency (setTargetAtTime targetFreq now 0.1 (frequency o2)) o2);
         lfo := lfo e;
         lfoGain := option_map
                      (setTargetAtTime (vibratoDepth p + (normalized * 2)) now 0.5)
                      (lfoGain e);
         filter := option_map
                     (fun f => withCutoff (setTargetAtTime targetBrightness now 0.2 (cutoff f)) f)
                     (filter e);
         params := params e; masterVolume := masterVolume e |}
  | _, _, _, _ => e
  end.

Definition destroy (e : Engine) : Engine := withContextState closed e.

(** An engine on which [init] has run. *)
Definition initialized (e : Engine) : Prop :=
  is_Some (ctx e) /\ is_Some (masterGain e) /\ is_Some (osc1 e) /\ is_Some (osc2 e) /\
  is_Some (lfo e) /\ is_Some (lfoGain e) /\ is_Some (filter e).

End BioSynth.

(** ** The text-generation client ([geminiService.ts]) *)

Module GeminiService.

(** [getApiKey()].  [localStorage] is the browser store, [viteKey] and
    [plainKey] are [import.meta.env.VITE_GEMINI_API_KEY] and
    [import.meta.env.GEMINI_API_KEY] ([None] when undefined); the fallback
    key literal of the source is the argument [defaultKey]. *)
Record KeySources := {
  localStorage : gmap string string;
  viteKey : option string;
  plainKey : option string;
  defaultKey : string
}.

Definition nonBlank (s : string) : bool := negb (String.length (JS.trim s) =? 0)%nat.

(** [a || b] when [a] may be undefined. *)
Definition firstTruthy (a b : option string) : option string :=
  match a with
  | Some s => if JS.truthy s then Some s else b
  | None => b
  end.

(** [s && s.trim().length > 0] for a string that may be null. *)
Definition usable (o : option string) : bool :=
  match o with
  | Some s => JS.truthy s && nonBlank s
  | None => false
  end.

Definition getApiKey (k : KeySources) : option string :=
  let localKey := localStorage k !! "GEMINI_API_KEY"%string in
  if usable localKey then JS.trim <$> localKey
  else
    let envKey := firstTruthy (viteKey k) (plainKey k) in
    if usable envKey && negb (bool_decide (envKey = Some "undefined"%string))
    then JS.trim <$> envKey
    else if usable (Some (defaultKey k)) then Some (JS.trim (defaultKey k))
    else None.

(** A thrown value: its [message], what [toString()] gives, and its
    [status] when it carries one. *)
Record JsError := {
  message : string;
  toString : string;
  status : option Z
}.

(** [error?.message || error?.toString() || String(error)]; for an
    object [String(error)] is [error.toString()] again. *)
Definition errorMessageOf (e : JsError) : string :=
  JS.or_else (message e) (toString e).

(** What one call of [model.generateContent] followed by
    [response.text()] gives. *)
Inductive SdkOutcome :=
| SdkText (text : string)
| SdkThrows (sdkError : JsError).

(** The remote side of one call of [generatePlantResponse]: for attempt
    [n], the model names the listing request returns ([None] when the
    request fails or is not [ok]) and the outcome of generating with a
    given model. *)
Record Remote := {
  listModels : nat -> option (list string);
  generateContent : nat -> string -> SdkOutcome
}.

Definition MAX_RETRIES : nat := 2.

Definition defaultModels : list string :=
  ["gemini-1.5-flash-latest"; "gemini-1.5-pro-latest"; "gemini-1.5-flash";
   "gemini-1.5-pro"; "gemini-pro-latest"; "gemini-pro"]%string.

Definition modelsToTry (availableModels : list string) : list string :=
  if (0 <? length availableModels)%nat
  then List.filter (fun m => JS.includes m "gemini") availableModels
  else defaultModels.

Definition isTerminator (c : ascii) : bool :=
  Ascii.eqb c "."%char || Ascii.eqb c "!"%char || Ascii.eqb c "?"%char.

(** [text.split(/[.!?]+/)], up to empty pieces (which the caller filters
    out): [cur] is the piece being read, in reverse. *)
Fixpoint splitSentences (cur : string) (s : string) : list string :=
  match s with
  | EmptyString => [String.rev cur]
  | String c s' =>
    if isTerminator c then String.rev cur :: splitSentences EmptyString s'
    else splitSentences (String c cur) s'
  end.

Fixpoint join (sep : string) (l : list string) : string :=
  match l with
  | [] => EmptyString
  | [x] => x
  | x :: rest => (x ++ sep ++ join sep rest)%string
  end.

(** The text returned on success: the first two sentences, or the whole
    text when that is empty. *)
Definition shorten (text : string) : string :=
  let sentences := List.filter nonBlank (splitSentences EmptyString text) in
  let shortText := JS.trim (join ". " (firstn 2 sentences)) in
  JS.or_else shortText text.

(** The loop over [modelsToTry]: [inl] is the text returned from inside
    the loop, [inr] the inner [lastError] once the list is exhausted. *)
Fixpoint tryModels (gen : string -> SdkOutcome) (models : list string)
    (lastError : option JsError) : string + option JsError :=
  match models with
  | [] => inr lastError
  | modelName :: rest =>
    match gen modelName with
    | SdkText text =>
      if JS.truthy text then inl (shorten text) else tryModels gen rest lastError
    | SdkThrows sdkError => tryModels gen rest (Some sdkError)
    end
  end.

Definition noModelsError : JsError := {|
  message := "No available Gemini models found. Please check your API key and model access.";
  toString := "Error: No available Gemini models found. Please check your API key and model access.";
  status := None
|}.

Inductive Completion :=
| Returns (text : string)
| Throws (error : JsError).

Definition keyMissingText : string :=
  "(System: API Key missing. Please click the Lock icon in the top-right to enter your Google Gemini API Key.)".

(** The [try] block of attempt [n]. *)
Definition tryBlock (k : KeySources) (r : Remote) (n : nat) : Completion :=
  match getApiKey k with
  | None => Returns keyMissingText
  | Some apiKey =>
    let availableModels := default [] (listModels r n) in
    match tryModels (generateContent r n) (modelsToTry availableModels) None with
    | inl text => Returns text
    | inr (Some lastError) => Throws lastError
    | inr None => Throws noModelsError
    end
  end.

Definition isKeyError (errorStr : string) : bool :=
  JS.includes errorStr "api key" || JS.includes errorStr "invalid" ||
  JS.includes errorStr "401" || JS.includes errorStr "403".

Definition isRetriable (errorStr : string) : bool :=
  JS.includes errorStr "rate limit" || JS.includes errorStr "429" ||
  JS.includes errorStr "network" || JS.includes errorStr "timeout".

(** The retry loop, [remaining] iterations from [attempt] on: [inl] is a
    [return] from inside the loop, [inr] the outer [lastError] when the
    loop is left by [break] or by its condition. *)
Fixpoint retryLoop (k : KeySources) (r : Remote) (remaining attempt : nat)
    (lastError : option JsError) : string + option JsError :=
  match remaining with
  | O => inr lastError
  | S remaining' =>
    match tryBlock k r attempt with
    | Returns text => inl text
    | Throws error =>
      let errorStr := JS.toLowerCase (errorMessageOf error) in
      if isKeyError errorStr then inr (Some error)
      else if (attempt <? MAX_RETRIES)%nat && isRetriable errorStr
      then retryLoop k r remaining' (S attempt) (Some error)
      else inr (Some error)
    end
  end.

Definition truthyStatus (e : JsError) : option Z :=
  match status e with
  | Some z => if (z =? 0)%Z then None else Some z
  | None => None
  end.

(** "Handle final error after retries". *)
Definition finalError (lastError : option JsError) : string :=
  let errorMessage :=
    match lastError with
    | Some e => errorMessageOf e
    | None => "Unknown error"%string
    end in
  let errorStr := JS.toLowerCase errorMessage in
  let lastStatus := lastError ≫= truthyStatus in
  if JS.includes errorStr "api key" || JS.includes errorStr "invalid" ||
     JS.includes errorStr "401" || JS.includes errorStr "403" ||
     JS.includes errorStr "unauthorized" then
    "(System: Invalid or missing API Key. Please click the Lock icon in the top-right to enter your Google Gemini API Key.)"%string
  else if JS.includes errorStr "quota" || JS.includes errorStr "rate limit" ||
          JS.includes errorStr "429" || JS.includes errorStr "resource exhausted" then
    "(System: API quota exceeded. Please try again later or check your Gemini API quota.)"%string
  else if JS.includes errorStr "not found" || JS.includes errorStr "404" ||
          JS.includes errorStr "model" then
    ("(System: Model error - " ++ JS.slice0 80 errorMessage ++
     ". Please check your API key and model access.)")%string
  else if JS.includes errorStr "fetch" || JS.includes errorStr "http" ||
          bool_decide (is_Some lastStatus) then
    match lastStatus with
    | Some st =>
      if (st =? 401)%Z || (st =? 403)%Z then
        "(System: API Key is invalid or expired. Please get a new API key from https://aistudio.google.com/apikey)"%string
      else if (st =? 429)%Z then
        "(System: Rate limit exceeded. Please wait a moment and try again.)"%string
      else
        ("(System: API Error (" ++ pretty st ++ ") - " ++ JS.slice0 100 errorMessage ++
         ". Please check your API key at https://aistudio.google.com/apikey)")%string
    | None =>
      ("(System: API Error (unknown) - " ++ JS.slice0 100 errorMessage ++
       ". Please check your API key at https://aistudio.google.com/apikey)")%string
    end
  else if (JS.includes errorStr "network" || JS.includes errorStr "fetch failed" ||
           JS.includes errorStr "timeout") &&
          negb (JS.includes errorStr "api") && negb (JS.includes errorStr "model") &&
          negb (JS.includes errorStr "key") then
    "(System: Network error. Please check your internet connection and try again.)"%string
  else
    ("(System: " ++ JS.slice0 120 errorMessage ++ ")")%string.

(** [generatePlantResponse].  The prompt sent to the model is built from
    [userMessage], [touchIntensity] and [history]; the answer of the
    remote side is arbitrary, so these three do not occur in the result. *)
Definition generatePlantResponse (k : KeySources) (r : Remote)
    (userMessage : string) (touchIntensity : Q) (history : list (string * string)) : string :=
  match retryLoop k r (S MAX_RETRIES) 0 None with
  | inl text => text
  | inr lastError => finalError lastError
  end.

(** No model ever produces a non-empty text. *)
Definition generationFails (r : Remote) : Prop :=
  forall n modelName,
    match generateContent r n modelName with
    | SdkText text => text = EmptyString
    | SdkThrows _ => True
    end.

Definition systemText (s : string) : Prop := String.prefix "(System: " s = true.

(** A remote side on which every generation throws [e] and the model
    listing fails, and key sources with only a fallback key: the inputs of
    the examples. *)
Definition allFail (e : JsError) : Remote :=
  {| listModels := fun _ => None; generateContent := fun _ _ => SdkThrows e |}.

Definition demoKeys : KeySources :=
  {| localStorage := ∅; viteKey := None; plainKey := None; defaultKey := "demo-key" |}.

(** The text [finalError] gives for a key or authorisation error. *)
Definition invalidKeyText : string :=
  "(System: Invalid or missing API Key. Please click the Lock icon in the top-right to enter your Google Gemini API Key.)".

End GeminiService.

(** ** Telemetry records ([types/plantHealth.ts]) *)

Module PlantHealthTypes.

(** Modelled from the spec: the [environment] part of a sensor event,
    declared in [types/plantHealth.ts], which is not among the sources;
    the fields the spec lists, with the types of the values
    [generateReading] stores in them. *)
Record EnvironmentData := {
  temperature_c : Q;
  humidity_pct : Q;
  light_lux : Z
}.

(** Modelled from the spec: the [soil] part of a sensor event, likewise. *)
Record SoilData := {
  moisture_pct : Q;
  soil_temp_c : Q;
  water_tank_level_pct : Q
}.

(** Modelled from the spec: the [vitality] part of a sensor event,
    likewise. *)
Record VitalityData := {
  capacitance : Z;
  touch_events_last_min : Z;
  leaf_color_index : Q;
  growth_index : Q
}.

(** Modelled from the spec: the optional [meta] part of a sensor event,
    with the fields [generateReading] fills in. *)
Record MetaData := {
  meta_device_id : string;
  meta_plant_type : string;
  location : string;
  firmware_version : string
}.

(** Modelled from the spec: the declaration of the sensor event in
    [types/plantHealth.ts], which is not among the sources.  The fields are
    those of the spec's SensorEvent, with the types of the values
    [generateReading] stores in them. *)
Record PlantSensorEvent := {
  device_id : string;
  plant_type : string;
  timestamp : Z;
  environment : EnvironmentData;
  soil : SoilData;
  vitality : VitalityData;
  meta : MetaData
}.

(** Modelled from the spec: the declaration of the health insight in
    [types/plantHealth.ts], which is not among the sources; only the
    fields the modelled code reads. *)
Record PlantHealthInsight := {
  health_score : Z;
  stress_category : string;
  summary : string;
  recommendations : list string
}.

End PlantHealthTypes.

(** ** The plant health simulator ([plantHealthSimulator.ts]) *)

Module PlantHealthSimulator.

Record State := {
  temperature : Q;
  humidity : Q;
  light : Q;
  moisture : Q;
  soilTemp : Q;
  waterTank : Q;
  capacitance : Q;
  touchEvents : Z;
  leafColor : Q;
  growthIndex : Q;
  moistureTrend : Z;
  tempTrend : Z
}.

Record Simulator := {
  deviceId : string;
  plantType : string;
  location : string;
  state : State
}.

(** The constructor; [r1] to [r5] are its five [Math.random()] draws. *)
Definition construct (deviceId plantType location : string) (r1 r2 r3 r4 r5 : Q) : Simulator :=
  let temperature0 := 20 + r1 * 6 in
  {| deviceId := deviceId;
     plantType := plantType;
     location := location;
     state := {| temperature := temperature0;
                 humidity := 45 + r2 * 20;
                 light := 5000 + r3 * 10000;
                 moisture := 30 + r4 * 30;
                 soilTemp := temperature0 - 1 + r5 * 2;
                 waterTank := 80.0;
                 capacitance := 0;
                 touchEvents := 0%Z;
                 leafColor := 0.9;
                 growthIndex := 1.0;
                 moistureTrend := 0%Z;
                 tempTrend := 0%Z |} |}.

(** What one call of [generateReading] takes from outside: the clock, the
    two sines of the clock, and one field per [Math.random()] call site. *)
Record Entropy := {
  now : Z;
  sinHour : Q;
  sinHalfHour : Q;
  rMoisture : Q;
  rTrendChange : Q;
  rTrendSign : Q;
  rTrendReset : Q;
  rTemperature : Q;
  rSoilTemp : Q;
  rHumidity : Q;
  rLight : Q;
  rTouch : Q;
  rTouchLevel : Q;
  rDecay : Q
}.

(** [updateState()]. *)
Definition updateState (en : Entropy) (s : State) : State :=
  let moisture1 :=
    if (moistureTrend s <=? 0)%Z
    then JS.Math_max 0 (moisture s - (0.1 + rMoisture en * 0.2))
    else JS.Math_min 100 (moisture s + (0.1 + rMoisture en * 0.2)) in
  let trend1 :=
    if JS.lt 0.98 (rTrendChange en)
    then (if JS.lt 0.5 (rTrendSign en) then 1%Z else (-1)%Z)
    else moistureTrend s in
  let trend2 := if JS.lt 0.95 (rTrendReset en) then 0%Z else trend1 in
  let tempVariation := (sinHour en * 2) + (rTemperature en - 0.5) * 0.5 in
  let temperature1 := JS.Math_max 18 (JS.Math_min 30 (22 + tempVariation)) in
  let soilTemp1 := temperature1 - 1 + (rSoilTemp en - 0.5) * 1 in
  let humidity1 :=
    JS.Math_max 30 (JS.Math_min 80 (65 - (temperature1 - 22) * 2 + (rHumidity en - 0.5) * 5)) in
  let lightVariation := JS.Math_max 0 (sinHalfHour en * 5000) + (rLight en - 0.5) * 1000 in
  let light1 := JS.Math_max 100 (JS.Math_min 20000 (10000 + lightVariation)) in
  let depleting := JS.lt moisture1 30 && JS.lt 0 (waterTank s) in
  let waterTank1 := if depleting then JS.Math_max 0 (waterTank s - 0.05) else waterTank s in
  let watering := depleting && JS.lt moisture1 25 in
  let moisture2 := if watering then JS.Math_min 100 (moisture1 + 0.5) else moisture1 in
  let trend3 := if watering then 1%Z else trend2 in
  let leafColor1 :=
    if JS.lt moisture2 20 || JS.lt 28 temperature1 || JS.lt light1 2000
    then JS.Math_max 0.5 (leafColor s - 0.001)
    else if JS.lt 30 moisture2 && JS.lt temperature1 26 && JS.lt 5000 light1
    then JS.Math_min 1.0 (leafColor s + 0.0005)
    else leafColor s in
  let growthIndex1 :=
    if JS.lt 30 moisture2 && JS.lt moisture2 70 &&
       JS.lt 20 temperature1 && JS.lt temperature1 26 && JS.lt 5000 light1
    then JS.Math_min 1.2 (growthIndex s + 0.0001)
    else growthIndex s in
  {| temperature := temperature1;
     humidity := humidity1;
     light := light1;
     moisture := moisture2;
     soilTemp := soilTemp1;
     waterTank := waterTank1;
     capacitance := capacitance s;
     touchEvents := touchEvents s;
     leafColor := leafColor1;
     growthIndex := growthIndex1;
     moistureTrend := trend3;
     tempTrend := tempTrend s |}.

Definition withVitality (c : Q) (t : Z) (s : State) : State :=
  {| temperature := temperature s; humidity := humidity s; light := light s;
     moisture := moisture s; soilTemp := soilTemp s; waterTank := waterTank s;
     capacitance := c; touchEvents := t;
     leafColor := leafColor s; growthIndex := growthIndex s;
     moistureTrend := moistureTrend s; tempTrend := tempTrend s |}.

(** [Math.round(x * 10) / 10] and [Math.round(x * 100) / 100]. *)
Definition round1 (x : Q) : Q := inject_Z (JS.Math_round (x * 10)) / 10.
Definition round2 (x : Q) : Q := inject_Z (JS.Math_round (x * 100)) / 100.

(** [generateReading(capacitanceValue?)]: the simulator after the call and
    the event returned. *)
Definition generateReading (capacitanceValue : option Q) (en : Entropy) (sim : Simulator)
    : Simulator * PlantHealthTypes.PlantSensorEvent :=
  let s1 := updateState en (state sim) in
  let s2 :=
    match capacitanceValue with
    | Some c =>
      withVitality c
        (if JS.lt 20 c then Z.min (touchEvents s1 + 1) 10 else touchEvents s1) s1
    | None =>
      if JS.lt 0.95 (rTouch en)
      then withVitality (30 + rTouchLevel en * 50) (Z.min (touchEvents s1 + 1) 10) s1
      else withVitality (JS.Math_max 0 (capacitance s1 - 2)) (touchEvents s1) s1
    end in
  let s3 :=
    if JS.lt 0.7 (rDecay en)
    then withVitality (capacitance s2) (Z.max 0 (touchEvents s2 - 1)) s2
    else s2 in
  ({| deviceId := deviceId sim; plantType := plantType sim; location := location sim;
      state := s3 |},
   {| PlantHealthTypes.device_id := deviceId sim;
      PlantHealthTypes.plant_type := plantType sim;
      PlantHealthTypes.timestamp := now en;
      PlantHealthTypes.environment :=
        {| PlantHealthTypes.temperature_c := round1 (temperature s3);
           PlantHealthTypes.humidity_pct := round1 (humidity s3);
           PlantHealthTypes.light_lux := JS.Math_round (light s3) |};
      PlantHealthTypes.soil :=
        {| PlantHealthTypes.moisture_pct := round1 (moisture s3);
           PlantHealthTypes.soil_temp_c := round1 (soilTemp s3);
           PlantHealthTypes.water_tank_level_pct := round1 (waterTank s3) |};
      PlantHealthTypes.vitality :=
        {| PlantHealthTypes.capacitance := JS.Math_round (capacitance s3);
           PlantHealthTypes.touch_events_last_min := touchEvents s3;
           PlantHealthTypes.leaf_color_index := round2 (leafColor s3);
           PlantHealthTypes.growth_index := round2 (growthIndex s3) |};
      PlantHealthTypes.meta :=
        {| PlantHealthTypes.meta_device_id := deviceId sim;
           PlantHealthTypes.meta_plant_type := plantType sim;
           PlantHealthTypes.location := location sim;
           PlantHealthTypes.firmware_version := "1.0.0" |} |}).

(** The events of successive readings, one per input. *)
Fixpoint readings (inputs : list (option Q * Entropy)) (sim : Simulator)
    : list PlantHealthTypes.PlantSensorEvent :=
  match inputs with
  | [] => []
  | (c, en) :: rest =>
    let '(sim', ev) := generateReading c en sim in
    ev :: readings rest sim'
  end.

Definition touchCount (ev : PlantHealthTypes.PlantSensorEvent) : Z :=
  PlantHealthTypes.touch_events_last_min (PlantHealthTypes.vitality ev).

(** Inputs of the examples: a call at time [t] whose draws are all 0.5 and
    whose sines are 0, and the simulator the component creates, built with
    the same draws. *)
Definition calm (t : Z) : Entropy := {|
  now := t; sinHour := 0; sinHalfHour := 0;
  rMoisture := 0.5; rTrendChange := 0.5; rTrendSign := 0.5; rTrendReset := 0.5;
  rTemperature := 0.5; rSoilTemp := 0.5; rHumidity := 0.5; rLight := 0.5;
  rTouch := 0.5; rTouchLevel := 0.5; rDecay := 0.5
|}.

Definition monstera : Simulator :=
  construct "plant01" "Monstera" "living_room" 0.5 0.5 0.5 0.5 0.5.

(** [n] readings, one per second, with capacitance 30 passed in. *)
Definition touchedReadings (n : nat) : list PlantHealthTypes.PlantSensorEvent :=
  readings (List.map (fun i => (Some 30, calm (1000 * Z.of_nat i))) (seq 0 n)) monstera.

End PlantHealthSimulator.

(** ** The analysis service ([vertexAIService.ts]) *)

Module VertexAIService.

(** [addHealthEventToWindow(event)] on [healthDataWindow]: [push], then
    [shift] when the window has grown past 20. *)
Definition addHealthEventToWindow (event : PlantHealthTypes.PlantSensorEvent)
    (healthDataWindow : list PlantHealthTypes.PlantSensorEvent)
    : list PlantHealthTypes.PlantSensorEvent :=
  let pushed := healthDataWindow ++ [event] in
  if (20 <? length pushed)%nat then List.tl pushed else pushed.

(** Events added one after the other, in the order of the list. *)
Definition addAll (events window : list PlantHealthTypes.PlantSensorEvent)
    : list PlantHealthTypes.PlantSensorEvent :=
  fold_left (fun w ev => addHealthEventToWindow ev w) events window.

(** What [callGeminiAPI] gives [generateCompanionResponse]: it throws (the
    request fails, the reply is not [ok], or its text does not parse), or
    it returns the parsed reply, a string or an object whose [text] and
    [response] fields may be missing. *)
Inductive ApiOutcome :=
| ApiThrows
| ApiString (response : string)
| ApiObject (text response : option string).

Definition companionFallback : string := "I'm here and listening! How are you doing today?".

(** [s.replace(/```/g, '')] and [s.replace(/\*\*/g, '')]. *)
Fixpoint stripFences (s : string) : string :=
  match s with
  | String "`" (String "`" (String "`" rest)) => stripFences rest
  | String c rest => String c (stripFences rest)
  | EmptyString => EmptyString
  end.

Fixpoint stripBold (s : string) : string :=
  match s with
  | String "*" (String "*" rest) => stripBold rest
  | String c rest => String c (stripBold rest)
  | EmptyString => EmptyString
  end.

(** [o?.trim()]: undefined when [o] is. *)
Definition trimmed (o : option string) : string :=
  match o with
  | Some s => JS.trim s
  | None => EmptyString
  end.

(** The [try]/[catch] that ends [generateCompanionResponse]. *)
Definition generateCompanionResponse (api : ApiOutcome) : string :=
  match api with
  | ApiThrows => companionFallback
  | ApiString response => JS.trim (stripBold (stripFences (JS.trim response)))
  | ApiObject text response =>
    let responseText := JS.or_else (trimmed text) (JS.or_else (trimmed response) companionFallback) in
    JS.trim (stripBold (stripFences responseText))
  end.

End VertexAIService.

(** ** The device monitor component ([DeviceMonitor.tsx]) *)

Module DeviceMonitor.

(** *** Hardware state, auto-calibration and the sampling tick *)

(** The shape shared by [hardwareBufferRef.current] and [arduinoState]. *)
Record HardwareState := {
  topPoint : Q;
  interpolated : Q;
  baseline : Q;
  value : Z;
  raw : Q
}.

Definition initialHardware : HardwareState :=
  {| topPoint := 0; interpolated := 0; baseline := 0; value := 0%Z; raw := 0 |}.

Definition withBaseline (b : Q) (h : HardwareState) : HardwareState :=
  {| topPoint := topPoint h; interpolated := interpolated h; baseline := b;
     value := value h; raw := raw h |}.

Definition withValue (v : Z) (h : HardwareState) : HardwareState :=
  {| topPoint := topPoint h; interpolated := interpolated h; baseline := baseline h;
     value := v; raw := raw h |}.

(** "Auto-Calibration Logic": the baseline update of one tick. *)
Definition autoCalibrate (h : HardwareState) : HardwareState :=
  let currentRaw := raw h in
  let currentBaseline := baseline h in
  if JS.strict_eq currentBaseline 0 && JS.lt 0 currentRaw then
    withBaseline currentRaw h
  else if JS.lt 0 currentRaw then
    let diff := JS.Math_abs (currentRaw - currentBaseline) in
    if JS.lt diff 10 then
      withBaseline (currentBaseline * 0.99 + currentRaw * 0.01) h
    else h
  else h.

(** "Calculate Deviation", against the baseline just written. *)
Definition calculateDeviation (currentRaw : Q) (h : HardwareState) : HardwareState :=
  let deviation := JS.Math_abs (currentRaw - baseline h) in
  withValue (JS.Math_floor deviation) h.

Definition calibrationStep (h : HardwareState) : HardwareState :=
  calculateDeviation (raw h) (autoCalibrate h).

(** The assignments of [parseSerialLine] for a line that matches the
    protocol; [top] and [int] are [parseFloat(match[1])] and
    [parseFloat(match[3])]. *)
Definition storeSerialReading (top int : Q) (h : HardwareState) : HardwareState :=
  let rawInt := inject_Z (JS.Math_round int) in
  {| topPoint := top; interpolated := rawInt; baseline := baseline h;
     value := value h; raw := rawInt |}.

Record ChartPoint := {
  time : Z;
  val : Q
}.

Definition INITIAL_DATA : list ChartPoint :=
  List.map (fun i => {| time := Z.of_nat i; val := 0 |}) (seq 0 50).

(** The [setChartData] updater of the tick. *)
Definition appendChartPoint (t : Z) (v : Q) (prev : list ChartPoint) : list ChartPoint :=
  let newData := if (50 <? length prev)%nat then List.tl prev else prev in
  newData ++ [{| time := t; val := v |}].

Inductive InteractionMode := TALK | MUSIC.

(** What the interval callback of the sync effect reads and writes. *)
Record Monitor := {
  hardwareBufferRef : HardwareState;
  arduinoState : HardwareState;
  valueRef : Z;
  timeRef : Z;
  chartData : list ChartPoint;
  synthRef : option BioSynth.Engine
}.

Definition initialMonitor : Monitor := {|
  hardwareBufferRef := initialHardware;
  arduinoState := initialHardware;
  valueRef := 0%Z;
  timeRef := 0%Z;
  chartData := INITIAL_DATA;
  synthRef := Some BioSynth.create
|}.

(** One firing of [syncInterval] (every 33 ms).  The interaction mode, the
    sound threshold and the master volume are the values of the render
    that registered the interval. *)
Definition syncTick (interactionMode : InteractionMode) (soundThreshold masterVolume : Q)
    (m : Monitor) : Monitor :=
  let hb := calibrationStep (hardwareBufferRef m) in
  let synth :=
    match interactionMode, synthRef m with
    | MUSIC, Some s =>
      Some (BioSynth.update (raw hb) soundThreshold (BioSynth.setMasterVolume masterVolume s))
    | _, s => s
    end in
  {| hardwareBufferRef := hb;
     arduinoState := {| topPoint := topPoint hb;
                        interpolated := interpolated hb;
                        baseline := inject_Z (JS.Math_floor (baseline hb));
                        value := value hb;
                        raw := raw hb |};
     valueRef := value hb;
     timeRef := (timeRef m + 1)%Z;
     chartData := appendChartPoint (timeRef m) (raw hb) (chartData m);
     synthRef := synth |}.

(** [parseSerialLine] on a matching line, between two ticks. *)
Definition parseSerialLine (top int : Q) (m : Monitor) : Monitor :=
  {| hardwareBufferRef := storeSerialReading top int (hardwareBufferRef m);
     arduinoState := arduinoState m; valueRef := valueRef m; timeRef := timeRef m;
     chartData := chartData m; synthRef := synthRef m |}.

(** *** Touch edge detection ("Trigger interactions" effect) *)

Inductive TouchEdge := TouchStart | TouchEnd.

(** [isTouchingRef], the value of the dependency [arduinoState.value] at the
    last run of the effect, and the delays (ms) of the touch interactions
    scheduled with [setTimeout]. *)
Record Touch := {
  isTouchingRef : bool;
  lastDep : option Z;
  scheduled : list Z
}.

Definition initialTouch : Touch :=
  {| isTouchingRef := false; lastDep := None; scheduled := [] |}.

Definition touchThreshold : Z := 15.

Definition handleTouchStart (isRecording isProcessing : bool) (t : Touch) : Touch :=
  {| isTouchingRef := true;
     lastDep := lastDep t;
     scheduled := if isRecording && negb isProcessing
                  then scheduled t ++ [500%Z] else scheduled t |}.

Definition handleTouchEnd (t : Touch) : Touch :=
  {| isTouchingRef := false; lastDep := lastDep t; scheduled := scheduled t |}.

(** The body of the effect; the edge it reports is the handler it called. *)
Definition triggerInteractions (isRecording isProcessing : bool) (valueRef : Z)
    (t : Touch) : Touch * option TouchEdge :=
  let isTouch := (touchThreshold <? valueRef)%Z in
  if isTouch && negb (isTouchingRef t) then
    (handleTouchStart isRecording isProcessing t, Some TouchStart)
  else if negb isTouch && isTouchingRef t then
    (handleTouchEnd t, Some TouchEnd)
  else (t, None).

(** What one sampling tick publishes to the effect. *)
Record Tick := {
  tickValue : Z;
  tickRecording : bool;
  tickProcessing : bool
}.

(** After the render that follows a tick, React runs the effect only if
    the dependency changed since the effect last ran. *)
Definition afterRender (k : Tick) (t : Touch) : Touch * option TouchEdge :=
  if decide (lastDep t = Some (tickValue k)) then (t, None)
  else
    triggerInteractions (tickRecording k) (tickProcessing k) (tickValue k)
      {| isTouchingRef := isTouchingRef t;
         lastDep := Some (tickValue k);
         scheduled := scheduled t |}.

(** The edges fired tick by tick over a run of ticks. *)
Fixpoint runTicks (ticks : list Tick) (t : Touch) : Touch * list (option TouchEdge) :=
  match ticks with
  | [] => (t, [])
  | k :: rest =>
    let '(t1, e) := afterRender k t in
    let '(t2, es) := runTicks rest t1 in
    (t2, e :: es)
  end.

Definition edges (ticks : list Tick) : list (option TouchEdge) :=
  snd (runTicks ticks initialTouch).

Definition above (k : Tick) : Prop := (touchThreshold < tickValue k)%Z.

(** The latch agrees with the value the effect last saw. *)
Definition synced (t : Touch) : Prop :=
  isTouchingRef t = match lastDep t with
                    | Some v => (touchThreshold <? v)%Z
                    | None => false
                    end.

(** *** The interaction controller ([processInteraction]) *)

Inductive Role := user | model.

(** Modelled from the spec: the declarations of [ChatMessage] and
    [PlantDataPoint] in [types.ts] are not among the sources; the fields
    are those of the object literals the component builds for the
    conversation history and the session log. *)
Record ChatMessage := {
  role : Role;
  text : string
}.

Inductive InteractionType := USER | SYSTEM | TOUCH.

(** Modelled from the spec: [PlantDataPoint] of [types.ts], likewise. *)
Record PlantDataPoint := {
  timestamp : Z;
  capacitance : Z;
  sentiment : string;
  userMessage : option string;
  plantResponse : option string
}.

(** The generation function a request is sent to. *)
Inductive Backend :=
| Companion (insight : PlantHealthTypes.PlantHealthInsight)
| PlantResponse (normalizedIntensity : Q).

(** A generation request that has been issued and not yet answered: the
    suspended rest of one call of [processInteraction]. *)
Record Request := {
  backend : Backend;
  prompt : string;
  historyForService : list ChatMessage;
  currentValue : Z
}.

Record Controller := {
  isProcessing : bool;
  messages : list ChatMessage;
  sessionData : list PlantDataPoint;
  inFlight : list Request
}.

Definition initialController : Controller :=
  {| isProcessing := false; messages := []; sessionData := []; inFlight := [] |}.

(** [processInteraction] is created anew in every render and closes over
    the [isProcessing] and [messages] of that render; a handler or a timer
    calls the function of the render it was itself created in. *)
Record Closure := {
  renderedProcessing : bool;
  renderedMessages : list ChatMessage
}.

(** What a call reads besides the state and its closure. *)
Record Ambient := {
  isRecordingRef : bool;
  ambientValueRef : Z;
  currentHealthInsight : option PlantHealthTypes.PlantHealthInsight;
  interactionMode : InteractionMode;
  clock : Z
}.

Definition isSystem (type : InteractionType) : bool :=
  match type with SYSTEM => true | _ => false end.

Definition isUser (type : InteractionType) : bool :=
  match type with USER => true | _ => false end.

Definition promptOf (text : string) (type : InteractionType) (currentValue : Z) : string :=
  match type with
  | USER => text
  | SYSTEM => ("[SYSTEM EVENT: " ++ text ++ "]")%string
  | TOUCH =>
    ("[SENSORY INPUT: User touched the plant. Sensor Deviation: " ++ pretty currentValue ++ "]")%string
  end.

Definition backendOf (a : Ambient) (type : InteractionType) (currentValue : Z) : Backend :=
  match currentHealthInsight a, type with
  | Some insight, USER => Companion insight
  | _, _ =>
    PlantResponse (JS.Math_min 100 (JS.Math_max 0 ((inject_Z currentValue / 50) * 100)))
  end.

(** [processInteraction(text, type, overrideValue)] up to its first
    [await].  The guard reads the [isProcessing] of the closure; a call that
    passes it sets the flag, appends the user's message for a [USER] call
    (the state setters work on the current state) and issues the request.
    A call that does not pass it returns at once. *)
Definition processInteraction (cl : Closure) (a : Ambient) (text : string)
    (type : InteractionType) (overrideValue : option Z) (c : Controller) : Controller :=
  if renderedProcessing cl && negb (isSystem type) then c
  else
    let currentValue := default (ambientValueRef a) overrideValue in
    let userTurn := isUser type in
    {| isProcessing := true;
       messages :=
         if userTurn then messages c ++ [{| role := user; text := text |}] else messages c;
       sessionData :=
         if userTurn && isRecordingRef a
         then sessionData c ++ [{| timestamp := clock a; capacitance := currentValue;
                                   sentiment := "User Input"; userMessage := Some text;
                                   plantResponse := None |}]
         else sessionData c;
       inFlight :=
         inFlight c ++ [{| backend := backendOf a type currentValue;
                           prompt := promptOf text type currentValue;
                           historyForService := renderedMessages cl;
                           currentValue := currentValue |}] |}.

(** How an awaited generation call completes. *)
Inductive Settlement :=
| Fulfilled (responseText : string)
| Rejected.

(** The rest of the call that issued the [i]-th outstanding request, run
    when that request settles: the model turn is appended, then the
    [finally] clause clears the flag.  [speak] catches every failure of the
    speech services itself and changes nothing modelled here. *)
Definition settle (a : Ambient) (i : nat) (outcome : Settlement) (c : Controller) : Controller :=
  match inFlight c !! i with
  | None => c
  | Some req =>
    match outcome with
    | Fulfilled responseText =>
      {| isProcessing := false;
         messages := messages c ++ [{| role := model; text := responseText |}];
         sessionData :=
           if isRecordingRef a
           then sessionData c ++ [{| timestamp := clock a; capacitance := currentValue req;
                                     sentiment := "Plant Response"; userMessage := None;
                                     plantResponse := Some responseText |}]
           else sessionData c;
         inFlight := delete i (inFlight c) |}
    | Rejected =>
      {| isProcessing := false;
         messages := messages c;
         sessionData := sessionData c;
         inFlight := delete i (inFlight c) |}
    end
  end.

(** The closure of the render that shows the state [c]. *)
Definition latestRender (c : Controller) : Closure :=
  {| renderedProcessing := isProcessing c; renderedMessages := messages c |}.

(** What happens to a controller over time, every call being made from
    the latest render. *)
Inductive Event :=
| Call (a : Ambient) (text : string) (type : InteractionType) (overrideValue : option Z)
| Settle (a : Ambient) (i : nat) (outcome : Settlement).

Definition step (c : Controller) (ev : Event) : Controller :=
  match ev with
  | Call a text type overrideValue =>
    processInteraction (latestRender c) a text type overrideValue c
  | Settle a i outcome => settle a i outcome c
  end.

Definition run (evs : list Event) (c : Controller) : Controller := fold_left step evs c.



(** The turn a call adds to the history before its request is issued. *)
Definition ownTurn (text : string) (type : InteractionType) : list ChatMessage :=
  if isUser type then [{| role := user; text := text |}] else [].


(** The text the generation function of a request returns, given the
    remote sides of the two functions. *)
Definition answerOf (k : GeminiService.KeySources) (r : GeminiService.Remote)
    (api : VertexAIService.ApiOutcome) (req : Request) : string :=
  match backend req with
  | PlantResponse normalizedIntensity =>
    GeminiService.generatePlantResponse k r (prompt req) normalizedIntensity
      (List.map (fun m => (match role m with user => "user" | model => "model" end, text m))
         (historyForService req))
  | Companion _ => VertexAIService.generateCompanionResponse api
  end.

(** The generation function a call goes to. *)
Definition toCompanion (a : Ambient) (type : InteractionType) : bool :=
  match currentHealthInsight a, type with
  | Some _, USER => true
  | _, _ => false
  end.

End DeviceMonitor.

(** ** The calibration as the engine computes it *)

Module DeviceMonitor64.
Import DeviceMonitor.

(** "Auto-Calibration Logic" in double arithmetic: the literals [0.99]
    and [0.01] are the doubles nearest to them, and the difference, the two
    products and the sum are each rounded.  [Math.abs] and the comparisons
    are exact on doubles. *)
Definition autoCalibrate (h : HardwareState) : HardwareState :=
  let currentRaw := raw h in
  let currentBaseline := baseline h in
  if JS.strict_eq currentBaseline 0 && JS.lt 0 currentRaw then
    withBaseline currentRaw h
  else if JS.lt 0 currentRaw then
    let diff := JS.Math_abs (Binary64.sub currentRaw currentBaseline) in
    if JS.lt diff 10 then
      withBaseline
        (Binary64.add (Binary64.mul currentBaseline (Binary64.fl 0.99))
                      (Binary64.mul currentRaw (Binary64.fl 0.01))) h
    else h
  else h.

(** "Calculate Deviation", against the baseline just written. *)
Definition calculateDeviation (currentRaw : Q) (h : HardwareState) : HardwareState :=
  let deviation := JS.Math_abs (Binary64.sub currentRaw (baseline h)) in
  withValue (JS.Math_floor deviation) h.

Definition calibrationStep (h : HardwareState) : HardwareState :=
  calculateDeviation (raw h) (autoCalibrate h).

(** A buffer that holds the reading [r] and the baseline [b]. *)
Definition reading (r b : Q) : HardwareState :=
  {| topPoint := r; interpolated := r; baseline := b; value := 0%Z; raw := r |}.

End DeviceMonitor64.

(** ** The rule-based part of the health analysis ([vertexAIService.ts]) *)

Module VertexAIHealth.

Inductive MetricStatus := OPTIMAL | LOW | HIGH | CRITICAL_LOW | CRITICAL_HIGH.

Inductive StressCategory :=
| HEALTHY | WATER_STRESS | HEAT_STRESS | COLD_STRESS | LIGHT_STRESS
| HUMIDITY_STRESS | MULTIPLE_STRESS.

Definition getMoistureStatus (moisture : Q) : MetricStatus :=
  if JS.lt moisture 15 then CRITICAL_LOW
  else if JS.lt moisture 25 then LOW
  else if JS.lt 80 moisture then CRITICAL_HIGH
  else if JS.lt 70 moisture then HIGH
  else OPTIMAL.

Definition getTemperatureStatus (temp : Q) : MetricStatus :=
  if JS.lt temp 15 then CRITICAL_LOW
  else if JS.lt temp 18 then LOW
  else if JS.lt 30 temp then CRITICAL_HIGH
  else if JS.lt 28 temp then HIGH
  else OPTIMAL.

Definition getLightStatus (light : Q) : MetricStatus :=
  if JS.lt light 1000 then CRITICAL_LOW
  else if JS.lt light 3000 then LOW
  else if JS.lt 20000 light then CRITICAL_HIGH
  else if JS.lt 15000 light then HIGH
  else OPTIMAL.

Definition getHumidityStatus (humidity : Q) : MetricStatus :=
  if JS.lt humidity 30 then CRITICAL_LOW
  else if JS.lt humidity 40 then LOW
  else if JS.lt 80 humidity then CRITICAL_HIGH
  else if JS.lt 70 humidity then HIGH
  else OPTIMAL.

(** [s === 'LOW' || s === 'CRITICAL_LOW'] and its counterpart. *)
Definition isLow (s : MetricStatus) : bool :=
  match s with LOW | CRITICAL_LOW => true | _ => false end.

Definition isHigh (s : MetricStatus) : bool :=
  match s with HIGH | CRITICAL_HIGH => true | _ => false end.

(** [determineStressCategory]: [issues] collects one entry per test that
    holds, in the order of the tests. *)
Definition stressIssues (moisture temp light humidity : MetricStatus) : list StressCategory :=
  (if isLow moisture then [WATER_STRESS] else []) ++
  (if isHigh temp then [HEAT_STRESS] else []) ++
  (if isLow temp then [COLD_STRESS] else []) ++
  (if isLow light then [LIGHT_STRESS] else []) ++
  (if isLow humidity then [HUMIDITY_STRESS] else []).

Definition determineStressCategory (moisture temp light humidity : MetricStatus)
    : StressCategory :=
  match stressIssues moisture temp light humidity with
  | [] => HEALTHY
  | [issue] => issue
  | _ :: _ :: _ => MULTIPLE_STRESS
  end.

Definition deductions (s : MetricStatus) : Z :=
  match s with
  | OPTIMAL => 0
  | LOW => 10
  | HIGH => 10
  | CRITICAL_LOW => 25
  | CRITICAL_HIGH => 25
  end.

Definition sumQ (l : list Q) : Q := fold_left Qplus l 0.

(** [values.reduce(...) / values.length]; [None] stands for the NaN that
    the division gives on an empty list. *)
Definition averageOf (values : list Q) : option Q :=
  match values with
  | [] => None
  | _ => Some (sumQ values / inject_Z (Z.of_nat (length values)))
  end.

(** [x < bound] where [x] may be NaN: false then. *)
Definition below (x : option Q) (bound : Q) : bool :=
  match x with
  | Some v => JS.lt v bound
  | None => false
  end.

Definition above (x : option Q) (bound : Q) : bool :=
  match x with
  | Some v => JS.lt bound v
  | None => false
  end.

(** [e.vitality.leaf_color_index || 0.9]. *)
Definition leafColorOf (e : PlantHealthTypes.PlantSensorEvent) : Q :=
  let c := PlantHealthTypes.leaf_color_index (PlantHealthTypes.vitality e) in
  if JS.strict_eq c 0 then 0.9 else c.

(** The sum and the quotient of [reduce(...) / length] as the engine
    computes them: the additions from the left, starting at 0, and the
    division are each rounded to a double. *)
Definition sum64 (values : list Q) : Q := fold_left Binary64.add values 0.

Definition averageOf64 (values : list Q) : option Q :=
  match values with
  | [] => None
  | _ => Some (Binary64.div (sum64 values) (inject_Z (Z.of_nat (length values))))
  end.

(** The leaf colours of the events as the doubles they are. *)
Definition leafColours (events : list PlantHealthTypes.PlantSensorEvent) : list Q :=
  List.map (fun e => Binary64.fl (leafColorOf e)) events.

(** The average leaf colour is computed and compared in doubles; the
    deductions are whole numbers. *)
Definition calculateHealthScore (moisture temp light humidity : MetricStatus)
    (events : list PlantHealthTypes.PlantSensorEvent) : Z :=
  let score :=
    (100 - (deductions moisture + deductions temp + deductions light + deductions humidity))%Z in
  let avgLeafColor := averageOf64 (leafColours events) in
  let score' := if below avgLeafColor (Binary64.fl 0.7) then (score - 15)%Z else score in
  Z.max 0 (Z.min 100 score').

(** [calculateVariance(values)]. *)
Definition calculateVariance (values : list Q) : option Q :=
  match averageOf values with
  | Some mean => averageOf (List.map (fun v => (v - mean) * (v - mean)) values)
  | None => None
  end.

Definition moistureOf (e : PlantHealthTypes.PlantSensorEvent) : Q :=
  PlantHealthTypes.moisture_pct (PlantHealthTypes.soil e).

Definition temperatureOf (e : PlantHealthTypes.PlantSensorEvent) : Q :=
  PlantHealthTypes.temperature_c (PlantHealthTypes.environment e).

Definition lightOf (e : PlantHealthTypes.PlantSensorEvent) : Q :=
  inject_Z (PlantHealthTypes.light_lux (PlantHealthTypes.environment e)).

Definition humidityOf (e : PlantHealthTypes.PlantSensorEvent) : Q :=
  PlantHealthTypes.humidity_pct (PlantHealthTypes.environment e).

(** [events.slice(-n)]. *)
Definition lastN {A} (n : nat) (events : list A) : list A :=
  drop (length events - n) events.

Definition detectAnomalies (events : list PlantHealthTypes.PlantSensorEvent) : bool :=
  if (length events <? 3)%nat then false
  else
    let recent := lastN 3 events in
    let moistureVariance := calculateVariance (List.map moistureOf recent) in
    let tempVariance := calculateVariance (List.map temperatureOf recent) in
    above moistureVariance 50 || above tempVariance 10.

(** [getDefaultRecommendations(params)], from the three statuses it
    reads. *)
Definition getDefaultRecommendations (moistureStatus tempStatus lightStatus : MetricStatus)
    : list string :=
  let recs :=
    (if isLow moistureStatus then ["Water the plant soon"%string] else []) ++
    (if isHigh tempStatus then ["Move to a cooler location"%string] else []) ++
    (if isLow lightStatus then ["Provide more light"%string] else []) in
  if (length recs =? 0)%nat then recs ++ ["Continue current care routine"%string] else recs.

(** What [analyzePlantHealth] computes from a non-empty window before it
    asks the remote side for a summary. *)
Record RuleBased := {
  events_count : nat;
  moisture_status : MetricStatus;
  temperature_status : MetricStatus;
  light_status : MetricStatus;
  humidity_status : MetricStatus;
  stress_category : StressCategory;
  health_score : Z;
  anomaly_detected : bool
}.

(** The status of an average that may be NaN: every comparison is false
    on NaN, which leaves the last branch. *)
Definition statusOf (status : Q -> MetricStatus) (avg : option Q) : MetricStatus :=
  match avg with
  | Some v => status v
  | None => OPTIMAL
  end.

(** [None] is the early return of [createDefaultHealthInsight()] on an
    empty window. *)
Definition analyzeRules (healthDataWindow : list PlantHealthTypes.PlantSensorEvent)
    : option RuleBased :=
  if (length healthDataWindow =? 0)%nat then None
  else
    let recentEvents := lastN 10 healthDataWindow in
    let avgMoisture := averageOf (List.map moistureOf recentEvents) in
    let avgTemp := averageOf (List.map temperatureOf recentEvents) in
    let avgLight := averageOf (List.map lightOf recentEvents) in
    let avgHumidity := averageOf (List.map humidityOf recentEvents) in
    let moistureStatus := statusOf getMoistureStatus avgMoisture in
    let tempStatus := statusOf getTemperatureStatus avgTemp in
    let lightStatus := statusOf getLightStatus avgLight in
    let humidityStatus := statusOf getHumidityStatus avgHumidity in
    Some {| events_count := length recentEvents;
            moisture_status := moistureStatus;
            temperature_status := tempStatus;
            light_status := lightStatus;
            humidity_status := humidityStatus;
            stress_category :=
              determineStressCategory moistureStatus tempStatus lightStatus humidityStatus;
            health_score :=
              calculateHealthScore moistureStatus tempStatus lightStatus humidityStatus
                recentEvents;
            anomaly_detected := detectAnomalies recentEvents |}.

(** [addToWindow(event)] on the legacy [dataWindow]: [push], then [shift]
    when the window has grown past 50. *)
Definition addToWindow {A} (event : A) (dataWindow : list A) : list A :=
  let pushed := dataWindow ++ [event] in
  if (50 <? length pushed)%nat then List.tl pushed else pushed.

(** A status function cuts the number line into five bands at the four
    given bounds, the two inner bounds belonging to the optimal band. *)
Definition bands (criticalLow low high criticalHigh : Q) (status : Q -> MetricStatus) : Prop :=
  forall x,
    (status x = CRITICAL_LOW <-> x < criticalLow) /\
    (status x = LOW <-> criticalLow <= x < low) /\
    (status x = OPTIMAL <-> low <= x <= high) /\
    (status x = HIGH <-> high < x <= criticalHigh) /\
    (status x = CRITICAL_HIGH <-> criticalHigh < x).

End VertexAIHealth.

(** ** The speech service ([googleTTS.ts]) *)

Module GoogleTTS.

Inductive Emotion := happy | sad | excited | calm | concerned | neutral.

Record Modifier := {
  pitch : Q;
  speakingRate : Q
}.

(** A personality voice: its name, the name of its base voice, and its
    [emotionModifiers], an object with five keys. *)
Record PersonalityVoice := {
  name : string;
  baseVoiceName : string;
  whenHappy : Modifier;
  whenSad : Modifier;
  whenExcited : Modifier;
  whenCalm : Modifier;
  whenConcerned : Modifier
}.

Definition friendlyCompanion : PersonalityVoice :=
  {| name := "Friendly Companion"; baseVoiceName := "en-US-Neural2-F";
     whenHappy := {| pitch := 4.0; speakingRate := 1.1 |};
     whenSad := {| pitch := -2.0; speakingRate := 0.9 |};
     whenExcited := {| pitch := 6.0; speakingRate := 1.2 |};
     whenCalm := {| pitch := 1.0; speakingRate := 0.95 |};
     whenConcerned := {| pitch := 0.0; speakingRate := 0.9 |} |}.

Definition cheerfulOptimist : PersonalityVoice :=
  {| name := "Cheerful Optimist"; baseVoiceName := "en-US-Neural2-D";
     whenHappy := {| pitch := 5.0; speakingRate := 1.15 |};
     whenSad := {| pitch := 1.0; speakingRate := 0.95 |};
     whenExcited := {| pitch := 7.0; speakingRate := 1.25 |};
     whenCalm := {| pitch := 2.0; speakingRate := 1.0 |};
     whenConcerned := {| pitch := 1.5; speakingRate := 1.0 |} |}.

Definition wiseMentor : PersonalityVoice :=
  {| name := "Wise Mentor"; baseVoiceName := "en-US-Neural2-J";
     whenHappy := {| pitch := 2.0; speakingRate := 1.0 |};
     whenSad := {| pitch := -3.0; speakingRate := 0.85 |};
     whenExcited := {| pitch := 3.0; speakingRate := 1.05 |};
     whenCalm := {| pitch := -1.0; speakingRate := 0.9 |};
     whenConcerned := {| pitch := -2.0; speakingRate := 0.9 |} |}.

Definition PLANTBUDDY_VOICES : list PersonalityVoice :=
  [friendlyCompanion; cheerfulOptimist; wiseMentor].

(** [voice.emotionModifiers[emotion]]: undefined for ['neutral'], which
    is not a key of the object. *)
Definition emotionModifiers (voice : PersonalityVoice) (emotion : Emotion) : option Modifier :=
  match emotion with
  | happy => Some (whenHappy voice)
  | sad => Some (whenSad voice)
  | excited => Some (whenExcited voice)
  | calm => Some (whenCalm voice)
  | concerned => Some (whenConcerned voice)
  | neutral => None
  end.

(** [determineEmotion(healthScore, stressCategory, userMessage)]. *)
Definition determineEmotion (healthScore : Z) (stressCategory : string)
    (userMessage : option string) : Emotion :=
  let message := JS.toLowerCase (default EmptyString userMessage) in
  if JS.includes message "sad" || JS.includes message "bad" ||
     JS.includes message "tired" || JS.includes message "stressed" then concerned
  else if JS.includes message "happy" || JS.includes message "great" ||
          JS.includes message "awesome" || JS.includes message "excited" then excited
  else if (85 <=? healthScore)%Z then happy
  else if (70 <=? healthScore)%Z then calm
  else if (50 <=? healthScore)%Z then concerned
  else if (healthScore <? 50)%Z then sad
  else neutral.

(** The emotion [speak(text, healthScore, stressCategory, userMessage)]
    works with: [healthScore || 75] and [stressCategory || 'HEALTHY']. *)
Definition speakEmotion (healthScore : option Z) (stressCategory : option string)
    (userMessage : option string) : Emotion :=
  determineEmotion
    (match healthScore with
     | Some h => if (h =? 0)%Z then 75%Z else h
     | None => 75%Z
     end)
    (match stressCategory with
     | Some c => JS.or_else c "HEALTHY"
     | None => "HEALTHY"%string
     end)
    userMessage.

(** [PLANTBUDDY_VOICES.find(v => v.name === voiceName)]. *)
Definition findVoice (voiceName : string) : option PersonalityVoice :=
  List.find (fun v => String.eqb (name v) voiceName) PLANTBUDDY_VOICES.

(** [setVoice(voiceName)] on [currentVoice]. *)
Definition setVoice (voiceName : string) (currentVoice : PersonalityVoice) : PersonalityVoice :=
  match findVoice voiceName with
  | Some voice => voice
  | None => currentVoice
  end.

(** The initial [currentVoice], [PLANTBUDDY_VOICES[0]]. *)
Definition defaultVoice : PersonalityVoice := friendlyCompanion.

End GoogleTTS.

(** ** What an engine is driven toward *)

Module BioSynthTargets.
Import BioSynth.

(** The targets scheduled last on the master gain, on the frequency of an
    oscillator, on the cutoff of the filter and on the vibrato depth. *)
Definition lastTarget (p : AudioParam) : option Q := target <$> drivenToward p.

Definition amplitudeTarget (e : Engine) : option Q := masterGain e ≫= lastTarget.

Definition pitchTarget (o : option OscillatorNode) : option Q :=
  o ≫= fun osc => lastTarget (frequency osc).

Definition cutoffTarget (e : Engine) : option Q :=
  filter e ≫= fun f => lastTarget (cutoff f).

Definition vibratoTarget (e : Engine) : option Q := lfoGain e ≫= lastTarget.

End BioSynthTargets.

(** ** More of the device monitor and of the simulator *)

Module SerialMonitor.

(** The [setRawSerialBuffer] updater of [parseSerialLine] and of the
    simulation loop: append, then keep the last 8 lines. *)
Definition pushSerialLine (line : string) (prev : list string) : list string :=
  let n := prev ++ [line] in
  if (8 <? length n)%nat then drop (length n - 8) n else n.

(** Lines received one after the other. *)
Definition pushAll (lines prev : list string) : list string :=
  fold_left (fun buffer line => pushSerialLine line buffer) lines prev.

End SerialMonitor.

Module TouchTrace.
Import DeviceMonitor.

(** The handlers called over a run, in order. *)
Definition fired (es : list (option TouchEdge)) : list TouchEdge := omap id es.

(** Starts and ends take turns; [startNext] tells which one is due. *)
Fixpoint alternating (startNext : bool) (l : list TouchEdge) : Prop :=
  match l with
  | [] => True
  | TouchStart :: rest => startNext = true /\ alternating false rest
  | TouchEnd :: rest => startNext = false /\ alternating true rest
  end.

Definition isStart (e : TouchEdge) : bool :=
  match e with TouchStart => true | TouchEnd => false end.

Definition starts (l : list TouchEdge) : nat := length (List.filter isStart l).
Definition ends (l : list TouchEdge) : nat := length (List.filter (fun e => negb (isStart e)) l).

(** A tick on which a touch start would schedule an interaction. *)
Definition schedules (k : Tick) : bool := tickRecording k && negb (tickProcessing k).

Definition ambientOf (ev : Event) : Ambient :=
  match ev with
  | Call a _ _ _ => a
  | Settle a _ _ => a
  end.

End TouchTrace.

Module PlantHealthCare.
Import PlantHealthSimulator.

(** [water(amount = 20)]. *)
Definition water (amount : option Q) (sim : Simulator) : Simulator :=
  let amount := default 20 amount in
  let s := state sim in
  {| deviceId := deviceId sim; plantType := plantType sim; location := location sim;
     state :=
       {| temperature := temperature s; humidity := humidity s; light := light s;
          moisture := JS.Math_min 100 (moisture s + amount);
          soilTemp := soilTemp s;
          waterTank := JS.Math_max 0 (waterTank s - amount * 0.1);
          capacitance := capacitance s; touchEvents := touchEvents s;
          leafColor := leafColor s; growthIndex := growthIndex s;
          moistureTrend := 1%Z; tempTrend := tempTrend s |} |}.

(** A draw of [Math.random()] lies in [0, 1). *)
Definition unitDraw (r : Q) : Prop := 0 <= r /\ r < 1.

(** What the simulator keeps of its soil and vitality state. *)
Definition healthyRanges (s : State) : Prop :=
  0 <= moisture s <= 100 /\ 0 <= waterTank s /\
  0.5 <= leafColor s <= 1 /\ growthIndex s <= 1.2.

(** The simulator after a series of readings. *)
Fixpoint afterReadings (inputs : list (option Q * Entropy)) (sim : Simulator) : Simulator :=
  match inputs with
  | [] => sim
  | (c, en) :: rest => afterReadings rest (fst (generateReading c en sim))
  end.

End PlantHealthCare.

(** * Properties *)

(** ** Comparisons of the JavaScript layer *)

Module JSFacts.

Lemma lt_true (x y : Q) : JS.lt x y = true <-> x < y.
Proof.
  unfold JS.lt. rewrite negb_true_iff. split.
  - intros H. apply Qnot_le_lt. intros Hle.
    apply Qle_bool_iff in Hle. congruence.
  - intros H. destruct (Qle_bool y x) eqn:E; [|reflexivity].
    apply Qle_bool_iff in E. lra.
Qed.

Lemma lt_false (x y : Q) : JS.lt x y = false <-> y <= x.
Proof.
  unfold JS.lt. rewrite negb_false_iff. apply Qle_bool_iff.
Qed.

Lemma le_true (x y : Q) : JS.le x y = true <-> x <= y.
Proof. apply Qle_bool_iff. Qed.

Lemma le_false (x y : Q) : JS.le x y = false <-> y < x.
Proof.
  unfold JS.le. split.
  - intros H. apply Qnot_le_lt. intros Hle.
    apply Qle_bool_iff in Hle. congruence.
  - intros H. destruct (Qle_bool x y) eqn:E; [|reflexivity].
    apply Qle_bool_iff in E. lra.
Qed.

Lemma strict_eq_true (x y : Q) : JS.strict_eq x y = true <-> x == y.
Proof. apply Qeq_bool_iff. Qed.

Lemma strict_eq_false (x y : Q) : JS.strict_eq x y = false <-> ~ x == y.
Proof.
  unfold JS.strict_eq. split.
  - apply Qeq_bool_neq.
  - intros H. destruct (Qeq_bool x y) eqn:E; [|reflexivity].
    apply Qeq_bool_iff in E. contradiction.
Qed.

Lemma max_spec (x y : Q) :
  (x <= y /\ JS.Math_max x y = y) \/ (y < x /\ JS.Math_max x y = x).
Proof.
  unfold JS.Math_max. destruct (Qle_bool x y) eqn:E.
  - left. split; [now apply Qle_bool_iff | reflexivity].
  - right. split; [now apply le_false | reflexivity].
Qed.

Lemma min_spec (x y : Q) :
  (x <= y /\ JS.Math_min x y = x) \/ (y < x /\ JS.Math_min x y = y).
Proof.
  unfold JS.Math_min. destruct (Qle_bool x y) eqn:E.
  - left. split; [now apply Qle_bool_iff | reflexivity].
  - right. split; [now apply le_false | reflexivity].
Qed.

(** Case analysis on a comparison, with the fact it decides. *)
Ltac case_lt x y :=
  let E := fresh "E" in
  destruct (JS.lt x y) eqn:E;
  [apply lt_true in E | apply lt_false in E].

Ltac case_eq0 x :=
  let E := fresh "E" in
  destruct (JS.strict_eq x 0) eqn:E;
  [apply strict_eq_true in E | apply strict_eq_false in E].

End JSFacts.

(** ** Rounding to a double *)

Module Binary64Facts.
Import Binary64.

Lemma pow2_pos (e : Z) : 0 < 2 ^ e.
Proof. apply Qpower_0_lt. reflexivity. Qed.

Lemma pow2_plus (a b : Z) : 2 ^ (a + b) == 2 ^ a * 2 ^ b.
Proof. apply Qpower_plus. discriminate. Qed.

Lemma roundEven_error (q : Q) : Qabs (inject_Z (roundEven q) - q) <= 1 # 2.
Proof.
  unfold roundEven.
  pose proof (Qfloor_le q) as L. pose proof (Qlt_floor q) as U.
  rewrite inject_Z_plus in U. change (inject_Z 1) with 1 in U.
  apply Qabs_Qle_condition.
  destruct (Qcompare (q - inject_Z (Qfloor q)) (1 # 2)) eqn:C.
  - apply Qeq_alt in C. destruct (Z.even (Qfloor q));
      rewrite ?inject_Z_plus; change (inject_Z 1) with 1; lra.
  - apply Qlt_alt in C. lra.
  - apply Qgt_alt in C. rewrite inject_Z_plus. change (inject_Z 1) with 1. lra.
Qed.

Lemma abs_as_fraction (x : Q) :
  Qabs x == inject_Z (Z.abs (Qnum x)) / inject_Z (Zpos (Qden x)).
Proof. destruct x as [n d]. cbn [Qabs Qnum Qden]. apply Qmake_Qdiv. Qed.

Lemma log2_lower (n : Z) : (0 < n)%Z -> 2 ^ Z.log2 n <= inject_Z n.
Proof.
  intros H. destruct (Z.log2_spec n H) as [L _].
  rewrite Zle_Qle in L. rewrite Zpower_Qpower in L by apply Z.log2_nonneg.
  exact L.
Qed.

Lemma log2_upper (n : Z) : (0 < n)%Z -> inject_Z n < 2 ^ (Z.log2 n + 1).
Proof.
  intros H. destruct (Z.log2_spec n H) as [_ U].
  rewrite Zlt_Qlt in U. unfold Z.succ in U.
  rewrite Zpower_Qpower in U by (pose proof (Z.log2_nonneg n); lia).
  exact U.
Qed.

(** [ilog2 x] is the integer part of the binary logarithm of [|x|]. *)
Lemma ilog2_spec (x : Q) : ~ x == 0 -> 2 ^ ilog2 x <= Qabs x < 2 ^ (ilog2 x + 1).
Proof.
  intros Hx. unfold ilog2.
  set (n := Z.abs (Qnum x)). set (d := Zpos (Qden x)).
  assert (Hn : (0 < n)%Z).
  { subst n. destruct x as [[|p|p] q]; cbn; try lia. exfalso. apply Hx. reflexivity. }
  pose proof (log2_lower n Hn) as Ln. pose proof (log2_upper n Hn) as Un.
  pose proof (log2_lower d ltac:(subst d; lia)) as Ld.
  pose proof (log2_upper d ltac:(subst d; lia)) as Ud.
  assert (Hd : 0 < inject_Z d) by (subst d; reflexivity).
  pose proof (pow2_pos (Z.log2 n)) as Pn. pose proof (pow2_pos (Z.log2 d)) as Pd.
  assert (En : 2 ^ (Z.log2 n + 1) == 2 * 2 ^ Z.log2 n)
    by (rewrite pow2_plus; change (2 ^ 1) with 2; ring).
  assert (Ed : 2 ^ (Z.log2 d + 1) == 2 * 2 ^ Z.log2 d)
    by (rewrite pow2_plus; change (2 ^ 1) with 2; ring).
  assert (Ek : 2 ^ (Z.log2 n - Z.log2 d) == 2 ^ Z.log2 n / 2 ^ Z.log2 d).
  { replace (Z.log2 n - Z.log2 d)%Z with (Z.log2 n + - Z.log2 d)%Z by lia.
    rewrite pow2_plus, Qpower_opp. reflexivity. }
  rewrite En in Un. rewrite Ed in Ud.
  set (A := 2 ^ Z.log2 n) in *. set (D := 2 ^ Z.log2 d) in *.
  set (N := inject_Z n) in *. set (Dn := inject_Z d) in *.
  assert (Ex : Qabs x == N / Dn) by apply abs_as_fraction.
  destruct (Qle_bool (2 ^ (Z.log2 n - Z.log2 d)) (Qabs x)) eqn:E.
  - apply Qle_bool_iff in E. split; [exact E|].
    rewrite pow2_plus, Ek, Ex. change (2 ^ 1) with 2.
    apply Qlt_shift_div_r; [exact Hd|].
    assert (E1 : A / D * 2 * Dn == (A * 2 * Dn) / D) by (field; lra).
    rewrite E1. apply Qlt_shift_div_l; [exact Pd|]. nra.
  - assert (E' : Qabs x < 2 ^ (Z.log2 n - Z.log2 d)).
    { apply Qnot_le_lt. intros H. apply Qle_bool_iff in H. congruence. }
    replace (Z.log2 n - Z.log2 d - 1 + 1)%Z with (Z.log2 n - Z.log2 d)%Z by lia.
    split; [|exact E'].
    replace (Z.log2 n - Z.log2 d - 1)%Z with (Z.log2 n - Z.log2 d + -1)%Z by lia.
    rewrite pow2_plus, Ek, Ex. change (2 ^ (-1)) with (1 # 2).
    apply Qle_shift_div_l; [exact Hd|].
    assert (E1 : A / D * (1 # 2) * Dn == (A * Dn) / (2 * D)) by (field; lra).
    rewrite E1. apply Qle_shift_div_r; [lra|]. nra.
Qed.

(** The standard model of rounding: a relative error of at most [2^-53],
    or an absolute one of at most [2^-1075] among the subnormals. *)
Lemma fl_error (x : Q) : Qabs (fl x - x) <= u * Qabs x + eta.
Proof.
  unfold fl. destruct (Qeq_bool x 0) eqn:E0.
  - apply Qeq_bool_iff in E0. rewrite E0. vm_compute. discriminate.
  - apply Qeq_bool_neq in E0.
    set (e := Z.max (ilog2 x - 52) (-1074)).
    pose proof (pow2_pos e) as P.
    pose proof (roundEven_error (x / 2 ^ e)) as R.
    set (m := inject_Z (roundEven (x / 2 ^ e))) in *.
    assert (E : m * 2 ^ e - x == (m - x / 2 ^ e) * 2 ^ e) by (field; lra).
    rewrite E, Qabs_Qmult, (Qabs_pos (2 ^ e)) by lra.
    assert (H1 : Qabs (m - x / 2 ^ e) * 2 ^ e <= (1 # 2) * 2 ^ e) by nra.
    assert (H2 : (1 # 2) * 2 ^ e <= u * Qabs x + eta).
    { pose proof (Qabs_nonneg x) as Ax.
      destruct (Z.max_spec (ilog2 x - 52) (-1074)) as [[_ Em] | [_ Em]];
        fold e in Em; rewrite Em.
      - change ((1 # 2) * 2 ^ (-1074)) with eta.
        assert (0 <= u * Qabs x) by (unfold u; nra). lra.
      - replace (ilog2 x - 52)%Z with (ilog2 x + -52)%Z by lia.
        rewrite pow2_plus. destruct (ilog2_spec x E0) as [L _].
        change (2 ^ (-52)) with (1 # 4503599627370496).
        assert (0 <= eta) by (vm_compute; discriminate).
        unfold u. lra. }
    lra.
Qed.

(** The same, without the subnormal bound. *)
Lemma fl_close (x : Q) : Qabs (fl x - x) <= u * (Qabs x + 1).
Proof.
  pose proof (fl_error x) as H.
  assert (eta <= u) by (vm_compute; discriminate).
  lra.
Qed.

Lemma abs_bounds (x : Q) : - Qabs x <= x <= Qabs x.
Proof. apply Qabs_Qle_condition. apply Qle_refl. Qed.

Lemma fl_between (x : Q) : x - u * (Qabs x + 1) <= fl x <= x + u * (Qabs x + 1).
Proof.
  pose proof (fl_close x) as H. apply Qabs_Qle_condition in H. lra.
Qed.

Lemma abs_cases (x : Q) : (0 <= x /\ Qabs x == x) \/ (x <= 0 /\ Qabs x == - x).
Proof.
  destruct (Qlt_le_dec x 0) as [H|H].
  - right. split; [lra | apply Qabs_neg; lra].
  - left. split; [exact H | now apply Qabs_pos].
Qed.

(** Replaces a rounded literal by its value. *)
Ltac literal x :=
  let v := eval vm_compute in (fl x) in change (fl x) with v.

(** What the smoothing computes differs from [0.99 b + 0.01 r] by a few
    roundings. *)
Lemma smoothing_error (b r : Q) :
  Qabs (add (mul b (fl 0.99)) (mul r (fl 0.01)) - (0.99 * b + 0.01 * r))
    <= (1 # 2251799813685248) * (Qabs b + Qabs r + 1).
Proof.
  unfold add, mul. literal 0.99. literal 0.01.
  set (c1 := _ # _). set (c2 := _ # _).
  pose proof (fl_between (b * c1)) as H1.
  pose proof (fl_between (r * c2)) as H2.
  pose proof (fl_between (fl (b * c1) + fl (r * c2))) as H3.
  rewrite Qabs_Qmult, (Qabs_pos c1) in H1 by (vm_compute; discriminate).
  rewrite Qabs_Qmult, (Qabs_pos c2) in H2 by (vm_compute; discriminate).
  pose proof (abs_bounds b) as Bb. pose proof (abs_bounds r) as Br.
  set (p1 := fl (b * c1)) in *. set (p2 := fl (r * c2)) in *.
  assert (HS : Qabs (p1 + p2) <= 2 * (Qabs b + Qabs r) + 1).
  { apply Qabs_Qle_condition. subst c1 c2. unfold u in *. lra. }
  set (s := fl (p1 + p2)) in *.
  apply Qabs_Qle_condition. subst c1 c2. unfold u in *. lra.
Qed.

(** The classic: in doubles [0.1 + 0.2] is not [0.3]. *)
Example tenth_plus_fifth : ~ add (fl 0.1) (fl 0.2) == fl 0.3.
Proof. vm_compute. discriminate. Qed.

End Binary64Facts.

(** ** Calibration and deviation *)

Module CalibrationFacts.
Import DeviceMonitor JSFacts.

Section Tick.

Variable interactionMode : InteractionMode.
Variables soundThreshold masterVolume : Q.

Local Abbreviation tick := (syncTick interactionMode soundThreshold masterVolume).

(** The branch structure of the baseline update. *)
Lemma autoCalibrate_cases (h : HardwareState) :
  let r := raw h in
  let b := baseline h in
  (b == 0 /\ 0 < r /\ autoCalibrate h = withBaseline r h) \/
  (~ (b == 0 /\ 0 < r) /\ 0 < r /\ Qabs (r - b) < 10 /\
   autoCalibrate h = withBaseline (b * 0.99 + r * 0.01) h) \/
  (~ (b == 0 /\ 0 < r) /\ ~ (0 < r /\ Qabs (r - b) < 10) /\ autoCalibrate h = h).
Proof.
  cbv zeta. unfold autoCalibrate, JS.Math_abs.
  case_eq0 (baseline h); case_lt 0 (raw h); cbn [andb].
  - left. auto.
  - right; right. repeat split; [lra | lra].
  - case_lt (Qabs (raw h - baseline h)) 10.
    + right; left. repeat split; tauto || assumption.
    + right; right. repeat split; [tauto | lra].
  - right; right. repeat split; [lra | lra].
Qed.

Lemma tick_raw (m : Monitor) :
  raw (hardwareBufferRef (tick m)) = raw (hardwareBufferRef m).
Proof.
  unfold syncTick, calibrationStep, calculateDeviation, autoCalibrate. cbn.
  repeat (match goal with |- context [if ?c then _ else _] => destruct c end; cbn);
    reflexivity.
Qed.


Lemma tick_value (m : Monitor) :
  value (hardwareBufferRef (tick m)) =
  Qfloor (Qabs (raw (hardwareBufferRef m) - baseline (hardwareBufferRef (tick m)))).
Proof. reflexivity. Qed.

Lemma tick_published (m : Monitor) :
  value (arduinoState (tick m)) = value (hardwareBufferRef (tick m)) /\
  valueRef (tick m) = value (hardwareBufferRef (tick m)).
Proof. split; reflexivity. Qed.


Lemma tick_buffer (m : Monitor) :
  hardwareBufferRef (tick m) = calibrationStep (hardwareBufferRef m).
Proof. reflexivity. Qed.

Lemma iter_tick_buffer (n : nat) (m : Monitor) :
  hardwareBufferRef (Nat.iter n tick m) = Nat.iter n calibrationStep (hardwareBufferRef m).
Proof.
  induction n as [|n IH]; [reflexivity|].
  rewrite !Nat.iter_succ, tick_buffer, IH. reflexivity.
Qed.

Lemma calibrationStep_raw (h : HardwareState) : raw (calibrationStep h) = raw h.
Proof.
  unfold calibrationStep, calculateDeviation.
  destruct (autoCalibrate_cases h) as [(_ & _ & ->) | [(_ & _ & _ & ->) | (_ & _ & ->)]];
    reflexivity.
Qed.

Lemma iter_calibrationStep_raw (n : nat) (h : HardwareState) :
  raw (Nat.iter n calibrationStep h) = raw h.
Proof.
  induction n as [|n IH]; [reflexivity|].
  rewrite Nat.iter_succ, calibrationStep_raw. exact IH.
Qed.

Lemma Qabs_spec (x : Q) : (0 <= x /\ Qabs x == x) \/ (x <= 0 /\ Qabs x == - x).
Proof.
  destruct (Qlt_le_dec x 0) as [H|H].
  - right. split; [lra | apply Qabs_neg; lra].
  - left. split; [exact H | now apply Qabs_pos].
Qed.

(** Splits every absolute value into its two cases, for [lra]. *)
Ltac has_abs_case x :=
  match goal with _ : Qabs x == _ |- _ => idtac end.

Ltac qabs :=
  repeat match goal with
  | |- context [Qabs ?x] =>
    tryif has_abs_case x then fail
    else destruct (Qabs_spec x) as [[? ?] | [? ?]]
  | _ : context [Qabs ?x] |- _ =>
    tryif has_abs_case x then fail
    else destruct (Qabs_spec x) as [[? ?] | [? ?]]
  end.

(** A tick with the deviation at or above 10 leaves the baseline alone,
    unless it is the initialising tick. *)
Lemma frozen_step (h : HardwareState) :
  10 <= Qabs (raw h - baseline h) ->
  ~ (baseline h == 0 /\ 0 < raw h) ->
  baseline (calibrationStep h) = baseline h.
Proof.
  intros Hd Hn. change (baseline (autoCalibrate h) = baseline h).
  destruct (autoCalibrate_cases h) as [(Hb & Hr & _) | [(_ & _ & Hlt & _) | (_ & _ & ->)]].
  - tauto.
  - lra.
  - reflexivity.
Qed.

Lemma sustained_touch (h : HardwareState) (n : nat) :
  raw h == 70 -> baseline h == 45 ->
  baseline (Nat.iter n calibrationStep h) = baseline h /\
  value (Nat.iter (S n) calibrationStep h) = 25%Z.
Proof.
  intros Hr Hb.
  assert (Hbase : forall k, baseline (Nat.iter k calibrationStep h) = baseline h).
  { induction k as [|k IH]; [reflexivity|].
    rewrite Nat.iter_succ, frozen_step.
    - exact IH.
    - rewrite iter_calibrationStep_raw, IH. qabs; lra.
    - rewrite iter_calibrationStep_raw, IH. lra. }
  split; [apply Hbase|].
  pose proof (Hbase (S n)) as HS. rewrite Nat.iter_succ in HS |- *.
  set (hn := Nat.iter n calibrationStep h) in *.
  change (value (calibrationStep hn))
    with (JS.Math_floor (JS.Math_abs (raw hn - baseline (calibrationStep hn)))).
  rewrite HS. unfold hn. rewrite iter_calibrationStep_raw.
  unfold JS.Math_floor, JS.Math_abs.
  assert (E : Qabs (raw h - baseline h) == 25) by (qabs; lra).
  rewrite (Qfloor_comp _ _ E). reflexivity.
Qed.

(** C2 (amended).  A tick on which [|raw - baseline| >= 10] leaves the
    baseline unchanged, except for the initialising tick (stored baseline
    0 and raw above 0).  With raw held at 70 and the baseline at 45, the
    baseline stays where it is and the published deviation is 25 after
    every tick. *)
Theorem baseline_frozen_on_large_deviation (m : Monitor) :
  let r := raw (hardwareBufferRef m) in
  let b := baseline (hardwareBufferRef m) in
  (10 <= Qabs (r - b) -> ~ (b == 0 /\ 0 < r) ->
   baseline (hardwareBufferRef (tick m)) = b) /\
  (r == 70 -> b == 45 ->
   forall n : nat,
     baseline (hardwareBufferRef (Nat.iter n tick m)) = b /\
     value (arduinoState (Nat.iter (S n) tick m)) = 25%Z /\
     valueRef (Nat.iter (S n) tick m) = 25%Z).
Proof.
  cbv zeta. split.
  - intros Hd Hn. rewrite tick_buffer. now apply frozen_step.
  - intros Hr Hb n.
    destruct (sustained_touch (hardwareBufferRef m) n Hr Hb) as [H1 H2].
    rewrite iter_tick_buffer. split; [exact H1|].
    rewrite Nat.iter_succ.
    destruct (tick_published (Nat.iter n tick m)) as [-> ->].
    rewrite tick_buffer, iter_tick_buffer, <- Nat.iter_succ. split; exact H2.
Qed.

End Tick.

(** Closes a goal on concrete numbers by evaluation. *)
Ltac by_compute :=
  vm_compute;
  first [ reflexivity | discriminate | intros; discriminate
        | intros [? ?]; discriminate | tauto ].

(** A monitor whose first sample, 50, has just arrived: the baseline is
    still 0. *)
Example first_sample_state :
  let m := parseSerialLine 50 50 initialMonitor in
  raw (hardwareBufferRef m) == 50 /\ baseline (hardwareBufferRef m) == 0.
Proof. split; by_compute. Qed.

(** C2, as stated, fails on the initialising tick: with baseline 0 and
    raw 50 the deviation is 50, and the tick moves the baseline to 50. *)
Lemma first_sample_moves_baseline :
  let m := parseSerialLine 50 50 initialMonitor in
  10 <= Qabs (raw (hardwareBufferRef m) - baseline (hardwareBufferRef m)) /\
  baseline (hardwareBufferRef (syncTick MUSIC 50 1.5 m)) == 50 /\
  ~ baseline (hardwareBufferRef (syncTick MUSIC 50 1.5 m)) == baseline (hardwareBufferRef m).
Proof. cbv zeta. repeat split; by_compute. Qed.

(** The baseline calibrated at 45, then a touch that holds raw at 70. *)
Lemma baseline_frozen_witness :
  let m := parseSerialLine 70 70 (syncTick MUSIC 50 1.5 (parseSerialLine 45 45 initialMonitor)) in
  baseline (hardwareBufferRef (syncTick MUSIC 50 1.5 m)) = baseline (hardwareBufferRef m) /\
  valueRef (Nat.iter 10 (syncTick MUSIC 50 1.5) m) = 25%Z.
Proof.
  cbv zeta.
  set (m := parseSerialLine 70 70 (syncTick MUSIC 50 1.5 (parseSerialLine 45 45 initialMonitor))).
  destruct (baseline_frozen_on_large_deviation MUSIC 50 1.5 m) as [H1 H2].
  split.
  - apply H1; by_compute.
  - apply (H2 ltac:(by_compute) ltac:(by_compute) 9%nat).
Defined.

End CalibrationFacts.

(** ** Calibration over many ticks, in double arithmetic *)

Module DoubleCalibrationFacts.
Import DeviceMonitor Binary64 Binary64Facts JSFacts.

Local Abbreviation step := DeviceMonitor64.calibrationStep.

(** The branch structure of the baseline update. *)
Lemma step64_cases (h : HardwareState) :
  let r := raw h in
  let b := baseline h in
  (b == 0 /\ 0 < r /\ baseline (step h) = r) \/
  (~ (b == 0 /\ 0 < r) /\ 0 < r /\ Qabs (sub r b) < 10 /\
   baseline (step h) = add (mul b (fl 0.99)) (mul r (fl 0.01))) \/
  (~ (b == 0 /\ 0 < r) /\ ~ (0 < r /\ Qabs (sub r b) < 10) /\ baseline (step h) = b).
Proof.
  cbv zeta.
  change (baseline (step h)) with (baseline (DeviceMonitor64.autoCalibrate h)).
  unfold DeviceMonitor64.autoCalibrate, JS.Math_abs.
  case_eq0 (baseline h); case_lt 0 (raw h); cbn [andb].
  - left. auto.
  - right; right. repeat split; [lra | lra].
  - case_lt (Qabs (sub (raw h) (baseline h))) 10.
    + right; left. repeat split; tauto || assumption.
    + right; right. repeat split; [tauto | lra].
  - right; right. repeat split; [lra | lra].
Qed.

Lemma step64_raw (h : HardwareState) : raw (step h) = raw h.
Proof.
  unfold DeviceMonitor64.calibrationStep, DeviceMonitor64.calculateDeviation,
    DeviceMonitor64.autoCalibrate. cbn.
  repeat (match goal with |- context [if ?c then _ else _] => destruct c end; cbn);
    reflexivity.
Qed.

Lemma iter_step64_raw (n : nat) (h : HardwareState) : raw (Nat.iter n step h) = raw h.
Proof.
  induction n as [|n IH]; [reflexivity|]. rewrite Nat.iter_succ, step64_raw. exact IH.
Qed.

(** When the difference the tick computes is below 10, the true distance
    is at most a rounding above 10. *)
Lemma distance_from_diff (r b : Q) :
  Qabs (sub r b) < 10 -> Qabs (b - r) <= 10 + (1 # 1000000).
Proof.
  intros H. unfold sub in H. apply Qabs_Qlt_condition in H.
  pose proof (fl_between (r - b)) as F.
  rewrite (Qabs_Qminus b r).
  unfold u in F. destruct (abs_cases (r - b)) as [[S E] | [S E]]; rewrite E in *; lra.
Qed.

(** A distance of at most 9.95 passes the test of the tick. *)
Lemma diff_from_distance (r b : Q) :
  Qabs (b - r) <= 995 # 100 -> Qabs (sub r b) < 10.
Proof.
  intros H. unfold sub. apply Qabs_Qlt_condition.
  pose proof (fl_between (r - b)) as F.
  rewrite (Qabs_Qminus b r) in H.
  unfold u in F. destruct (abs_cases (r - b)) as [[S E] | [S E]]; rewrite E in *; lra.
Qed.

(** One smoothing tick: the distance to the reading shrinks by 1%, up to
    the roundings of the three operations. *)
Lemma one_step (h : HardwareState) :
  0 < raw h ->
  Qabs (sub (raw h) (baseline h)) < 10 \/ baseline h == 0 ->
  Qabs (baseline (step h) - raw h)
    <= 0.99 * Qabs (baseline h - raw h)
       + (1 # 2251799813685248) * (Qabs (baseline h) + Qabs (raw h) + 1).
Proof.
  intros Hr Hd.
  pose proof (Qabs_nonneg (baseline h - raw h)) as N0.
  pose proof (Qabs_nonneg (baseline h)) as N1.
  pose proof (Qabs_nonneg (raw h)) as N2.
  destruct (step64_cases h) as [(Hb & _ & ->) | [(_ & _ & _ & ->) | (Hn & Hs & ->)]].
  - assert (E : Qabs (raw h - raw h) == 0) by (rewrite Qabs_pos; lra). rewrite E. lra.
  - pose proof (smoothing_error (baseline h) (raw h)) as S.
    apply Qabs_Qle_condition in S.
    set (b' := add _ _) in *.
    apply Qabs_Qle_condition.
    destruct (abs_cases (baseline h - raw h)) as [[? E] | [? E]]; rewrite E in *; lra.
  - exfalso. destruct Hd as [Hd | Hd]; tauto.
Qed.

(** Without a smoothing the baseline stays, so in every case the distance
    grows by no more than the roundings. *)
Lemma any_step (h : HardwareState) :
  Qabs (baseline (step h) - raw h)
    <= Qabs (baseline h - raw h)
       + (1 # 2251799813685248) * (Qabs (baseline h) + Qabs (raw h) + 1).
Proof.
  pose proof (Qabs_nonneg (baseline h - raw h)) as N0.
  pose proof (Qabs_nonneg (baseline h)) as N1.
  pose proof (Qabs_nonneg (raw h)) as N2.
  destruct (step64_cases h) as [(Hb & Hr & E) | [(_ & Hr & Hd & E) | (_ & _ & ->)]].
  - rewrite E. assert (E0 : Qabs (raw h - raw h) == 0) by (rewrite Qabs_pos; lra).
    rewrite E0. lra.
  - pose proof (one_step h Hr (or_introl Hd)) as S. lra.
  - lra.
Qed.

(** The roundings of a tick on a reading of at most [2^40], from within
    11 of it. *)
Lemma rounding_bound (r b : Q) :
  0 < r -> r <= 2 ^ 40 -> Qabs (b - r) <= 11 ->
  (1 # 2251799813685248) * (Qabs b + Qabs r + 1) <= 1 # 1000.
Proof.
  intros H0 HM Hd. change (2 ^ 40) with 1099511627776 in HM.
  apply Qabs_Qle_condition in Hd.
  rewrite (Qabs_pos r) by lra.
  destruct (abs_cases b) as [[? E] | [? E]]; rewrite E; lra.
Qed.

Lemma first_step (h : HardwareState) :
  0 < raw h -> raw h <= 2 ^ 40 ->
  Qabs (sub (raw h) (baseline h)) < 10 \/ baseline h == 0 ->
  Qabs (baseline (step h) - raw h) <= 995 # 100.
Proof.
  intros H0 HM Hd.
  destruct (step64_cases h) as [(Hb & _ & ->) | [(Hn & _ & Hlt & E) | (Hn & Hs & _)]].
  - assert (E : Qabs (raw h - raw h) == 0) by (rewrite Qabs_pos; lra). rewrite E. lra.
  - pose proof (one_step h H0 (or_introl Hlt)) as S.
    pose proof (distance_from_diff _ _ Hlt) as D.
    pose proof (rounding_bound (raw h) (baseline h) H0 HM ltac:(lra)) as T.
    lra.
  - exfalso. destruct Hd as [Hd | Hd]; tauto.
Qed.

Lemma later_step (h : HardwareState) :
  0 < raw h -> raw h <= 2 ^ 40 ->
  Qabs (baseline h - raw h) <= 995 # 100 ->
  Qabs (baseline (step h) - raw h) <= 995 # 100 /\
  Qabs (baseline (step h) - raw h) <= 0.99 * Qabs (baseline h - raw h) + (1 # 1000).
Proof.
  intros H0 HM Hd.
  pose proof (one_step h H0 (or_introl (diff_from_distance _ _ Hd))) as S.
  pose proof (rounding_bound (raw h) (baseline h) H0 HM ltac:(lra)) as T.
  split; lra.
Qed.

Lemma pow99_step (j : nat) : 0.99 ^ Z.of_nat (S j) == 0.99 * 0.99 ^ Z.of_nat j.
Proof.
  rewrite Nat2Z.inj_succ. unfold Z.succ.
  rewrite Qpower_plus by (intros H; discriminate H).
  change (0.99 ^ 1) with 0.99. ring.
Qed.

Lemma pow99_bounds (j : nat) : 0 <= 0.99 ^ Z.of_nat j /\ 0.99 ^ Z.of_nat j <= 1.
Proof.
  induction j as [|j [IH0 IH1]].
  - split; discriminate.
  - rewrite pow99_step. split; nra.
Qed.

Lemma pow99_500 : 0.99 ^ 500 * 10 < 7 # 100.
Proof. vm_compute. reflexivity. Qed.

Lemma pow99_late (j : nat) : (500 <= j)%nat -> 0.99 ^ Z.of_nat j * 10 < 7 # 100.
Proof.
  intros Hj. replace j with (500 + (j - 500))%nat by lia.
  rewrite Nat2Z.inj_add, Qpower_plus by (intros H; discriminate H).
  change (Z.of_nat 500) with 500%Z.
  pose proof pow99_500 as H500. destruct (pow99_bounds (j - 500)) as [P0 P1].
  assert (C0 : 0 <= 0.99 ^ 500) by (apply Qpower_0_le; discriminate).
  revert H500 C0. generalize (0.99 ^ 500). intros c H500 C0.
  nra.
Qed.

(** From within 9.95 of the reading the distance decays geometrically
    down to a floor of a tenth, which the roundings keep it from
    passing. *)
Lemma geometric_decay (j : nat) (h : HardwareState) :
  0 < raw h -> raw h <= 2 ^ 40 ->
  Qabs (baseline h - raw h) <= 995 # 100 ->
  Qabs (baseline (Nat.iter j step h) - raw h) <= 995 # 100 /\
  Qabs (baseline (Nat.iter j step h) - raw h) <= 0.99 ^ Z.of_nat j * 10 + (1 # 10).
Proof.
  intros H0 HM Hd. induction j as [|j [IH1 IH2]].
  - cbn [Nat.iter nat_rect]. change (0.99 ^ Z.of_nat 0) with 1. split; lra.
  - rewrite Nat.iter_succ, pow99_step.
    pose proof (later_step (Nat.iter j step h)) as L.
    rewrite iter_step64_raw in L. destruct (L H0 HM IH1) as [L1 L2].
    split; [exact L1|]. lra.
Qed.

(** C3 (amended).  In the double arithmetic of the engine, with the raw
    reading held at [R], [0 < R <= 2^40], and a starting baseline that is
    0 or that passes the test of the tick (the difference it computes is
    below 10), the baseline is within 1 unit of [R] after more than 500
    consecutive calibration steps. *)
Theorem baseline_settles (h : HardwareState) (n : nat) :
  let R := raw h in
  let b := baseline h in
  0 < R -> R <= 2 ^ 40 ->
  Qabs (sub R b) < 10 \/ b == 0 ->
  (500 < n)%nat ->
  Qabs (baseline (Nat.iter n step h) - R) < 1.
Proof.
  cbv zeta. intros H0 HM Hb Hn.
  destruct n as [|j]; [lia|].
  rewrite Nat.iter_succ_r.
  pose proof (first_step h H0 HM Hb) as F.
  pose proof (geometric_decay j (step h)) as G.
  rewrite step64_raw in G. destruct (G H0 HM F) as [_ G2].
  pose proof (pow99_late j ltac:(lia)) as P.
  lra.
Qed.

(** The baseline five below a reading of 50: every tick smooths. *)
Lemma baseline_settles_witness :
  Qabs (baseline (Nat.iter 501 step (DeviceMonitor64.reading 50 45)) - 50) < 1.
Proof.
  apply (baseline_settles (DeviceMonitor64.reading 50 45) 501).
  - reflexivity.
  - vm_compute. discriminate.
  - left. vm_compute. reflexivity.
  - lia.
Defined.

Lemma fixed_point (h : HardwareState) (k n : nat) :
  step (Nat.iter k step h) = Nat.iter k step h ->
  (k <= n)%nat -> Nat.iter n step h = Nat.iter k step h.
Proof.
  intros F Hn. induction n as [|n IH].
  - replace k with 0%nat by lia. reflexivity.
  - destruct (decide (k = S n)) as [->|Hk]; [reflexivity|].
    rewrite Nat.iter_succ, IH by lia. exact F.
Qed.

(** C3, as stated, fails on a large reading: at [R = 2^49] the doubles
    are an eighth apart, and from a baseline 9 below [R] the smoothing
    comes to a halt 3.0625 below it, where a hundredth of the distance is
    less than half that spacing.  The baseline stays there for ever. *)
Lemma large_reading_stalls :
  let R := 2 ^ 49 in
  let h := DeviceMonitor64.reading R (R - 9) in
  0 < R /\ Qabs (R - baseline h) < 10 /\
  forall n, (500 < n)%nat ->
    baseline (Nat.iter n step h) - R == - (49 # 16) /\
    ~ Qabs (baseline (Nat.iter n step h) - R) < 1.
Proof.
  cbv zeta. split; [reflexivity|]. split; [vm_compute; reflexivity|].
  intros n Hn.
  rewrite (fixed_point _ 501 n); [| vm_compute; reflexivity | lia].
  split; vm_compute; [reflexivity | discriminate].
Qed.

(** Nor is a distance below 10 enough at small readings: from the
    baseline [2^-60] the difference to a reading of 10 rounds to 10, the
    test of the tick fails, and the baseline never moves. *)
Example distance_just_below_ten_freezes :
  let h := DeviceMonitor64.reading 10 (2 ^ (-60)) in
  Qabs (raw h - baseline h) < 10 /\
  ~ Qabs (sub (raw h) (baseline h)) < 10 /\
  forall n, (0 < n)%nat -> baseline (Nat.iter n step h) = baseline h.
Proof.
  cbv zeta. split; [vm_compute; reflexivity|]. split; [vm_compute; discriminate|].
  intros n Hn.
  rewrite (fixed_point _ 1 n); [reflexivity | vm_compute; reflexivity | lia].
Qed.

End DoubleCalibrationFacts.

(** ** The chart window *)

Module ChartFacts.
Import DeviceMonitor.

Lemma appendChartPoint_length (t : Z) (v : Q) (prev : list ChartPoint) :
  length (appendChartPoint t v prev) =
  if (50 <? length prev)%nat then length prev else S (length prev).
Proof.
  unfold appendChartPoint.
  destruct (50 <? length prev)%nat eqn:E; rewrite length_app; cbn [length].
  - apply Nat.ltb_lt in E. destruct prev; cbn in *; lia.
  - lia.
Qed.

(** The new point goes to the tail; the points kept keep their order. *)
Lemma appendChartPoint_order (t : Z) (v : Q) (prev : list ChartPoint) :
  appendChartPoint t v prev =
  drop (if (50 <? length prev)%nat then 1 else 0) prev ++ [{| time := t; val := v |}].
Proof.
  unfold appendChartPoint. destruct (50 <? length prev)%nat; [|reflexivity].
  destruct prev; reflexivity.
Qed.

Lemma tick_chart mode thr mv (m : Monitor) :
  chartData (syncTick mode thr mv m) =
  appendChartPoint (timeRef m) (raw (hardwareBufferRef (syncTick mode thr mv m))) (chartData m).
Proof. reflexivity. Qed.

(** The window never exceeds 51 points once it holds at most 51. *)
Lemma chart_bounded_51 mode thr mv (m : Monitor) :
  (length (chartData m) <= 51)%nat ->
  (length (chartData (syncTick mode thr mv m)) <= 51)%nat.
Proof.
  intros H. rewrite tick_chart, appendChartPoint_length.
  destruct (50 <? length (chartData m))%nat eqn:E; [lia|].
  apply Nat.ltb_ge in E. lia.
Qed.

(** C9 (what the code does).  The chart starts with the 50 points of
    [INITIAL_DATA]; the test [prev.length > 50] is made before the new
    point is appended, so the first tick already leaves 51 points and the
    window holds 51 points after every tick. *)
Theorem chart_window_holds_51 mode thr mv (n : nat) :
  length (chartData initialMonitor) = 50%nat /\
  length (chartData (Nat.iter (S n) (syncTick mode thr mv) initialMonitor)) = 51%nat.
Proof.
  split; [reflexivity|].
  induction n as [|n IH].
  - reflexivity.
  - rewrite Nat.iter_succ, tick_chart, appendChartPoint_length, IH. reflexivity.
Qed.

End ChartFacts.

(** ** Touch edge detection *)

Module TouchFacts.
Import DeviceMonitor.

Lemma runTicks_app (a b : list Tick) (t : Touch) :
  runTicks (a ++ b) t =
  (fst (runTicks b (fst (runTicks a t))),
   snd (runTicks a t) ++ snd (runTicks b (fst (runTicks a t)))).
Proof.
  revert t. induction a as [|k a IH]; intros t; cbn [runTicks app fst snd].
  - destruct (runTicks b t); reflexivity.
  - destruct (afterRender k t) as [t1 e]. rewrite IH.
    destruct (runTicks a t1) as [t2 es]. reflexivity.
Qed.

(** One render: the latch follows the value, and an edge fires exactly
    when the latch changes. *)
Lemma afterRender_synced (k : Tick) (t : Touch) :
  synced t ->
  let t' := fst (afterRender k t) in
  synced t' /\
  lastDep t' = Some (tickValue k) /\
  isTouchingRef t' = (touchThreshold <? tickValue k)%Z /\
  snd (afterRender k t) =
    match isTouchingRef t, (touchThreshold <? tickValue k)%Z with
    | false, true => Some TouchStart
    | true, false => Some TouchEnd
    | _, _ => None
    end.
Proof.
  unfold synced, afterRender. intros Hs.
  destruct (decide (lastDep t = Some (tickValue k))) as [E|E]; cbn [fst snd].
  - rewrite E in Hs. rewrite Hs, E.
    destruct (touchThreshold <? tickValue k)%Z; auto.
  - unfold triggerInteractions. cbn [isTouchingRef].
    destruct (touchThreshold <? tickValue k)%Z eqn:A, (isTouchingRef t) eqn:B;
      cbn [andb negb fst snd handleTouchStart handleTouchEnd isTouchingRef lastDep];
      rewrite ?A, ?B; auto.
Qed.

Lemma runTicks_synced (ticks : list Tick) (t : Touch) :
  synced t -> synced (fst (runTicks ticks t)).
Proof.
  revert t. induction ticks as [|k ticks IH]; intros t Hs; cbn [runTicks]; [exact Hs|].
  destruct (afterRender_synced k t Hs) as (Hs' & _).
  destruct (afterRender k t) as [t1 e]. specialize (IH t1 Hs').
  destruct (runTicks ticks t1). exact IH.
Qed.

(** After a run, the latch is set exactly when the last tick was above
    the threshold. *)
Lemma runTicks_latch (ticks : list Tick) (t : Touch) :
  synced t ->
  isTouchingRef (fst (runTicks ticks t)) =
  match last ticks with
  | Some k => (touchThreshold <? tickValue k)%Z
  | None => isTouchingRef t
  end.
Proof.
  revert t. induction ticks as [|k ticks IH]; intros t Hs; cbn [runTicks]; [reflexivity|].
  destruct (afterRender_synced k t Hs) as (Hs' & _ & Hl & _).
  destruct (afterRender k t) as [t1 e]. cbn [fst] in *. specialize (IH t1 Hs').
  destruct (runTicks ticks t1) as [t2 es]. cbn [fst] in *. rewrite IH.
  destruct ticks as [|k' ticks]; [exact Hl|].
  change (last (k :: k' :: ticks)) with (last (k' :: ticks)).
  destruct (last (k' :: ticks)) eqn:E; [reflexivity|].
  apply last_None in E. discriminate E.
Qed.

(** Ticks above the threshold while the latch is set fire nothing. *)
Lemma held_touch_silent (hi : list Tick) (t : Touch) :
  synced t -> isTouchingRef t = true -> Forall above hi ->
  snd (runTicks hi t) = repeat None (length hi) /\
  isTouchingRef (fst (runTicks hi t)) = true /\ synced (fst (runTicks hi t)).
Proof.
  revert t. induction hi as [|k hi IH]; intros t Hs Ht Ha; cbn [runTicks].
  - auto.
  - inversion Ha as [|? ? Hk Hrest]; subst.
    destruct (afterRender_synced k t Hs) as (Hs' & _ & Hl & He).
    apply Z.ltb_lt in Hk. rewrite Hk in Hl, He. rewrite Ht in He.
    destruct (afterRender k t) as [t1 e]. cbn [fst snd] in *.
    destruct (IH t1 Hs' Hl Hrest) as (E1 & E2 & E3).
    destruct (runTicks hi t1) as [t2 es]. cbn [fst snd length repeat] in *.
    subst. auto.
Qed.

(** C4.  Over a maximal run [hi] of ticks above the threshold 15,
    preceded by [pre] and ended by the tick [lo] at or below 15, the
    effect fires touch-start at the first tick of the run, nothing at the
    other ticks of the run, and touch-end at [lo]. *)
Theorem single_excursion_single_edges (pre hi : list Tick) (lo : Tick) :
  match last pre with Some k => ~ above k | None => True end ->
  hi <> [] ->
  Forall above hi ->
  ~ above lo ->
  edges (pre ++ hi ++ [lo]) =
  edges pre ++ Some TouchStart :: repeat None (length hi - 1) ++ [Some TouchEnd].
Proof.
  intros Hpre Hne Hhi Hlo. unfold edges.
  assert (S0 : synced initialTouch) by reflexivity.
  rewrite runTicks_app. cbn [snd]. f_equal.
  pose proof (runTicks_synced pre initialTouch S0) as S1.
  pose proof (runTicks_latch pre initialTouch S0) as L1.
  set (t1 := fst (runTicks pre initialTouch)) in *.
  assert (Hoff : isTouchingRef t1 = false).
  { rewrite L1. destruct (last pre) as [k|]; [|reflexivity].
    apply Z.ltb_ge. unfold above in Hpre. lia. }
  destruct hi as [|k hi]; [contradiction|].
  inversion Hhi as [|? ? Hk Hrest]; subst.
  cbn [app runTicks length]. rewrite Nat.sub_succ, Nat.sub_0_r.
  destruct (afterRender_synced k t1 S1) as (S2 & _ & L2 & E2).
  apply Z.ltb_lt in Hk. rewrite Hk in L2, E2. rewrite Hoff in E2.
  destruct (afterRender k t1) as [t2 e]. cbn [fst snd] in *. subst e.
  rewrite runTicks_app.
  destruct (held_touch_silent hi t2 S2 L2 Hrest) as (E3 & L3 & S3).
  rewrite E3. cbn [snd]. f_equal. f_equal.
  set (t3 := fst (runTicks hi t2)) in *.
  cbn [runTicks].
  destruct (afterRender_synced lo t3 S3) as (_ & _ & _ & E4).
  assert (Hl : (touchThreshold <? tickValue lo)%Z = false)
    by (apply Z.ltb_ge; unfold above in Hlo; lia).
  rewrite Hl, L3 in E4.
  destruct (afterRender lo t3) as [t4 e]. cbn [snd] in *. subst e. reflexivity.
Qed.

(** The value 40 repeated for 10 ticks, then 3: one start, one end. *)
Lemma single_excursion_witness :
  let held := {| tickValue := 40; tickRecording := true; tickProcessing := false |} in
  let rest := {| tickValue := 3; tickRecording := true; tickProcessing := false |} in
  edges ([rest] ++ repeat held 10 ++ [rest]) =
  edges [rest] ++ Some TouchStart :: repeat None 9 ++ [Some TouchEnd].
Proof.
  cbv zeta.
  apply (single_excursion_single_edges
           [{| tickValue := 3; tickRecording := true; tickProcessing := false |}]
           (repeat {| tickValue := 40; tickRecording := true; tickProcessing := false |} 10)).
  - cbn. unfold above, touchThreshold. cbn. lia.
  - discriminate.
  - repeat constructor; unfold above, touchThreshold; cbn; lia.
  - unfold above, touchThreshold. cbn. lia.
Defined.

End TouchFacts.

(** ** The audio gate *)

Module BioSynthFacts.
Import BioSynth JSFacts.

Lemma Math_max_Qmax (x y : Q) : JS.Math_max x y == Qmax x y.
Proof.
  destruct (max_spec x y) as [[H ->] | [H ->]].
  - symmetry. now apply Q.max_r.
  - symmetry. apply Q.max_l. lra.
Qed.

Lemma Math_min_Qmin (x y : Q) : JS.Math_min x y == Qmin x y.
Proof.
  destruct (min_spec x y) as [[H ->] | [H ->]].
  - symmetry. now apply Q.min_l.
  - symmetry. apply Q.min_r. lra.
Qed.

(** The normalisation of the code is the clamp to [0, 1]. *)
Lemma normalizedInput_clamp (raw threshold : Q) :
  normalizedInput raw threshold ==
  Qmin 1 (Qmax 0 ((raw - threshold) / Qmax 1 (120 - threshold))).
Proof.
  unfold normalizedInput, inputRange, maxExpected.
  rewrite Math_min_Qmin, Math_max_Qmax.
  apply Q.min_compat; [reflexivity|].
  apply Q.max_compat; [reflexivity|].
  apply Qdiv_comp; [reflexivity|]. apply Math_max_Qmax.
Qed.

Lemma normalizedInput_range (raw threshold : Q) :
  0 <= normalizedInput raw threshold <= 1.
Proof.
  unfold normalizedInput.
  destruct (min_spec 1.0 (JS.Math_max 0 ((raw - threshold) / inputRange threshold)))
    as [[H ->] | [H ->]];
  destruct (max_spec 0 ((raw - threshold) / inputRange threshold)) as [[H' E] | [H' E]];
    rewrite ?E in *; lra.
Qed.

(** The closed gate: only the master gain is touched. *)
Lemma update_closed (raw threshold : Q) (e : Engine) (c : AudioContext)
    (mg : AudioParam) (o1 o2 : OscillatorNode) :
  ctx e = Some c -> masterGain e = Some mg -> osc1 e = Some o1 -> osc2 e = Some o2 ->
  raw <= threshold ->
  update raw threshold e =
  {| ctx := ctx e;
     masterGain := Some (setTargetAtTime 0 (currentTime c) 0.1
                           (cancelScheduledValues (currentTime c) mg));
     osc1 := osc1 e; osc2 := osc2 e; lfo := lfo e; lfoGain := lfoGain e;
     filter := filter e; params := params e; masterVolume := masterVolume e |}.
Proof.
  intros Hc Hm H1 H2 Hle. unfold update. rewrite Hc, Hm, H1, H2.
  apply le_true in Hle. rewrite Hle. reflexivity.
Qed.

(** The open gate: the amplitude scheduled on the master gain. *)
Lemma update_open (raw threshold : Q) (e : Engine) (c : AudioContext)
    (mg : AudioParam) (o1 o2 : OscillatorNode) :
  ctx e = Some c -> masterGain e = Some mg -> osc1 e = Some o1 -> osc2 e = Some o2 ->
  threshold < raw ->
  masterGain (update raw threshold e) =
  Some (setTargetAtTime
          ((minVol + normalizedInput raw threshold * (ampMax (params e) - minVol))
           * masterVolume e)
          (currentTime c) (glide (params e)) mg).
Proof.
  intros Hc Hm H1 H2 Hlt. unfold update. rewrite Hc, Hm, H1, H2.
  apply le_false in Hlt. rewrite Hlt. reflexivity.
Qed.

(** C5.  On an initialized engine: with [raw <= threshold], [update]
    cancels what is scheduled on the master gain, sets its target to 0
    with time constant 0.1 and changes nothing else; with
    [raw > threshold] the target set on the master gain is
    [(minVol + normalized * (ampMax - minVol)) * masterVolume], where
    [normalized] is [(raw - threshold) / max(1, 120 - threshold)] clamped
    to [0, 1].  So [update(10, 50)] drives the amplitude toward 0, and
    [update(90, 50)] toward a value strictly between
    [minVol * masterVolume] and [ampMax * masterVolume]. *)
Theorem update_gate (e : Engine) :
  initialized e ->
  exists (c : AudioContext) (mg : AudioParam),
    ctx e = Some c /\ masterGain e = Some mg /\
    (forall raw threshold, raw <= threshold ->
       update raw threshold e =
       {| ctx := ctx e;
          masterGain := Some (setTargetAtTime 0 (currentTime c) 0.1
                                (cancelScheduledValues (currentTime c) mg));
          osc1 := osc1 e; osc2 := osc2 e; lfo := lfo e; lfoGain := lfoGain e;
          filter := filter e; params := params e; masterVolume := masterVolume e |}) /\
    (forall raw threshold, threshold < raw ->
       exists (mg' : AudioParam) (ev : Automation),
         masterGain (update raw threshold e) = Some mg' /\
         drivenToward mg' = Some ev /\
         startTime ev = currentTime c /\
         timeConstant ev = glide (params e) /\
         target ev ==
           (minVol +
            Qmin 1 (Qmax 0 ((raw - threshold) / Qmax 1 (120 - threshold)))
            * (ampMax (params e) - minVol))
           * masterVolume e) /\
    (exists mg', masterGain (update 10 50 e) = Some mg' /\
                 drivenToward mg' = Some (SetTarget 0 (currentTime c) 0.1)) /\
    (minVol < ampMax (params e) -> 0 < masterVolume e ->
     exists (mg' : AudioParam) (ev : Automation),
       masterGain (update 90 50 e) = Some mg' /\
       drivenToward mg' = Some ev /\
       minVol * masterVolume e < target ev < ampMax (params e) * masterVolume e).
Proof.
  intros ([c Hc] & [mg Hm] & [o1 H1] & [o2 H2] & _).
  exists c, mg. repeat match goal with |- _ /\ _ => split end; try assumption.
  - intros raw threshold Hle. now apply (update_closed raw threshold e c mg o1 o2).
  - intros raw threshold Hlt.
    eexists _, _. split; [now apply (update_open raw threshold e c mg o1 o2)|].
    unfold drivenToward, setTargetAtTime. cbn [timeline].
    split; [apply last_snoc|]. cbn [startTime timeConstant target].
    repeat split. now rewrite normalizedInput_clamp.
  - eexists. rewrite (update_closed 10 50 e c mg o1 o2) by (assumption || (unfold Qle; cbn; lia)).
    cbn [masterGain]. split; [reflexivity|].
    unfold drivenToward, setTargetAtTime. cbn [timeline]. apply last_snoc.
  - intros HA HV.
    eexists _, _. split; [apply (update_open 90 50 e c mg o1 o2); assumption || reflexivity|].
    unfold drivenToward, setTargetAtTime. cbn [timeline].
    split; [apply last_snoc|]. cbn [target].
    assert (E : normalizedInput 90 50 == 4 # 7) by reflexivity.
    rewrite E. unfold minVol in *. nra.
Qed.

(** The engine as the component sets it up: created, volume 1.5,
    initialized on a running context. *)
Lemma update_gate_witness :
  let e := init {| currentTime := 0; state := running |} (setMasterVolume 1.5 create) in
  exists mg' ev,
    masterGain (update 90 50 e) = Some mg' /\ drivenToward mg' = Some ev /\
    minVol * masterVolume e < target ev < ampMax (params e) * masterVolume e.
Proof.
  cbv zeta.
  set (e := init {| currentTime := 0; state := running |} (setMasterVolume 1.5 create)).
  assert (I : initialized e) by (repeat split; eexists; reflexivity).
  destruct (update_gate e I) as (c & mg & _ & _ & _ & _ & _ & H).
  apply H; reflexivity.
Defined.

End BioSynthFacts.

(** ** The interaction controller *)

Module ControllerFacts.
Import DeviceMonitor.


(** A call that passes the guard issues exactly one request. *)
Lemma admitted_call (cl : Closure) (a : Ambient) (text : string) (type : InteractionType)
    (overrideValue : option Z) (c : Controller) :
  renderedProcessing cl = false \/ type = SYSTEM ->
  let c' := processInteraction cl a text type overrideValue c in
  isProcessing c' = true /\
  messages c' = messages c ++ ownTurn text type /\
  exists req, inFlight c' = inFlight c ++ [req] /\
              backend req = backendOf a type (default (ambientValueRef a) overrideValue) /\
              historyForService req = renderedMessages cl.
Proof.
  intros H. unfold processInteraction.
  assert (G : renderedProcessing cl && negb (isSystem type) = false).
  { destruct H as [-> | ->]; [reflexivity|]. apply andb_false_r. }
  rewrite G. cbn [isProcessing messages inFlight]. split; [reflexivity|]. split.
  - unfold ownTurn. destruct (isUser type); [reflexivity|]. now rewrite app_nil_r.
  - eexists. split; [reflexivity|]. split; reflexivity.
Qed.




Lemma settle_fulfilled (a : Ambient) (i : nat) (t : string) (c : Controller) (req : Request) :
  inFlight c !! i = Some req ->
  messages (settle a i (Fulfilled t) c) = messages c ++ [{| role := model; text := t |}] /\
  isProcessing (settle a i (Fulfilled t) c) = false /\
  inFlight (settle a i (Fulfilled t) c) = delete i (inFlight c).
Proof. intros E. unfold settle. rewrite E. repeat split. Qed.

(** The history only grows under calls and settlements. *)
Lemma history_grows (c : Controller) (ev : Event) :
  exists more, messages (step c ev) = messages c ++ more.
Proof.
  destruct ev as [a text type ov | a i outcome]; cbn [step].
  - unfold processInteraction.
    destruct (renderedProcessing (latestRender c) && negb (isSystem type)).
    + exists []. now rewrite app_nil_r.
    + cbn [messages]. destruct (isUser type); eexists; [reflexivity|].
      symmetry. apply app_nil_r.
  - unfold settle. destruct (inFlight c !! i); [|exists []; now rewrite app_nil_r].
    destruct outcome; cbn [messages]; eexists; [reflexivity|].
    symmetry. apply app_nil_r.
Qed.

Lemma history_grows_run (evs : list Event) (c : Controller) :
  exists more, messages (run evs c) = messages c ++ more.
Proof.
  revert c. induction evs as [|ev evs IH]; intros c.
  - exists []. cbn. now rewrite app_nil_r.
  - cbn [run fold_left]. destruct (IH (step c ev)) as [m2 E2].
    destruct (history_grows c ev) as [m1 E1].
    exists (m1 ++ m2). unfold run in E2. rewrite E2, E1. now rewrite app_assoc.
Qed.




(** The two timers a simulated touch sets (300 ms and 500 ms) call the
    function of the render in which the touch began; the second call still
    reads the flag of that render. *)
Example timers_of_one_render :
  let a := {| isRecordingRef := true; ambientValueRef := 60%Z; currentHealthInsight := None;
              interactionMode := TALK; clock := 0%Z |} in
  let cl := latestRender initialController in
  let c1 := processInteraction cl a "Touch" TOUCH (Some 60%Z) initialController in
  isProcessing c1 = true /\
  length (inFlight (processInteraction cl a "Touch" TOUCH (Some 60%Z) c1)) = 2%nat.
Proof. cbv zeta. repeat split. Qed.

End ControllerFacts.

(** ** Failing text generation *)

Module GeminiFacts.
Import GeminiService.

Lemma prefix_append (p rest : string) : String.prefix p (p +:+ rest) = true.
Proof.
  induction p as [|a p IH].
  - now destruct rest.
  - simpl. destruct (ascii_dec a a); [exact IH | contradiction].
Qed.

Lemma finalError_systemText (lastError : option JsError) : systemText (finalError lastError).
Proof.
  unfold systemText, finalError.
  repeat match goal with
         | |- context [if ?c then _ else _] => destruct c
         | |- context [match ?o with Some _ => _ | None => _ end] => destruct o
         end;
    first [ reflexivity | exact (prefix_append "(System: " _) ].
Qed.

Lemma tryModels_fails (gen : string -> SdkOutcome) (models : list string)
    (lastError : option JsError) :
  (forall modelName,
     match gen modelName with SdkText text => text = EmptyString | SdkThrows _ => True end) ->
  exists e, tryModels gen models lastError = inr e.
Proof.
  intros Hf. revert lastError.
  induction models as [|m models IH]; intros lastError; cbn [tryModels].
  - eauto.
  - specialize (Hf m). destruct (gen m) as [text|err].
    + subst text. cbn [JS.truthy]. apply IH.
    + apply IH.
Qed.

Lemma tryBlock_fails (k : KeySources) (r : Remote) (n : nat) :
  generationFails r ->
  tryBlock k r n = Returns keyMissingText \/ exists e, tryBlock k r n = Throws e.
Proof.
  intros Hf. unfold tryBlock. destruct (getApiKey k); [|left; reflexivity].
  destruct (tryModels_fails (generateContent r n)
              (modelsToTry (default [] (listModels r n))) None (Hf n)) as [e ->].
  right. destruct e; eauto.
Qed.

Lemma retryLoop_fails (k : KeySources) (r : Remote) (remaining attempt : nat)
    (lastError : option JsError) :
  generationFails r ->
  retryLoop k r remaining attempt lastError = inl keyMissingText \/
  exists e, retryLoop k r remaining attempt lastError = inr e.
Proof.
  intros Hf. revert attempt lastError.
  induction remaining as [|remaining IH]; intros attempt lastError; cbn [retryLoop].
  - eauto.
  - destruct (tryBlock_fails k r attempt Hf) as [-> | [e ->]]; [now left|].
    destruct (isKeyError _); [eauto|].
    destruct (_ && _); [apply IH | eauto].
Qed.

(** A call none of whose generations succeeds returns a system text. *)
Lemma failing_call_systemText (k : KeySources) (r : Remote) (userMessage : string)
    (touchIntensity : Q) (history : list (string * string)) :
  generationFails r ->
  systemText (generatePlantResponse k r userMessage touchIntensity history).
Proof.
  intros Hf. unfold generatePlantResponse.
  destruct (retryLoop_fails k r (S MAX_RETRIES) 0 None Hf) as [-> | [e ->]].
  - reflexivity.
  - apply finalError_systemText.
Qed.

(** The texts returned for some failures of every attempt. *)
Example invalid_key_text :
  generatePlantResponse demoKeys
    (allFail {| message := "API key not valid. Please pass a valid API key.";
                toString := "Error: API key not valid."; status := Some 400%Z |})
    "hi" 0 [] =
  "(System: Invalid or missing API Key. Please click the Lock icon in the top-right to enter your Google Gemini API Key.)".
Proof. vm_compute. reflexivity. Qed.

Example quota_text :
  generatePlantResponse demoKeys
    (allFail {| message := "Resource exhausted: quota"; toString := "Error"; status := None |})
    "hi" 0 [] =
  "(System: API quota exceeded. Please try again later or check your Gemini API quota.)".
Proof. vm_compute. reflexivity. Qed.

Example network_text :
  generatePlantResponse demoKeys
    (allFail {| message := "Failed to fetch"; toString := "TypeError: Failed to fetch";
                status := None |})
    "hi" 0 [] =
  "(System: API Error (unknown) - Failed to fetch. Please check your API key at https://aistudio.google.com/apikey)".
Proof. vm_compute. reflexivity. Qed.

Example missing_key_text :
  generatePlantResponse
    {| localStorage := ∅; viteKey := None; plainKey := None; defaultKey := EmptyString |}
    (allFail {| message := "unused"; toString := "unused"; status := None |})
    "hi" 0 [] = keyMissingText.
Proof. vm_compute. reflexivity. Qed.

End GeminiFacts.

Module FailureFacts.
Import DeviceMonitor.

Lemma backendOf_route (a : Ambient) (type : InteractionType) (v : Z) :
  if toCompanion a type
  then exists insight, backendOf a type v = Companion insight
  else exists n, backendOf a type v = PlantResponse n.
Proof.
  unfold toCompanion, backendOf.
  destruct (currentHealthInsight a); destruct type; eauto.
Qed.

(** C8 (amended).  A call of [processInteraction] that passes the guard
    while every generation fails (missing or invalid key, quota, network):
    the generation function returns a text instead of throwing, a text
    that starts with "(System: " from [generatePlantResponse], the fixed
    fallback reply from [generateCompanionResponse].  Once the request
    settles with it, the history is the old history, the user's message
    for a [USER] call, and that text as a model turn, and the flag is
    cleared.  If the awaited call rejects instead, the user's message
    stays and the flag is cleared.  No later call or settlement removes
    anything from the history. *)
Theorem failure_surfaces_in_band (k : GeminiService.KeySources) (r : GeminiService.Remote)
    (cl : Closure) (a : Ambient) (text : string) (type : InteractionType)
    (overrideValue : option Z) (c : Controller) :
  GeminiService.generationFails r ->
  renderedProcessing cl = false \/ type = SYSTEM ->
  let c1 := processInteraction cl a text type overrideValue c in
  let i := length (inFlight c) in
  exists req : Request,
    let answer := answerOf k r VertexAIService.ApiThrows req in
    inFlight c1 !! i = Some req /\
    (if toCompanion a type
     then answer = VertexAIService.companionFallback
     else GeminiService.systemText answer) /\
    messages (settle a i (Fulfilled answer) c1) =
      messages c ++ ownTurn text type ++ [{| role := model; text := answer |}] /\
    isProcessing (settle a i (Fulfilled answer) c1) = false /\
    messages (settle a i Rejected c1) = messages c ++ ownTurn text type /\
    isProcessing (settle a i Rejected c1) = false /\
    forall later : list Event,
      exists more,
        messages (run later (settle a i (Fulfilled answer) c1)) =
        messages c ++ ownTurn text type ++ [{| role := model; text := answer |}] ++ more.
Proof.
  intros Hf Hadm. cbv zeta.
  destruct (ControllerFacts.admitted_call cl a text type overrideValue c Hadm)
    as (Hp & Hm & req & Hin & Hb & Hh).
  set (c1 := processInteraction cl a text type overrideValue c) in *.
  assert (Hi : inFlight c1 !! length (inFlight c) = Some req).
  { rewrite Hin. rewrite lookup_app_r by lia. now rewrite Nat.sub_diag. }
  exists req. set (answer := answerOf k r VertexAIService.ApiThrows req).
  split; [exact Hi|]. split.
  { pose proof (backendOf_route a type (default (ambientValueRef a) overrideValue)) as Hr.
    unfold answer, answerOf. rewrite Hb.
    destruct (toCompanion a type); destruct Hr as [x ->].
    - reflexivity.
    - now apply GeminiFacts.failing_call_systemText. }
  destruct (ControllerFacts.settle_fulfilled a (length (inFlight c)) answer c1 req Hi)
    as (S1 & S2 & _).
  rewrite S1, S2, Hm. rewrite <- app_assoc.
  split; [reflexivity|]. split; [reflexivity|].
  assert (R : settle a (length (inFlight c)) Rejected c1 =
              {| isProcessing := false; messages := messages c1;
                 sessionData := sessionData c1;
                 inFlight := delete (length (inFlight c)) (inFlight c1) |}).
  { unfold settle. now rewrite Hi. }
  rewrite R. cbn [messages isProcessing]. rewrite Hm.
  split; [reflexivity|]. split; [reflexivity|].
  intros later.
  destruct (ControllerFacts.history_grows_run later
              (settle a (length (inFlight c)) (Fulfilled answer) c1)) as [more E].
  exists more. rewrite E, S1, Hm. now rewrite <- !app_assoc.
Qed.

(** A user message while every request fails with a network error and no
    health insight is available. *)
Lemma failure_surfaces_witness :
  let down := {| GeminiService.message := "Failed to fetch";
                 GeminiService.toString := "TypeError: Failed to fetch";
                 GeminiService.status := None |} in
  let a := {| isRecordingRef := false; ambientValueRef := 0%Z; currentHealthInsight := None;
              interactionMode := TALK; clock := 0%Z |} in
  let c1 := run [Call a "hello" USER None] initialController in
  exists req : Request,
    let answer := answerOf GeminiService.demoKeys (GeminiService.allFail down)
                    VertexAIService.ApiThrows req in
    inFlight c1 !! 0%nat = Some req /\
    GeminiService.systemText answer /\
    messages (settle a 0 (Fulfilled answer) c1) =
      [{| role := user; text := "hello" |}; {| role := model; text := answer |}].
Proof.
  cbv zeta.
  destruct (failure_surfaces_in_band GeminiService.demoKeys
              (GeminiService.allFail
                 {| GeminiService.message := "Failed to fetch";
                    GeminiService.toString := "TypeError: Failed to fetch";
                    GeminiService.status := None |})
              (latestRender initialController)
              {| isRecordingRef := false; ambientValueRef := 0%Z;
                 currentHealthInsight := None; interactionMode := TALK; clock := 0%Z |}
              "hello" USER None initialController)
    as (req & H1 & H2 & H3 & _).
  - intros n modelName. exact I.
  - left. reflexivity.
  - exists req. cbv zeta. split; [exact H1|]. split; [exact H2 | exact H3].
Defined.

(** C8, as stated, fails on the health-aware path: with a health insight
    available, a [USER] call goes to [generateCompanionResponse], and when
    its request fails the text appended as the model turn is the fallback
    reply, which is not a "(System: ...)" text. *)
Lemma companion_failure_is_not_system_text :
  let insight := {| PlantHealthTypes.health_score := 82%Z;
                    PlantHealthTypes.stress_category := "healthy";
                    PlantHealthTypes.summary := "Doing well";
                    PlantHealthTypes.recommendations := [] |} in
  let down := {| GeminiService.message := "Failed to fetch";
                 GeminiService.toString := "TypeError: Failed to fetch";
                 GeminiService.status := None |} in
  let a := {| isRecordingRef := false; ambientValueRef := 0%Z;
              currentHealthInsight := Some insight;
              interactionMode := TALK; clock := 0%Z |} in
  let c1 := run [Call a "hello" USER None] initialController in
  exists req : Request,
    let answer := answerOf GeminiService.demoKeys (GeminiService.allFail down)
                    VertexAIService.ApiThrows req in
    inFlight c1 = [req] /\
    answer = "I'm here and listening! How are you doing today?"%string /\
    String.prefix "(System: " answer = false /\
    messages (settle a 0 (Fulfilled answer) c1) =
      [{| role := user; text := "hello" |}; {| role := model; text := answer |}].
Proof. cbv zeta. eexists. repeat split. Qed.

End FailureFacts.

(** ** The health analysis window *)

Module WindowFacts.
Import VertexAIService.

Abbreviation event := PlantHealthTypes.PlantSensorEvent.

Lemma add_below (ev : event) (w : list event) :
  (length w < 20)%nat -> addHealthEventToWindow ev w = w ++ [ev].
Proof.
  intros H. unfold addHealthEventToWindow.
  rewrite length_app. cbn [length].
  destruct (20 <? length w + 1)%nat eqn:E; [|reflexivity].
  apply Nat.ltb_lt in E. lia.
Qed.

Lemma add_full (ev : event) (w : list event) :
  length w = 20%nat -> addHealthEventToWindow ev w = List.tl w ++ [ev].
Proof.
  intros H. unfold addHealthEventToWindow.
  rewrite length_app. cbn [length]. rewrite H. cbn.
  destruct w; [discriminate | reflexivity].
Qed.

Lemma add_length (ev : event) (w : list event) :
  (length w <= 20)%nat -> (length (addHealthEventToWindow ev w) <= 20)%nat.
Proof.
  intros H. destruct (decide (length w = 20%nat)) as [E|E].
  - rewrite add_full by exact E. rewrite length_app. cbn [length].
    destruct w; cbn in *; lia.
  - rewrite add_below by lia. rewrite length_app. cbn [length]. lia.
Qed.

Lemma addAll_last (evs w : list event) :
  (length w <= 20)%nat ->
  addAll evs w = drop (length (w ++ evs) - 20) (w ++ evs).
Proof.
  revert w. induction evs as [|ev evs IH]; intros w H.
  - cbn [addAll fold_left]. rewrite app_nil_r.
    replace (length w - 20)%nat with 0%nat by lia. reflexivity.
  - cbn [addAll fold_left]. fold (addAll evs (addHealthEventToWindow ev w)).
    rewrite IH by now apply add_length.
    destruct (decide (length w = 20%nat)) as [E|E].
    + rewrite add_full by exact E.
      destruct w as [|x w']; [discriminate|]. cbn [List.tl].
      replace (length ((w' ++ [ev]) ++ evs) - 20)%nat with (length evs)
        by (rewrite !length_app; cbn [length] in *; lia).
      replace (length ((x :: w') ++ ev :: evs) - 20)%nat with (S (length evs))
        by (rewrite length_app; cbn [length] in *; lia).
      rewrite <- app_assoc. reflexivity.
    + rewrite add_below by lia. rewrite <- app_assoc. reflexivity.
Qed.

(** C7.  A window that holds at most 20 events still does after any
    number of additions: each event is appended at the tail, the head is
    evicted when the window was full, and what is left is the last 20 of
    all the events in their order of arrival. *)
Theorem health_window_keeps_last_20 (w evs : list event) :
  (length w <= 20)%nat ->
  (length (addAll evs w) <= 20)%nat /\
  addAll evs w = drop (length (w ++ evs) - 20) (w ++ evs) /\
  (forall ev, (length w < 20)%nat -> addHealthEventToWindow ev w = w ++ [ev]) /\
  (forall ev, length w = 20%nat -> addHealthEventToWindow ev w = List.tl w ++ [ev]).
Proof.
  intros H. split; [|split; [now apply addAll_last | split]].
  - rewrite addAll_last by exact H. rewrite length_drop. lia.
  - intros ev Hlt. now apply add_below.
  - intros ev Hfull. now apply add_full.
Qed.

(** 25 events pushed into an empty window: the last 20 remain, in order. *)
Lemma health_window_witness :
  let evs := PlantHealthSimulator.touchedReadings 25 in
  length (addAll evs []) = 20%nat /\ addAll evs [] = drop 5 evs.
Proof.
  cbv zeta.
  destruct (health_window_keeps_last_20 [] (PlantHealthSimulator.touchedReadings 25))
    as (H1 & H2 & _).
  - cbn. lia.
  - split; [|exact H2]. rewrite H2. reflexivity.
Defined.

End WindowFacts.

(** ** The touch counter of the simulator *)

Module SimulatorFacts.
Import PlantHealthSimulator.

Lemma updateState_touchEvents (en : Entropy) (s : State) :
  touchEvents (updateState en s) = touchEvents s.
Proof. reflexivity. Qed.

(** One reading from a counter within 0..10: the counter reported is the
    one stored; it stays within 0..10, grows by at most one, and grows only
    on a touch. *)
Lemma generateReading_touch (c : option Q) (en : Entropy) (sim : Simulator) :
  let after := touchEvents (state (fst (generateReading c en sim))) in
  let before := touchEvents (state sim) in
  (0 <= before <= 10)%Z ->
  touchCount (snd (generateReading c en sim)) = after /\
  (0 <= after <= 10)%Z /\
  (after <= before + 1)%Z /\
  ((before < after)%Z ->
   (exists v, c = Some v /\ 20 < v) \/ (c = None /\ 0.95 < rTouch en)).
Proof.
  cbv zeta. intros Hb. unfold generateReading, touchCount. cbn [fst snd state].
  cbn [PlantHealthTypes.vitality PlantHealthTypes.touch_events_last_min].
  destruct c as [v|].
  - destruct (JS.lt 20 v) eqn:E1; destruct (JS.lt 0.7 (rDecay en));
      cbn [withVitality touchEvents capacitance]; rewrite ?updateState_touchEvents;
      (split; [reflexivity|]; split; [lia|]; split; [lia|]; intros H);
      try lia.
    all: left; exists v; split; [reflexivity | now apply JSFacts.lt_true].
  - destruct (JS.lt 0.95 (rTouch en)) eqn:E1; destruct (JS.lt 0.7 (rDecay en));
      cbn [withVitality touchEvents capacitance]; rewrite ?updateState_touchEvents;
      (split; [reflexivity|]; split; [lia|]; split; [lia|]; intros H);
      try lia.
    all: right; split; [reflexivity | now apply JSFacts.lt_true].
Qed.

Lemma readings_bounded (inputs : list (option Q * Entropy)) (sim : Simulator) :
  (0 <= touchEvents (state sim) <= 10)%Z ->
  Forall (fun ev => (0 <= touchCount ev <= 10)%Z) (readings inputs sim).
Proof.
  revert sim. induction inputs as [|[c en] inputs IH]; intros sim H; cbn [readings].
  - constructor.
  - destruct (generateReading_touch c en sim H) as (E & B & _).
    destruct (generateReading c en sim) as [sim' ev]. cbn [fst snd] in *.
    constructor; [lia|]. now apply IH.
Qed.

(** C10.  In every event produced by [generateReading] on a simulator
    built by the constructor, [vitality.touch_events_last_min] is an
    integer between 0 and 10.  From a counter in that range, a reading
    raises it by at most one, never past 10, and only when the capacitance
    passed in exceeds 20 or a simulated touch occurs; the decay step does
    not take it below 0; the value reported is the one stored. *)
Theorem touch_events_within_0_10 :
  (forall deviceId plantType location r1 r2 r3 r4 r5 inputs,
     Forall (fun ev => (0 <= touchCount ev <= 10)%Z)
       (readings inputs (construct deviceId plantType location r1 r2 r3 r4 r5))) /\
  (forall c en sim,
     let after := touchEvents (state (fst (generateReading c en sim))) in
     let before := touchEvents (state sim) in
     (0 <= before <= 10)%Z ->
     touchCount (snd (generateReading c en sim)) = after /\
     (0 <= after <= 10)%Z /\
     (after <= before + 1)%Z /\
     ((before < after)%Z ->
      (exists v, c = Some v /\ 20 < v) \/ (c = None /\ 0.95 < rTouch en))).
Proof.
  split.
  - intros. apply readings_bounded. cbn. lia.
  - exact generateReading_touch.
Qed.

(** A first reading with capacitance 30: the counter goes from 0 to 1. *)
Lemma touch_events_witness :
  touchCount (snd (generateReading (Some 30) (calm 0) monstera)) = 1%Z /\
  Forall (fun ev => (0 <= touchCount ev <= 10)%Z) (touchedReadings 25).
Proof.
  destruct touch_events_within_0_10 as [H1 H2]. split.
  - destruct (H2 (Some 30) (calm 0) monstera) as (E & _); [cbn; lia|].
    rewrite E. reflexivity.
  - apply H1.
Defined.

Example touch_counter_saturates :
  List.map touchCount (touchedReadings 12) = [1; 2; 3; 4; 5; 6; 7; 8; 9; 10; 10; 10]%Z.
Proof. vm_compute. reflexivity. Qed.

End SimulatorFacts.

(** * Further properties *)

(** ** The audio engine beyond the gate *)

Module BioSynthMore.
Import BioSynth BioSynthTargets JSFacts.

Lemma initialized_parts (e : Engine) :
  initialized e ->
  exists c mg o1 o2 lg f,
    ctx e = Some c /\ masterGain e = Some mg /\ osc1 e = Some o1 /\ osc2 e = Some o2 /\
    lfoGain e = Some lg /\ filter e = Some f.
Proof.
  intros ([c Hc] & [mg Hm] & [o1 H1] & [o2 H2] & _ & [lg Hl] & [f Hf]).
  exists c, mg, o1, o2, lg, f. repeat split; assumption.
Qed.

(** The targets of an open gate, in terms of the normalised input. *)
Lemma open_gate_targets (raw threshold : Q) (e : Engine) :
  initialized e -> threshold < raw ->
  let n := normalizedInput raw threshold in
  let p := params e in
  amplitudeTarget (update raw threshold e) =
    Some ((minVol + n * (ampMax p - minVol)) * masterVolume e) /\
  pitchTarget (osc1 (update raw threshold e)) = Some (fmin p + n * (fmax p - fmin p)) /\
  pitchTarget (osc2 (update raw threshold e)) = Some (fmin p + n * (fmax p - fmin p)) /\
  cutoffTarget (update raw threshold e) = Some (800 + n * 3000) /\
  vibratoTarget (update raw threshold e) = Some (vibratoDepth p + n * 2).
Proof.
  intros I Hlt. destruct (initialized_parts e I) as (c & mg & o1 & o2 & lg & f & Hc & Hm & H1 & H2 & Hl & Hf).
  cbv zeta. unfold update. rewrite Hc, Hm, H1, H2, Hl, Hf.
  apply le_false in Hlt. rewrite Hlt.
  unfold amplitudeTarget, pitchTarget, cutoffTarget, vibratoTarget, lastTarget, drivenToward.
  cbn. rewrite !last_snoc. cbn. repeat split.
Qed.

Lemma inputRange_pos (threshold : Q) : 1 <= inputRange threshold.
Proof.
  unfold inputRange. destruct (max_spec 1 (maxExpected - threshold)) as [[H ->] | [H ->]]; lra.
Qed.

Lemma normalizedInput_mono (raw1 raw2 threshold : Q) :
  raw1 <= raw2 -> normalizedInput raw1 threshold <= normalizedInput raw2 threshold.
Proof.
  intros H. unfold normalizedInput.
  pose proof (inputRange_pos threshold) as HR.
  assert (Hdiv : (raw1 - threshold) / inputRange threshold <= (raw2 - threshold) / inputRange threshold).
  { unfold Qdiv. apply Qmult_le_compat_r; [lra|].
    apply Qlt_le_weak, Qinv_lt_0_compat. lra. }
  revert Hdiv.
  generalize ((raw1 - threshold) / inputRange threshold)
             ((raw2 - threshold) / inputRange threshold).
  intros x y Hxy.
  destruct (max_spec 0 x) as [[? ->] | [? ->]];
  destruct (max_spec 0 y) as [[? ->] | [? ->]];
  repeat match goal with
         | |- context [JS.Math_min ?a ?b] =>
           destruct (min_spec a b) as [[? ->] | [? ->]]
         end; lra.
Qed.

Lemma normalizedInput_saturates (raw threshold : Q) :
  inputRange threshold <= raw - threshold -> normalizedInput raw threshold == 1.
Proof.
  intros H. unfold normalizedInput.
  pose proof (inputRange_pos threshold) as HR.
  assert (Hdiv : 1 <= (raw - threshold) / inputRange threshold).
  { apply Qle_shift_div_l; lra. }
  revert Hdiv. generalize ((raw - threshold) / inputRange threshold). intros x Hx.
  destruct (max_spec 0 x) as [[? ->] | [? ->]];
  match goal with
  | |- context [JS.Math_min ?a ?b] => destruct (min_spec a b) as [[? ->] | [? ->]]
  end; lra.
Qed.

(** X1.  [init] builds the whole graph, silent (master gain 0, nothing
    scheduled), and keeps the parameters and the volume; a second [init]
    changes nothing; before [init], [update] changes nothing. *)
Theorem init_builds_once :
  (forall fresh fresh' e, init fresh' (init fresh e) = init fresh e) /\
  (forall fresh e,
     ctx e = None ->
     initialized (init fresh e) /\
     masterGain (init fresh e) = Some {| pvalue := 0; timeline := [] |} /\
     amplitudeTarget (init fresh e) = None /\
     params (init fresh e) = params e /\
     masterVolume (init fresh e) = masterVolume e) /\
  (forall raw threshold e, ctx e = None -> update raw threshold e = e).
Proof.
  split; [|split].
  - intros fresh fresh' e. unfold init. destruct (ctx e) eqn:E; cbn; [|reflexivity].
    now rewrite E.
  - intros fresh e H. unfold init. rewrite H.
    split; [repeat split; eexists; reflexivity|]. repeat split.
  - intros raw threshold e H. unfold update. now rewrite H.
Qed.

(** The engine of a fresh component, initialized once. *)
Lemma init_builds_once_witness :
  initialized (init {| currentTime := 0; state := suspended |} create) /\
  update 90 50 create = create.
Proof.
  destruct init_builds_once as (_ & H2 & H3). split.
  - apply H2. reflexivity.
  - apply H3. reflexivity.
Defined.

(** X2.  With the gate open, every target [update] schedules lies in its
    range: the amplitude between [minVol] and [ampMax] times the master
    volume, the pitch of both oscillators between [fmin] and [fmax], the
    filter cutoff between 800 and 3800, the vibrato depth between its base
    value and two above it. *)
Theorem open_gate_targets_in_range (raw threshold : Q) (e : Engine) :
  initialized e ->
  threshold < raw ->
  minVol <= ampMax (params e) ->
  fmin (params e) <= fmax (params e) ->
  0 <= masterVolume e ->
  exists amp freq cut vib : Q,
    amplitudeTarget (update raw threshold e) = Some amp /\
    pitchTarget (osc1 (update raw threshold e)) = Some freq /\
    pitchTarget (osc2 (update raw threshold e)) = Some freq /\
    cutoffTarget (update raw threshold e) = Some cut /\
    vibratoTarget (update raw threshold e) = Some vib /\
    minVol * masterVolume e <= amp <= ampMax (params e) * masterVolume e /\
    fmin (params e) <= freq <= fmax (params e) /\
    800 <= cut <= 3800 /\
    vibratoDepth (params e) <= vib <= vibratoDepth (params e) + 2.
Proof.
  intros I Hlt HA HF HV.
  destruct (open_gate_targets raw threshold e I Hlt) as (E1 & E2 & E3 & E4 & E5).
  cbv zeta in *. destruct (BioSynthFacts.normalizedInput_range raw threshold) as [N0 N1].
  eexists _, _, _, _.
  split; [exact E1|]. split; [exact E2|]. split; [exact E3|].
  split; [exact E4|]. split; [exact E5|].
  revert N0 N1. generalize (normalizedInput raw threshold). intros n N0 N1.
  unfold minVol in *.
  assert (K : 0 <= n * (ampMax (params e) - 0.2) <= ampMax (params e) - 0.2) by (split; nra).
  revert K. generalize (n * (ampMax (params e) - 0.2)). intros k [K0 K1].
  repeat split; nra.
Qed.

Lemma open_gate_targets_witness :
  let e := init {| currentTime := 0; state := running |} (setMasterVolume 1.5 create) in
  exists amp freq cut vib : Q,
    amplitudeTarget (update 70 50 e) = Some amp /\
    pitchTarget (osc1 (update 70 50 e)) = Some freq /\
    pitchTarget (osc2 (update 70 50 e)) = Some freq /\
    cutoffTarget (update 70 50 e) = Some cut /\
    vibratoTarget (update 70 50 e) = Some vib /\
    minVol * masterVolume e <= amp <= ampMax (params e) * masterVolume e /\
    fmin (params e) <= freq <= fmax (params e) /\
    800 <= cut <= 3800 /\
    vibratoDepth (params e) <= vib <= vibratoDepth (params e) + 2.
Proof.
  cbv zeta. apply open_gate_targets_in_range.
  - repeat split; eexists; reflexivity.
  - reflexivity.
  - discriminate.
  - discriminate.
  - discriminate.
Defined.

(** X3.  A larger raw reading never gives a quieter or lower voice: with
    the gate open, the amplitude and pitch targets grow with [raw]. *)
Theorem louder_with_raw (raw1 raw2 threshold : Q) (e : Engine) :
  initialized e ->
  threshold < raw1 -> raw1 <= raw2 ->
  minVol <= ampMax (params e) ->
  fmin (params e) <= fmax (params e) ->
  0 <= masterVolume e ->
  exists amp1 amp2 freq1 freq2 : Q,
    amplitudeTarget (update raw1 threshold e) = Some amp1 /\
    amplitudeTarget (update raw2 threshold e) = Some amp2 /\
    pitchTarget (osc1 (update raw1 threshold e)) = Some freq1 /\
    pitchTarget (osc1 (update raw2 threshold e)) = Some freq2 /\
    amp1 <= amp2 /\ freq1 <= freq2.
Proof.
  intros I H1 H12 HA HF HV.
  destruct (open_gate_targets raw1 threshold e I H1) as (A1 & F1 & _).
  destruct (open_gate_targets raw2 threshold e I ltac:(lra)) as (A2 & F2 & _).
  cbv zeta in *. eexists _, _, _, _.
  split; [exact A1|]. split; [exact A2|]. split; [exact F1|]. split; [exact F2|].
  pose proof (normalizedInput_mono raw1 raw2 threshold H12) as M.
  destruct (BioSynthFacts.normalizedInput_range raw1 threshold) as [N0 N1].
  revert M N0 N1.
  generalize (normalizedInput raw1 threshold) (normalizedInput raw2 threshold).
  intros n1 n2 M N0 N1. unfold minVol in *. split; [|nra].
  assert (K : n1 * (ampMax (params e) - 0.2) <= n2 * (ampMax (params e) - 0.2)) by nra.
  revert K. generalize (n1 * (ampMax (params e) - 0.2)) (n2 * (ampMax (params e) - 0.2)).
  intros k1 k2 K. nra.
Qed.

Lemma louder_with_raw_witness :
  let e := init {| currentTime := 0; state := running |} (setMasterVolume 1.5 create) in
  exists amp1 amp2 freq1 freq2 : Q,
    amplitudeTarget (update 60 50 e) = Some amp1 /\
    amplitudeTarget (update 90 50 e) = Some amp2 /\
    pitchTarget (osc1 (update 60 50 e)) = Some freq1 /\
    pitchTarget (osc1 (update 90 50 e)) = Some freq2 /\
    amp1 <= amp2 /\ freq1 <= freq2.
Proof.
  cbv zeta. apply louder_with_raw.
  - repeat split; eexists; reflexivity.
  - reflexivity.
  - discriminate.
  - discriminate.
  - discriminate.
  - discriminate.
Defined.

(** X4.  The input range is never below 1, so the normalisation never
    divides by zero; from [threshold + max(1, 120 - threshold)] on, the
    voice is at full amplitude and at [fmax]. *)
Theorem full_voice_at_saturation (raw threshold : Q) (e : Engine) :
  initialized e ->
  Qmax 1 (120 - threshold) <= raw - threshold ->
  1 <= inputRange threshold /\
  exists amp freq : Q,
    amplitudeTarget (update raw threshold e) = Some amp /\
    pitchTarget (osc1 (update raw threshold e)) = Some freq /\
    amp == ampMax (params e) * masterVolume e /\
    freq == fmax (params e).
Proof.
  intros I H. split; [apply inputRange_pos|].
  assert (HR : inputRange threshold <= raw - threshold).
  { unfold inputRange, maxExpected. rewrite BioSynthFacts.Math_max_Qmax. exact H. }
  pose proof (inputRange_pos threshold) as HP.
  destruct (open_gate_targets raw threshold e I ltac:(lra)) as (A & F & _).
  cbv zeta in *. eexists _, _. split; [exact A|]. split; [exact F|].
  rewrite (normalizedInput_saturates raw threshold HR). split; ring.
Qed.

Lemma full_voice_witness :
  let e := init {| currentTime := 0; state := running |} (setMasterVolume 1.5 create) in
  exists amp freq : Q,
    amplitudeTarget (update 130 50 e) = Some amp /\
    pitchTarget (osc1 (update 130 50 e)) = Some freq /\
    amp == 2.25 /\ freq == 1000.
Proof.
  cbv zeta.
  destruct (full_voice_at_saturation 130 50
              (init {| currentTime := 0; state := running |} (setMasterVolume 1.5 create)))
    as (_ & amp & freq & A & F & EA & EF).
  - repeat split; eexists; reflexivity.
  - discriminate.
  - exists amp, freq. repeat split; assumption.
Defined.

(** X5.  [suspend] followed by [resume] gives back a running engine as it
    was; once the context is closed by [destroy], neither changes it; and
    [update] never touches the context, the parameters, the volume or the
    vibrato oscillator. *)
Theorem context_lifecycle :
  (forall e c, ctx e = Some c -> state c = running -> resume (suspend e) = e) /\
  (forall e, resume (destroy e) = destroy e /\ suspend (destroy e) = destroy e) /\
  (forall raw threshold e,
     ctx (update raw threshold e) = ctx e /\
     params (update raw threshold e) = params e /\
     masterVolume (update raw threshold e) = masterVolume e /\
     lfo (update raw threshold e) = lfo e).
Proof.
  split; [|split].
  - intros e c Hc Hs. destruct e as [ctx0 mg o1 o2 l lg f p mv]. cbn in Hc. subst ctx0.
    destruct c as [t st]. cbn in Hs. subst st. reflexivity.
  - intros e. destruct e as [[[t st]|] mg o1 o2 l lg f p mv]; split; reflexivity.
  - intros raw threshold e. destruct e as [c mg o1 o2 l lg f p mv]. unfold update.
    cbn [ctx masterGain osc1 osc2].
    destruct c, mg, o1, o2; try (repeat split; reflexivity).
    destruct (JS.le raw threshold); repeat split; reflexivity.
Qed.

Lemma context_lifecycle_witness :
  let e := init {| currentTime := 0; state := running |} create in
  resume (suspend e) = e.
Proof.
  cbv zeta. destruct context_lifecycle as (H & _).
  apply (H _ {| currentTime := 0; state := running |}); reflexivity.
Defined.

End BioSynthMore.

(** ** The sampling tick beyond the baseline branches *)

Module CalibrationMore.
Import DeviceMonitor JSFacts.

Section Tick.

Variable interactionMode : InteractionMode.
Variables soundThreshold masterVolume : Q.

Local Abbreviation tick := (syncTick interactionMode soundThreshold masterVolume).

Lemma step_cases (h : HardwareState) :
  let r := raw h in
  let b := baseline h in
  let b' := baseline (calibrationStep h) in
  (b == 0 /\ 0 < r /\ b' = r) \/
  (0 < r /\ Qabs (r - b) < 10 /\ b' = b * 0.99 + r * 0.01) \/
  b' = b.
Proof.
  cbv zeta. change (baseline (calibrationStep h)) with (baseline (autoCalibrate h)).
  unfold autoCalibrate, JS.Math_abs.
  destruct (JS.strict_eq (baseline h) 0) eqn:E0; destruct (JS.lt 0 (raw h)) eqn:E1;
    cbn [andb].
  - left. apply strict_eq_true in E0. apply lt_true in E1. auto.
  - right; right. reflexivity.
  - destruct (JS.lt (Qabs (raw h - baseline h)) 10) eqn:E2.
    + right; left. apply lt_true in E1. apply lt_true in E2. auto.
    + right; right. reflexivity.
  - right; right. reflexivity.
Qed.

Lemma step_raw (h : HardwareState) : raw (calibrationStep h) = raw h.
Proof.
  unfold calibrationStep, calculateDeviation, autoCalibrate. cbn.
  repeat (match goal with |- context [if ?c then _ else _] => destruct c end; cbn);
    reflexivity.
Qed.

Lemma iter_step_raw (n : nat) (h : HardwareState) :
  raw (Nat.iter n calibrationStep h) = raw h.
Proof.
  induction n as [|n IH]; [reflexivity|]. rewrite Nat.iter_succ, step_raw. exact IH.
Qed.

Lemma iter_tick (n : nat) (m : Monitor) :
  hardwareBufferRef (Nat.iter n tick m) = Nat.iter n calibrationStep (hardwareBufferRef m).
Proof.
  induction n as [|n IH]; [reflexivity|]. rewrite !Nat.iter_succ. cbn. now rewrite IH.
Qed.


(** X8.  While raw is zero or negative no branch of the calibration
    applies: the baseline stays where it is, tick after tick. *)
Theorem no_baseline_without_signal (m : Monitor) (n : nat) :
  raw (hardwareBufferRef m) <= 0 ->
  baseline (hardwareBufferRef (Nat.iter n tick m)) = baseline (hardwareBufferRef m).
Proof.
  intros H. rewrite iter_tick.
  induction n as [|n IH]; [reflexivity|].
  rewrite Nat.iter_succ.
  set (h := Nat.iter n calibrationStep (hardwareBufferRef m)) in *.
  assert (R : raw h <= 0) by (unfold h; now rewrite iter_step_raw).
  destruct (step_cases h) as [(_ & R' & _) | [(R' & _) | ->]]; [lra | lra | exact IH].
Qed.

(** X9.  The tick counter counts ticks, and the point a tick appends to
    the chart carries the counter before the tick and the raw reading. *)
Theorem chart_follows_ticks (m : Monitor) (n : nat) :
  timeRef (Nat.iter n tick m) = (timeRef m + Z.of_nat n)%Z /\
  last (chartData (Nat.iter (S n) tick m)) =
    Some {| time := (timeRef m + Z.of_nat n)%Z; val := raw (hardwareBufferRef m) |}.
Proof.
  assert (T : forall k, timeRef (Nat.iter k tick m) = (timeRef m + Z.of_nat k)%Z).
  { induction k as [|k IH]; [cbn; lia|].
    rewrite Nat.iter_succ. cbn [syncTick timeRef]. rewrite IH. lia. }
  split; [apply T|].
  rewrite Nat.iter_succ. cbn [syncTick chartData]. unfold appendChartPoint.
  rewrite last_snoc, T. do 2 f_equal.
  change (raw (calibrationStep (hardwareBufferRef (Nat.iter n tick m)))
          = raw (hardwareBufferRef m)).
  now rewrite step_raw, iter_tick, iter_step_raw.
Qed.

End Tick.

(** No sample has arrived yet. *)
Lemma no_baseline_witness :
  baseline (hardwareBufferRef (Nat.iter 100 (syncTick MUSIC 50 1.5) initialMonitor)) = 0.
Proof.
  apply (no_baseline_without_signal MUSIC 50 1.5 initialMonitor 100). discriminate.
Defined.

(** X7.  In the double arithmetic of the engine a tick moves the
    baseline toward the raw reading up to rounding only.  Whatever branch
    it takes, the distance between them grows by no more than
    [2^-51 (|baseline| + |raw| + 1)]; when it smooths, the new distance is
    at most 0.99 times the old one plus that much.  The rounding is real:
    with raw and baseline both at 48 the tick moves the baseline away, to
    [48 - 2^-47]. *)
Theorem baseline_moves_toward_raw_up_to_rounding (h : HardwareState) :
  let r := raw h in
  let b := baseline h in
  let b' := baseline (DeviceMonitor64.calibrationStep h) in
  let rounding := (1 # 2251799813685248) * (Qabs b + Qabs r + 1) in
  Qabs (b' - r) <= Qabs (b - r) + rounding /\
  (0 < r -> Qabs (Binary64.sub r b) < 10 \/ b == 0 ->
   Qabs (b' - r) <= 0.99 * Qabs (b - r) + rounding) /\
  baseline (DeviceMonitor64.calibrationStep (DeviceMonitor64.reading 48 48))
    == 48 - (1 # 140737488355328).
Proof.
  cbv zeta. split; [|split].
  - apply DoubleCalibrationFacts.any_step.
  - intros Hr Hd. now apply DoubleCalibrationFacts.one_step.
  - vm_compute. reflexivity.
Qed.

End CalibrationMore.

(** ** The serial monitor buffer *)

Module SerialFacts.
Import SerialMonitor.

Lemma push_last8 (line : string) (prev : list string) :
  pushSerialLine line prev = drop (length (prev ++ [line]) - 8) (prev ++ [line]).
Proof.
  unfold pushSerialLine. destruct (8 <? length (prev ++ [line]))%nat eqn:E; [reflexivity|].
  apply Nat.ltb_ge in E. replace (length (prev ++ [line]) - 8)%nat with 0%nat by lia.
  reflexivity.
Qed.

(** X10.  Whatever the buffer held, after one more line it holds at most
    8 lines, the last 8 of the old lines and the new one; after any
    non-empty series of lines it holds the last 8 of them all, in order of
    arrival. *)
Theorem serial_buffer_keeps_last_8 (lines prev : list string) :
  lines <> [] ->
  pushAll lines prev = drop (length (prev ++ lines) - 8) (prev ++ lines) /\
  (length (pushAll lines prev) <= 8)%nat.
Proof.
  intros Hne.
  assert (E : pushAll lines prev = drop (length (prev ++ lines) - 8) (prev ++ lines)).
  { induction lines as [|line lines IH] using rev_ind; [contradiction|].
    unfold pushAll in *. rewrite fold_left_app. cbn [fold_left].
    destruct lines as [|l0 lines'].
    - cbn [fold_left]. apply push_last8.
    - rewrite IH by discriminate. rewrite push_last8.
      set (all := prev ++ l0 :: lines') in *.
      rewrite app_assoc. fold all.
      rewrite length_app, length_drop. cbn [length].
      rewrite <- (drop_app_le all [line]) by lia.
      rewrite drop_drop. f_equal. rewrite length_app. cbn [length]. lia. }
  split; [exact E|]. rewrite E, length_drop. lia.
Qed.

Lemma serial_buffer_witness :
  pushAll ["c"; "d"]%string ["1"; "2"; "3"; "4"; "5"; "6"; "7"; "8"; "9"; "a"; "b"]%string =
  ["6"; "7"; "8"; "9"; "a"; "b"; "c"; "d"]%string.
Proof.
  refine (proj1 (serial_buffer_keeps_last_8 _ _ _)). discriminate.
Defined.

End SerialFacts.

(** ** The touch latch over whole runs *)

Module TouchMore.
Import DeviceMonitor TouchTrace.

Lemma afterRender_scheduled (k : Tick) (t : Touch) :
  scheduled (fst (afterRender k t)) = scheduled t \/
  (snd (afterRender k t) = Some TouchStart /\ schedules k = true /\
   scheduled (fst (afterRender k t)) = scheduled t ++ [500%Z]).
Proof.
  unfold afterRender, triggerInteractions, schedules.
  destruct (decide (lastDep t = Some (tickValue k))); [now left|].
  cbn [isTouchingRef].
  destruct ((touchThreshold <? tickValue k)%Z && negb (isTouchingRef t)).
  - cbn [fst snd handleTouchStart scheduled].
    destruct (tickRecording k && negb (tickProcessing k)); [right | left]; auto.
  - destruct (negb (touchThreshold <? tickValue k)%Z && isTouchingRef t); now left.
Qed.

(** From a latch that agrees with the last value seen, the handlers take
    turns, the next one due being a start exactly when the latch is
    clear; starts outnumber ends by one exactly while the latch is set. *)
Lemma fired_cons (e : option TouchEdge) (es : list (option TouchEdge)) :
  fired (e :: es) = match e with Some x => x :: fired es | None => fired es end.
Proof. destruct e; reflexivity. Qed.

Lemma starts_cons (e : TouchEdge) (l : list TouchEdge) :
  starts (e :: l) = ((if isStart e then 1 else 0) + starts l)%nat.
Proof. unfold starts. cbn. destruct (isStart e); reflexivity. Qed.

Lemma ends_cons (e : TouchEdge) (l : list TouchEdge) :
  ends (e :: l) = ((if isStart e then 0 else 1) + ends l)%nat.
Proof. unfold ends. cbn. destruct (isStart e); reflexivity. Qed.

Lemma run_alternates (ticks : list Tick) (t : Touch) :
  synced t ->
  let l := fired (snd (runTicks ticks t)) in
  alternating (negb (isTouchingRef t)) l /\
  (starts l + (if isTouchingRef t then 1 else 0) =
   ends l + (if isTouchingRef (fst (runTicks ticks t)) then 1 else 0))%nat.
Proof.
  revert t. induction ticks as [|k ticks IH]; intros t Hs; cbn [runTicks].
  - cbn. split; [exact I | lia].
  - destruct (TouchFacts.afterRender_synced k t Hs) as (Hs' & _ & Hl & He).
    destruct (afterRender k t) as [t1 e]. cbn [fst snd] in *.
    specialize (IH t1 Hs'). destruct (runTicks ticks t1) as [t2 es].
    cbn [fst snd] in *. cbv zeta in IH. destruct IH as [IHa IHc].
    rewrite fired_cons.
    destruct (isTouchingRef t) eqn:B, (touchThreshold <? tickValue k)%Z eqn:A;
      subst e; rewrite Hl in *; cbn [negb] in *;
      rewrite ?starts_cons, ?ends_cons; cbn [alternating isStart].
    + split; [exact IHa | exact IHc].
    + split; [split; [reflexivity | exact IHa] | lia].
    + split; [split; [reflexivity | exact IHa] | lia].
    + split; [exact IHa | exact IHc].
Qed.

(** X11.  Over any run from the initial latch, the handlers called
    alternate, beginning with a start; there is one more start than ends
    exactly when the latch is left set, which is exactly when the last
    tick was above the threshold. *)
Theorem edges_alternate (ticks : list Tick) :
  let final := fst (runTicks ticks initialTouch) in
  let l := fired (edges ticks) in
  alternating true l /\
  (starts l = ends l + (if isTouchingRef final then 1 else 0))%nat /\
  isTouchingRef final =
    match last ticks with
    | Some k => (touchThreshold <? tickValue k)%Z
    | None => false
    end.
Proof.
  cbv zeta. assert (S0 : synced initialTouch) by reflexivity.
  destruct (run_alternates ticks initialTouch S0) as [A C]. cbn in A, C.
  split; [exact A|]. split; [unfold edges; lia|].
  now rewrite (TouchFacts.runTicks_latch ticks initialTouch S0).
Qed.

Lemma runTicks_scheduled (ticks : list Tick) (t : Touch) :
  exists added : list Z,
    scheduled (fst (runTicks ticks t)) = scheduled t ++ added /\
    Forall (fun d => d = 500%Z) added /\
    (length added <= starts (fired (snd (runTicks ticks t))))%nat /\
    (Forall (fun k => schedules k = false) ticks -> added = []).
Proof.
  revert t. induction ticks as [|k ticks IH]; intros t; cbn [runTicks].
  - exists []. rewrite app_nil_r. repeat split; [constructor | cbn; lia].
  - pose proof (afterRender_scheduled k t) as H.
    destruct (afterRender k t) as [t1 e]. cbn [fst snd] in H.
    destruct (IH t1) as (added & E & F & L & N).
    destruct (runTicks ticks t1) as [t2 es]. cbn [fst snd] in *.
    destruct H as [H | (He & Hk & H)].
    + exists added. rewrite E, H. split; [reflexivity|]. split; [exact F|]. split.
      * rewrite fired_cons. destruct e as [[|]|]; rewrite ?starts_cons; cbn [isStart]; lia.
      * intros Hall. inversion Hall; subst. auto.
    + exists (500%Z :: added). rewrite E, H, <- app_assoc. split; [reflexivity|].
      split; [constructor; [reflexivity | exact F]|]. split.
      * subst e. rewrite fired_cons, starts_cons. cbn [isStart length]. lia.
      * intros Hall. inversion Hall; subst. congruence.
Qed.

(** X12.  A touch start schedules at most one interaction, always 500 ms
    ahead, and only on a tick where the session is recording and no
    interaction is being processed: over a run on which that never holds,
    nothing is scheduled. *)
Theorem touch_scheduling (ticks : list Tick) :
  let final := fst (runTicks ticks initialTouch) in
  Forall (fun d => d = 500%Z) (scheduled final) /\
  (length (scheduled final) <= starts (fired (edges ticks)))%nat /\
  (Forall (fun k => schedules k = false) ticks -> scheduled final = []).
Proof.
  cbv zeta. destruct (runTicks_scheduled ticks initialTouch) as (added & E & F & L & N).
  cbn [scheduled initialTouch app] in E. rewrite E. split; [exact F|].
  split; [exact L|]. exact N.
Qed.

Example two_touches_while_recording :
  let hold := {| tickValue := 40; tickRecording := true; tickProcessing := false |} in
  let rest := {| tickValue := 3; tickRecording := true; tickProcessing := false |} in
  let run := [rest; hold; hold; rest; hold; rest] in
  fired (edges run) = [TouchStart; TouchEnd; TouchStart; TouchEnd] /\
  scheduled (fst (runTicks run initialTouch)) = [500; 500]%Z.
Proof. split; reflexivity. Qed.

End TouchMore.

(** ** The controller beyond the guard *)

Module ControllerMore.
Import DeviceMonitor TouchTrace.

(** X13.  The intensity handed to [generatePlantResponse] always lies
    between 0 and 100: it is twice the deviation, cut off at both ends. *)
Theorem intensity_within_0_100 (a : Ambient) (type : InteractionType) (v : Z) (n : Q) :
  backendOf a type v = PlantResponse n ->
  0 <= n <= 100 /\
  ((0 <= v <= 50)%Z -> n == inject_Z (2 * v)) /\
  ((v <= 0)%Z -> n == 0) /\
  ((50 <= v)%Z -> n == 100).
Proof.
  intros H.
  assert (E : n = JS.Math_min 100 (JS.Math_max 0 (inject_Z v / 50 * 100))).
  { unfold backendOf in H. destruct (currentHealthInsight a), type; congruence. }
  subst n.
  assert (X : inject_Z v / 50 * 100 == 2 * inject_Z v) by field.
  assert (V0 : (0 <= v)%Z -> 0 <= inject_Z v).
  { intros. change 0 with (inject_Z 0). now rewrite <- Zle_Qle. }
  assert (V1 : (v <= 0)%Z -> inject_Z v <= 0).
  { intros. change 0 with (inject_Z 0). now rewrite <- Zle_Qle. }
  assert (V2 : (v <= 50)%Z -> inject_Z v <= 50).
  { intros. change 50 with (inject_Z 50). now rewrite <- Zle_Qle. }
  assert (V3 : (50 <= v)%Z -> 50 <= inject_Z v).
  { intros. change 50 with (inject_Z 50). now rewrite <- Zle_Qle. }
  assert (M : inject_Z (2 * v) == 2 * inject_Z v) by (rewrite inject_Z_mult; reflexivity).
  revert X. generalize (inject_Z v / 50 * 100). intros x X.
  destruct (JSFacts.max_spec 0 x) as [[? ->] | [? ->]];
  match goal with
  | |- context [JS.Math_min ?p ?q] => destruct (JSFacts.min_spec p q) as [[? ->] | [? ->]]
  end;
  (split; [lra|]; split; [intros [? ?]|split; intros ?]);
  try specialize (V0 ltac:(assumption)); try specialize (V1 ltac:(assumption));
  try specialize (V2 ltac:(assumption)); try specialize (V3 ltac:(assumption)); lra.
Qed.

Lemma intensity_witness :
  let a := {| isRecordingRef := true; ambientValueRef := 0%Z; currentHealthInsight := None;
              interactionMode := TALK; clock := 0%Z |} in
  exists n, backendOf a TOUCH 40 = PlantResponse n /\ n == 80.
Proof.
  cbv zeta. eexists. split; [reflexivity|].
  refine (proj1 (proj2 (intensity_within_0_100
                          {| isRecordingRef := true; ambientValueRef := 0%Z;
                             currentHealthInsight := None; interactionMode := TALK;
                             clock := 0%Z |} TOUCH 40 _ eq_refl)) _).
  lia.
Defined.

(** X14.  Any settlement of an outstanding request clears the flag,
    however many requests remain: with two or more in flight, the flag is
    clear while one is still outstanding, and the next user message is
    admitted beside it. *)
Theorem flag_does_not_count (c : Controller) (a a' : Ambient) (i : nat)
    (outcome : Settlement) (text : string) :
  (i < length (inFlight c))%nat ->
  (2 <= length (inFlight c))%nat ->
  let c' := settle a i outcome c in
  isProcessing c' = false /\
  length (inFlight c') = (length (inFlight c) - 1)%nat /\
  length (inFlight (step c' (Call a' text USER None))) = length (inFlight c).
Proof.
  intros Hi H2. cbv zeta.
  destruct (lookup_lt_is_Some_2 (inFlight c) i Hi) as [req Hreq].
  assert (E : isProcessing (settle a i outcome c) = false /\
              inFlight (settle a i outcome c) = delete i (inFlight c)).
  { unfold settle. rewrite Hreq. destruct outcome; split; reflexivity. }
  destruct E as [E1 E2]. split; [exact E1|].
  assert (L : length (inFlight (settle a i outcome c)) = (length (inFlight c) - 1)%nat).
  { rewrite E2, length_delete by eauto. reflexivity. }
  split; [exact L|].
  cbn [step].
  destruct (ControllerFacts.admitted_call (latestRender (settle a i outcome c)) a' text USER
              None (settle a i outcome c)) as (_ & _ & req' & F & _).
  { left. exact E1. }
  rewrite F, length_app, L. cbn [length]. lia.
Qed.

Lemma flag_does_not_count_witness :
  let a := {| isRecordingRef := true; ambientValueRef := 0%Z; currentHealthInsight := None;
              interactionMode := TALK; clock := 0%Z |} in
  let c := run [Call a "hello" USER None;
                Call a "The user has just activated the session. Wake up gently." SYSTEM None]
               initialController in
  isProcessing (settle a 0 (Fulfilled "hi") c) = false /\
  length (inFlight (settle a 0 (Fulfilled "hi") c)) = 1%nat.
Proof.
  cbv zeta.
  match goal with
  | |- isProcessing (settle ?a 0 ?o ?c) = false /\ _ =>
    destruct (flag_does_not_count c a a 0 o "again") as (H1 & H2 & _)
  end.
  - cbn. lia.
  - cbn. lia.
  - split; [exact H1 | exact H2].
Defined.

Lemma step_sessionData (c : Controller) (ev : Event) :
  isRecordingRef (ambientOf ev) = false -> sessionData (step c ev) = sessionData c.
Proof.
  intros H. destruct ev as [a text type ov | a i outcome]; cbn [step ambientOf] in *.
  - unfold processInteraction. destruct (_ && negb (isSystem type)); [reflexivity|].
    cbn [sessionData]. rewrite H. now rewrite andb_false_r.
  - unfold settle. destruct (inFlight c !! i); [|reflexivity].
    destruct outcome; cbn [sessionData]; [now rewrite H | reflexivity].
Qed.

(** X15.  The session log is written only while the session is
    recording: calls and settlements made while it is not leave the log as
    it is. *)
Theorem log_only_while_recording (evs : list Event) (c : Controller) :
  Forall (fun ev => isRecordingRef (ambientOf ev) = false) evs ->
  sessionData (run evs c) = sessionData c.
Proof.
  revert c. induction evs as [|ev evs IH]; intros c H; [reflexivity|].
  inversion H; subst. cbn [run fold_left]. fold (run evs (step c ev)).
  rewrite IH by assumption. now apply step_sessionData.
Qed.

Lemma log_witness :
  let a := {| isRecordingRef := false; ambientValueRef := 0%Z; currentHealthInsight := None;
              interactionMode := TALK; clock := 0%Z |} in
  let c := run [Call a "hello" USER None; Settle a 0 (Fulfilled "hi")] initialController in
  sessionData c = [] /\ length (messages c) = 2%nat.
Proof.
  cbv zeta. split; [|reflexivity].
  apply (log_only_while_recording _ initialController). repeat constructor.
Defined.

End ControllerMore.

(** ** Keys, retries and texts of the generation client *)

Module GeminiMore.
Import GeminiService.

Lemma nonBlank_truthy (s : string) : nonBlank s = true -> JS.truthy s = true.
Proof. destruct s; [discriminate | reflexivity]. Qed.

Lemma usable_Some (s : string) : usable (Some s) = nonBlank s.
Proof.
  cbn. destruct (nonBlank s) eqn:E; [|apply andb_false_r].
  now rewrite (nonBlank_truthy s E).
Qed.

Lemma nonBlank_trim (s : string) : nonBlank s = true -> JS.trim s <> EmptyString.
Proof.
  unfold nonBlank. intros H E. rewrite E in H. discriminate H.
Qed.

Lemma unusable_stored (o : option string) :
  (forall s, o = Some s -> nonBlank s = false) -> usable o = false.
Proof.
  intros H. destruct o as [s|]; [|reflexivity]. rewrite usable_Some. now apply H.
Qed.

(** What [getApiKey] returns once the stored key is out, from the
    environment key [envKey] that [||] selects. *)
Lemma key_from_environment (k : KeySources) (env : option string) :
  usable (localStorage k !! "GEMINI_API_KEY"%string) = false ->
  firstTruthy (viteKey k) (plainKey k) = env ->
  getApiKey k =
  match env with
  | Some e =>
    if nonBlank e && negb (bool_decide (e = "undefined"%string))
    then Some (JS.trim e)
    else if nonBlank (defaultKey k) then Some (JS.trim (defaultKey k)) else None
  | None => if nonBlank (defaultKey k) then Some (JS.trim (defaultKey k)) else None
  end.
Proof.
  intros U E. unfold getApiKey. rewrite U, E, usable_Some.
  destruct env as [e|]; [|reflexivity].
  rewrite usable_Some.
  destruct (nonBlank e); cbn [andb]; [|reflexivity].
  destruct (decide (e = "undefined"%string)) as [->|Hne].
  - reflexivity.
  - rewrite !bool_decide_eq_false_2 by congruence. reflexivity.
Qed.

(** X16.  [getApiKey] never returns a blank key: what it returns is the
    trimmed text of a non-blank source, which is the stored key, one of
    the two environment keys or the fallback.  A non-blank stored key
    wins.  Otherwise the environment key is [VITE_GEMINI_API_KEY] when
    that is a non-empty text, and [GEMINI_API_KEY] when it is missing or
    empty; it is returned, trimmed, when it is non-blank and not the text
    "undefined".  In every other case - also when a blank or "undefined"
    [VITE_GEMINI_API_KEY] hides a good [GEMINI_API_KEY] - the fallback is
    returned, trimmed, or nothing when the fallback is blank. *)
Theorem api_key_sources (k : KeySources) :
  let stored := localStorage k !! "GEMINI_API_KEY"%string in
  let fallback :=
    if nonBlank (defaultKey k) then Some (JS.trim (defaultKey k)) else None in
  let fromEnv (env : string) :=
    if nonBlank env && negb (bool_decide (env = "undefined"%string))
    then Some (JS.trim env) else fallback in
  (forall key, getApiKey k = Some key ->
     key <> EmptyString /\
     exists source, nonBlank source = true /\ key = JS.trim source /\
       (stored = Some source \/ viteKey k = Some source \/ plainKey k = Some source \/
        defaultKey k = source)) /\
  (forall s, stored = Some s -> nonBlank s = true -> getApiKey k = Some (JS.trim s)) /\
  ((forall s, stored = Some s -> nonBlank s = false) ->
   (forall env, viteKey k = Some env -> env <> EmptyString -> getApiKey k = fromEnv env) /\
   (viteKey k = None \/ viteKey k = Some EmptyString ->
    (forall env, plainKey k = Some env -> getApiKey k = fromEnv env) /\
    (plainKey k = None -> getApiKey k = fallback))).
Proof.
  cbv zeta.
  assert (Stored : forall s, localStorage k !! "GEMINI_API_KEY"%string = Some s ->
                     nonBlank s = true -> getApiKey k = Some (JS.trim s)).
  { intros s Hs Hn. unfold getApiKey. rewrite Hs, usable_Some, Hn. reflexivity. }
  assert (Vite : forall env, viteKey k = Some env -> env <> EmptyString ->
                   firstTruthy (viteKey k) (plainKey k) = Some env).
  { intros env -> Hne. cbn. destruct env; [contradiction | reflexivity]. }
  assert (Plain : viteKey k = None \/ viteKey k = Some EmptyString ->
                  firstTruthy (viteKey k) (plainKey k) = plainKey k).
  { intros [-> | ->]; reflexivity. }
  split; [|split; [exact Stored|]].
  - intros key H.
    assert (G : forall source, nonBlank source = true -> key = JS.trim source ->
                (localStorage k !! "GEMINI_API_KEY"%string = Some source \/
                 viteKey k = Some source \/ plainKey k = Some source \/
                 defaultKey k = source) ->
                key <> EmptyString /\
                exists source, nonBlank source = true /\ key = JS.trim source /\
                  (localStorage k !! "GEMINI_API_KEY"%string = Some source \/
                   viteKey k = Some source \/ plainKey k = Some source \/
                   defaultKey k = source)).
    { intros source Hn -> Hs. split; [now apply nonBlank_trim | eauto]. }
    assert (F : (if nonBlank (defaultKey k) then Some (JS.trim (defaultKey k)) else None)
                = Some key ->
                nonBlank (defaultKey k) = true /\ key = JS.trim (defaultKey k)).
    { destruct (nonBlank (defaultKey k)); [|discriminate]. intros [= <-]. auto. }
    destruct (localStorage k !! "GEMINI_API_KEY"%string) as [s|] eqn:Es.
    + destruct (nonBlank s) eqn:Ns.
      * rewrite (Stored s eq_refl Ns) in H. injection H as <-. apply (G s); auto.
      * rewrite (key_from_environment k _ ltac:(rewrite Es; now rewrite usable_Some) eq_refl)
          in H.
        destruct (firstTruthy (viteKey k) (plainKey k)) as [e|] eqn:Ee.
        -- destruct (nonBlank e && _) eqn:C.
           ++ injection H as <-. apply andb_true_iff in C. destruct C as [Ne _].
              apply (G e); auto.
              unfold firstTruthy in Ee. destruct (viteKey k) as [v|].
              ** destruct (JS.truthy v); [injection Ee as ->; auto | auto].
              ** auto.
           ++ destruct (F H) as [Nd ->]. apply (G (defaultKey k)); auto.
        -- destruct (F H) as [Nd ->]. apply (G (defaultKey k)); auto.
    + rewrite (key_from_environment k _ ltac:(now rewrite Es) eq_refl) in H.
      destruct (firstTruthy (viteKey k) (plainKey k)) as [e|] eqn:Ee.
      * destruct (nonBlank e && _) eqn:C.
        -- injection H as <-. apply andb_true_iff in C. destruct C as [Ne _].
           apply (G e); auto.
           unfold firstTruthy in Ee. destruct (viteKey k) as [v|].
           ++ destruct (JS.truthy v); [injection Ee as ->; auto | auto].
           ++ auto.
        -- destruct (F H) as [Nd ->]. apply (G (defaultKey k)); auto.
      * destruct (F H) as [Nd ->]. apply (G (defaultKey k)); auto.
  - intros Hs. apply unusable_stored in Hs. split; [|intros Hv; split].
    + intros env Hv Hne.
      now rewrite (key_from_environment k _ Hs (Vite env Hv Hne)).
    + intros env Hp.
      rewrite (key_from_environment k _ Hs (Plain Hv)), Hp. reflexivity.
    + intros Hp.
      rewrite (key_from_environment k _ Hs (Plain Hv)), Hp. reflexivity.
Qed.

(** A stored key wins over the environment; without one, and with
    [VITE_GEMINI_API_KEY] unset, [GEMINI_API_KEY] is used. *)
Lemma api_key_witness :
  getApiKey {| localStorage := <["GEMINI_API_KEY"%string := "  my-key "%string]> ∅;
               viteKey := Some "env-key"%string; plainKey := None;
               defaultKey := "demo-key" |} = Some "my-key"%string /\
  getApiKey {| localStorage := ∅; viteKey := None; plainKey := Some " env-key"%string;
               defaultKey := "demo-key" |} = Some "env-key"%string.
Proof.
  split.
  - pose proof (api_key_sources
                  {| localStorage := <["GEMINI_API_KEY"%string := "  my-key "%string]> ∅;
                     viteKey := Some "env-key"%string; plainKey := None;
                     defaultKey := "demo-key" |}) as H.
    cbv zeta in H. destruct H as (_ & H & _).
    exact (H "  my-key "%string eq_refl eq_refl).
  - pose proof (api_key_sources
                  {| localStorage := ∅; viteKey := None; plainKey := Some " env-key"%string;
                     defaultKey := "demo-key" |}) as H.
    cbv zeta in H. destruct H as (_ & _ & H).
    destruct H as [_ H]; [intros s Hs; discriminate Hs|].
    destruct (H (or_introl eq_refl)) as [H' _].
    exact (H' " env-key"%string eq_refl).
Defined.

Lemma finalError_key (e : JsError) :
  isKeyError (JS.toLowerCase (errorMessageOf e)) = true ->
  finalError (Some e) = invalidKeyText.
Proof.
  unfold isKeyError, finalError. intros H.
  cbn [errorMessageOf]. set (s := JS.toLowerCase (errorMessageOf e)) in *.
  destruct (JS.includes s "api key" || JS.includes s "invalid" ||
            JS.includes s "401" || JS.includes s "403"); [reflexivity | discriminate].
Qed.

Lemma key_error_ends_call (k : KeySources) (r : Remote) (e : JsError)
    (userMessage : string) (touchIntensity : Q) (history : list (string * string)) :
  tryBlock k r 0 = Throws e ->
  isKeyError (JS.toLowerCase (errorMessageOf e)) = true ->
  generatePlantResponse k r userMessage touchIntensity history = invalidKeyText.
Proof.
  intros H0 K. unfold generatePlantResponse.
  change (S MAX_RETRIES) with 3%nat. cbn [retryLoop]. rewrite H0, K.
  now apply finalError_key.
Qed.

(** X17.  The retry policy, read off the first attempt: an error that
    mentions the API key, "invalid", 401 or 403 ends the call at once with
    the invalid-key text; an error that mentions a rate limit, 429, the
    network or a timeout hands the call to the next attempt, whose text is
    returned if it succeeds; any other error ends the call at once with
    the text for that error. *)
Theorem retry_policy (k : KeySources) (r : Remote) (e : JsError)
    (userMessage : string) (touchIntensity : Q) (history : list (string * string)) :
  tryBlock k r 0 = Throws e ->
  let errorStr := JS.toLowerCase (errorMessageOf e) in
  (isKeyError errorStr = true ->
   generatePlantResponse k r userMessage touchIntensity history = invalidKeyText) /\
  (isKeyError errorStr = false -> isRetriable errorStr = false ->
   generatePlantResponse k r userMessage touchIntensity history = finalError (Some e)) /\
  (isKeyError errorStr = false -> isRetriable errorStr = true ->
   forall text, tryBlock k r 1 = Returns text ->
   generatePlantResponse k r userMessage touchIntensity history = text).
Proof.
  intros H0. cbv zeta. split; [now apply key_error_ends_call|].
  unfold generatePlantResponse.
  change (S MAX_RETRIES) with 3%nat. cbn [retryLoop]. rewrite H0.
  split.
  - intros K R. rewrite K, R. now rewrite andb_false_r.
  - intros K R text H1. rewrite K, R. cbn [andb Nat.ltb Nat.leb MAX_RETRIES].
    now rewrite H1.
Qed.

(** The first attempt is rate limited, the second one answers. *)
Lemma retry_policy_witness :
  let limited := {| message := "429 rate limit"; toString := "Error"; status := None |} in
  let r := {| listModels := fun _ => None;
              generateContent := fun n _ =>
                match n with
                | O => SdkThrows limited
                | _ => SdkText "Hello there"
                end |} in
  generatePlantResponse demoKeys r "hi" 0 [] = "Hello there"%string.
Proof.
  cbv zeta.
  match goal with
  | |- generatePlantResponse ?k ?r _ _ _ = _ =>
    refine (proj2 (proj2 (retry_policy k r
              {| message := "429 rate limit"; toString := "Error"; status := None |}
              "hi" 0 [] _)) _ _ _ _)
  end; reflexivity.
Defined.

Lemma tryModels_ext (gen gen' : string -> SdkOutcome) (models : list string)
    (lastError : option JsError) :
  (forall m, gen m = gen' m) ->
  tryModels gen models lastError = tryModels gen' models lastError.
Proof.
  intros H. revert lastError.
  induction models as [|m models IH]; intros lastError; cbn [tryModels]; [reflexivity|].
  rewrite H. destruct (gen' m); [destruct (JS.truthy text)|]; auto.
Qed.

Lemma retryLoop_ext (k : KeySources) (r r' : Remote) (remaining attempt : nat)
    (lastError : option JsError) :
  (forall n, (n < attempt + remaining)%nat ->
     listModels r n = listModels r' n /\
     forall m, generateContent r n m = generateContent r' n m) ->
  retryLoop k r remaining attempt lastError = retryLoop k r' remaining attempt lastError.
Proof.
  revert attempt lastError.
  induction remaining as [|remaining IH]; intros attempt lastError H; cbn [retryLoop];
    [reflexivity|].
  assert (T : tryBlock k r attempt = tryBlock k r' attempt).
  { unfold tryBlock. destruct (H attempt ltac:(lia)) as [L G].
    rewrite L. now rewrite (tryModels_ext _ _ _ _ G). }
  rewrite T. destruct (tryBlock k r' attempt); [reflexivity|].
  destruct (isKeyError _); [reflexivity|].
  destruct (_ && _); [|reflexivity].
  apply IH. intros n Hn. apply H. lia.
Qed.

(** X18.  A call makes at most three attempts: its result depends on the
    remote side only through the attempts 0, 1 and 2. *)
Theorem at_most_three_attempts (k : KeySources) (r r' : Remote)
    (userMessage : string) (touchIntensity : Q) (history : list (string * string)) :
  (forall n, (n <= 2)%nat ->
     listModels r n = listModels r' n /\
     forall m, generateContent r n m = generateContent r' n m) ->
  generatePlantResponse k r userMessage touchIntensity history =
  generatePlantResponse k r' userMessage touchIntensity history.
Proof.
  intros H. unfold generatePlantResponse.
  rewrite (retryLoop_ext k r r' (S MAX_RETRIES) 0 None); [reflexivity|].
  intros n Hn. apply H. unfold MAX_RETRIES in Hn. lia.
Qed.

(** Rate limited three times over; what a fourth attempt would give does
    not matter. *)
Lemma three_attempts_witness :
  let limited := {| message := "429 rate limit"; toString := "Error"; status := None |} in
  let r := {| listModels := fun _ => None;
              generateContent := fun n _ =>
                if (n <? 3)%nat then SdkThrows limited else SdkText "too late" |} in
  generatePlantResponse demoKeys r "hi" 0 [] =
  generatePlantResponse demoKeys (allFail limited) "hi" 0 [].
Proof.
  cbv zeta. apply at_most_three_attempts.
  intros n Hn. split; [reflexivity|]. intros m.
  destruct n as [|[|[|n]]]; [reflexivity | reflexivity | reflexivity | lia].
Defined.

Lemma tryModels_none (gen : string -> SdkOutcome) (models : list string) :
  (forall m, gen m = SdkText EmptyString) -> tryModels gen models None = inr None.
Proof.
  intros H. induction models as [|m models IH]; cbn [tryModels]; [reflexivity|].
  rewrite H. exact IH.
Qed.

Lemma no_model_text (k : KeySources) (r : Remote)
    (userMessage : string) (touchIntensity : Q) (history : list (string * string)) :
  tryBlock k r 0 = Throws noModelsError ->
  generatePlantResponse k r userMessage touchIntensity history = invalidKeyText.
Proof.
  intros H. now apply (key_error_ends_call k r noModelsError).
Qed.

(** X19.  When a key is there but no model can be used - the listing
    names models but none whose name contains "gemini", or every model
    answers with an empty text - the call ends at the first attempt and
    blames the key: it returns the invalid-key text. *)
Theorem unusable_models_blame_the_key (k : KeySources) (r : Remote)
    (userMessage : string) (touchIntensity : Q) (history : list (string * string)) :
  is_Some (getApiKey k) ->
  (exists names, listModels r 0 = Some names /\ names <> [] /\
                 Forall (fun m => JS.includes m "gemini" = false) names) \/
  (forall m, generateContent r 0 m = SdkText EmptyString) ->
  generatePlantResponse k r userMessage touchIntensity history = invalidKeyText.
Proof.
  intros [key Hk] H. apply no_model_text. unfold tryBlock. rewrite Hk.
  destruct H as [(names & L & Hne & Hall) | Hempty].
  - assert (F : modelsToTry names = []).
    { unfold modelsToTry.
      replace (0 <? length names)%nat with true
        by (destruct names; [contradiction | reflexivity]).
      clear L Hne. induction Hall as [|x l Hx Hl IH]; [reflexivity|].
      cbn [List.filter]. rewrite Hx. exact IH. }
    rewrite L. change (default [] (Some names)) with names. rewrite F. reflexivity.
  - now rewrite tryModels_none.
Qed.

Lemma unusable_models_witness :
  generatePlantResponse demoKeys
    {| listModels := fun _ => Some ["text-bison-001"; "embedding-001"]%string;
       generateContent := fun _ _ => SdkText "never asked" |}
    "hi" 0 [] = invalidKeyText.
Proof.
  apply unusable_models_blame_the_key.
  - eexists. reflexivity.
  - left. exists ["text-bison-001"; "embedding-001"]%string.
    split; [reflexivity|]. split; [discriminate|]. repeat constructor.
Defined.

Lemma shorten_truthy (text : string) : JS.truthy text = true -> JS.truthy (shorten text) = true.
Proof.
  intros H. unfold shorten, JS.or_else.
  destruct (JS.truthy (JS.trim _)) eqn:E; [exact E | exact H].
Qed.

Lemma tryModels_truthy (gen : string -> SdkOutcome) (models : list string)
    (lastError : option JsError) (text : string) :
  tryModels gen models lastError = inl text -> JS.truthy text = true.
Proof.
  revert lastError. induction models as [|m models IH]; intros lastError; cbn [tryModels];
    [discriminate|].
  destruct (gen m) as [t|err]; [|apply IH].
  destruct (JS.truthy t) eqn:E; [|apply IH].
  intros H. injection H as <-. now apply shorten_truthy.
Qed.

Lemma retryLoop_truthy (k : KeySources) (r : Remote) (remaining attempt : nat)
    (lastError : option JsError) (text : string) :
  retryLoop k r remaining attempt lastError = inl text -> JS.truthy text = true.
Proof.
  revert attempt lastError.
  induction remaining as [|remaining IH]; intros attempt lastError; cbn [retryLoop];
    [discriminate|].
  unfold tryBlock. destruct (getApiKey k).
  - destruct (tryModels _ _ None) as [t|[e|]] eqn:T.
    + intros H. injection H as <-. now apply tryModels_truthy in T.
    + destruct (isKeyError _); [discriminate|]. destruct (_ && _); [apply IH | discriminate].
    + destruct (isKeyError _); [discriminate|]. destruct (_ && _); [apply IH | discriminate].
  - intros H. injection H as <-. reflexivity.
Qed.

(** X20.  Whatever the remote side does, [generatePlantResponse] returns
    a non-empty text: the model turn appended to the history is never
    blank. *)
Theorem response_never_empty (k : KeySources) (r : Remote)
    (userMessage : string) (touchIntensity : Q) (history : list (string * string)) :
  generatePlantResponse k r userMessage touchIntensity history <> EmptyString.
Proof.
  unfold generatePlantResponse. destruct (retryLoop k r (S MAX_RETRIES) 0 None) eqn:E.
  - apply retryLoop_truthy in E. intros ->. discriminate E.
  - pose proof (GeminiFacts.finalError_systemText o) as H. unfold systemText in H.
    intros E'. rewrite E' in H. discriminate H.
Qed.

End GeminiMore.

(** ** Ranges of the simulated plant *)

Module SimulatorMore.
Import PlantHealthSimulator PlantHealthCare PlantHealthTypes.

(** Decides a comparison of concrete numbers by evaluation. *)
Ltac numbers := vm_compute; first [reflexivity | discriminate | intros; discriminate].

Lemma clamp_range (lo hi x : Q) :
  lo <= hi -> lo <= JS.Math_max lo (JS.Math_min hi x) <= hi.
Proof.
  intros H.
  destruct (JSFacts.min_spec hi x) as [[? ->]|[? ->]];
    destruct (JSFacts.max_spec lo hi) as [[? E1]|[? E1]];
    destruct (JSFacts.max_spec lo x) as [[? E2]|[? E2]];
    rewrite ?E1, ?E2; lra.
Qed.

Lemma round_mono (x y : Q) : x <= y -> (JS.Math_round x <= JS.Math_round y)%Z.
Proof. intros H. unfold JS.Math_round. apply Qfloor_resp_le. lra. Qed.

Lemma round_int (z : Z) : JS.Math_round (inject_Z z) = z.
Proof.
  unfold JS.Math_round.
  assert (L : (z <= Qfloor (inject_Z z + 0.5))%Z).
  { rewrite <- (Qfloor_Z z) at 1. apply Qfloor_resp_le. lra. }
  assert (U : (Qfloor (inject_Z z + 0.5) < z + 1)%Z).
  { rewrite Zlt_Qlt. pose proof (Qfloor_le (inject_Z z + 0.5)) as F.
    rewrite inject_Z_plus. change (inject_Z 1) with 1. lra. }
  lia.
Qed.

Lemma round_between (lo hi : Z) (x : Q) :
  inject_Z lo <= x <= inject_Z hi -> (lo <= JS.Math_round x <= hi)%Z.
Proof.
  intros [L U]. split.
  - rewrite <- (round_int lo). now apply round_mono.
  - rewrite <- (round_int hi). now apply round_mono.
Qed.

(** Rounding to one decimal keeps a value between two whole numbers. *)
Lemma round1_between (lo hi : Z) (x : Q) :
  inject_Z lo <= x <= inject_Z hi -> inject_Z lo <= round1 x <= inject_Z hi.
Proof.
  intros [L U]. unfold round1.
  assert (R : (lo * 10 <= JS.Math_round (x * 10) <= hi * 10)%Z).
  { apply round_between. rewrite !inject_Z_mult. change (inject_Z 10) with 10. lra. }
  destruct R as [R1 R2]. rewrite Zle_Qle in R1, R2. rewrite inject_Z_mult in R1, R2.
  change (inject_Z 10) with 10 in *.
  set (v := inject_Z (JS.Math_round (x * 10))) in *.
  split.
  - apply Qle_shift_div_l; lra.
  - apply Qle_shift_div_r; lra.
Qed.

Lemma reading_state (c : option Q) (en : Entropy) (sim : Simulator) :
  exists cap t,
    state (fst (generateReading c en sim)) = withVitality cap t (updateState en (state sim)).
Proof.
  unfold generateReading. cbv zeta. cbn [fst state].
  generalize (updateState en (state sim)). intros s1.
  destruct c as [c|]; [|destruct (JS.lt 0.95 (rTouch en))];
    destruct (JS.lt 0.7 (rDecay en)); eexists; eexists; reflexivity.
Qed.

Lemma reading_environment (c : option Q) (en : Entropy) (sim : Simulator) :
  let s1 := updateState en (state sim) in
  environment (snd (generateReading c en sim)) =
  {| temperature_c := round1 (temperature s1);
     humidity_pct := round1 (humidity s1);
     light_lux := JS.Math_round (light s1) |}.
Proof.
  unfold generateReading. cbv zeta. cbn [snd environment].
  generalize (updateState en (state sim)). intros s1.
  destruct c as [c|]; [|destruct (JS.lt 0.95 (rTouch en))];
    destruct (JS.lt 0.7 (rDecay en)); reflexivity.
Qed.

Lemma updateState_environment (en : Entropy) (s : State) :
  18 <= temperature (updateState en s) <= 30 /\
  30 <= humidity (updateState en s) <= 80 /\
  100 <= light (updateState en s) <= 20000.
Proof.
  unfold updateState. cbv zeta. cbn [temperature humidity light].
  repeat split; apply clamp_range; lra.
Qed.

Lemma reading_environment_range (c : option Q) (en : Entropy) (sim : Simulator) :
  let env := environment (snd (generateReading c en sim)) in
  18 <= temperature_c env <= 30 /\
  30 <= humidity_pct env <= 80 /\
  (100 <= light_lux env <= 20000)%Z.
Proof.
  cbv zeta. rewrite reading_environment. cbn [temperature_c humidity_pct light_lux].
  destruct (updateState_environment en (state sim)) as (T & H & L).
  split; [|split].
  - apply (round1_between 18 30). exact T.
  - apply (round1_between 30 80). exact H.
  - apply round_between. exact L.
Qed.

(** X21.  Whatever the clock and the random draws are, and whatever state
    the simulator is in, the environment of an event it returns lies in
    fixed ranges: temperature in 18..30, humidity in 30..80, light in
    100..20000. *)
Theorem environment_in_range (c : option Q) (en : Entropy) (sim : Simulator) :
  let env := environment (snd (generateReading c en sim)) in
  18 <= temperature_c env <= 30 /\
  30 <= humidity_pct env <= 80 /\
  (100 <= light_lux env <= 20000)%Z.
Proof.
  cbv zeta. rewrite reading_environment. cbn [temperature_c humidity_pct light_lux].
  destruct (updateState_environment en (state sim)) as (T & H & L).
  split; [|split].
  - apply (round1_between 18 30). exact T.
  - apply (round1_between 30 80). exact H.
  - apply round_between. exact L.
Qed.

Lemma updateState_healthy (en : Entropy) (s : State) :
  unitDraw (rMoisture en) -> healthyRanges s ->
  healthyRanges (updateState en s) /\ waterTank (updateState en s) <= waterTank s.
Proof.
  intros [D0 D1] (M & W & L & G).
  unfold healthyRanges, updateState. cbv zeta.
  cbn [moisture waterTank leafColor growthIndex].
  set (moisture1 := if (moistureTrend s <=? 0)%Z then _ else _).
  assert (M1 : 0 <= moisture1 <= 100).
  { subst moisture1. destruct (moistureTrend s <=? 0)%Z.
    - destruct (JSFacts.max_spec 0 (moisture s - (0.1 + rMoisture en * 0.2))) as [[? ->]|[? ->]];
        lra.
    - destruct (JSFacts.min_spec 100 (moisture s + (0.1 + rMoisture en * 0.2))) as [[? ->]|[? ->]];
        lra. }
  set (depleting := JS.lt moisture1 30 && JS.lt 0 (waterTank s)).
  set (moisture2 := if depleting && JS.lt moisture1 25 then _ else _).
  assert (M2 : 0 <= moisture2 <= 100).
  { subst moisture2. destruct (depleting && JS.lt moisture1 25); [|exact M1].
    destruct (JSFacts.min_spec 100 (moisture1 + 0.5)) as [[? ->]|[? ->]]; lra. }
  assert (W1 : 0 <= (if depleting then JS.Math_max 0 (waterTank s - 0.05) else waterTank s)
               <= waterTank s).
  { destruct depleting; [|lra].
    destruct (JSFacts.max_spec 0 (waterTank s - 0.05)) as [[? ->]|[? ->]]; lra. }
  repeat split; try lra.
  - destruct (_ || _ || _).
    + destruct (JSFacts.max_spec 0.5 (leafColor s - 0.001)) as [[? ->]|[? ->]]; lra.
    + destruct (_ && _ && _); [|lra].
      destruct (JSFacts.min_spec 1.0 (leafColor s + 0.0005)) as [[? ->]|[? ->]]; lra.
  - destruct (_ || _ || _).
    + destruct (JSFacts.max_spec 0.5 (leafColor s - 0.001)) as [[? ->]|[? ->]]; lra.
    + destruct (_ && _ && _); [|lra].
      destruct (JSFacts.min_spec 1.0 (leafColor s + 0.0005)) as [[? ->]|[? ->]]; lra.
  - destruct (_ && _ && _ && _ && _); [|lra].
    destruct (JSFacts.min_spec 1.2 (growthIndex s + 0.0001)) as [[? ->]|[? ->]]; lra.
Qed.

Lemma reading_healthy (c : option Q) (en : Entropy) (sim : Simulator) :
  unitDraw (rMoisture en) -> healthyRanges (state sim) ->
  healthyRanges (state (fst (generateReading c en sim))) /\
  waterTank (state (fst (generateReading c en sim))) <= waterTank (state sim).
Proof.
  intros D H. destruct (reading_state c en sim) as (cap & t & ->).
  exact (updateState_healthy en (state sim) D H).
Qed.

Lemma construct_healthy (d p l : string) (r1 r2 r3 r4 r5 : Q) :
  unitDraw r4 -> healthyRanges (state (construct d p l r1 r2 r3 r4 r5)).
Proof.
  intros [D0 D1]. unfold healthyRanges, construct.
  cbn [state moisture waterTank leafColor growthIndex]. repeat split; lra.
Qed.

(** X22.  A simulator built by the constructor keeps its soil and
    vitality state in range over any series of readings whose moisture
    draws lie in [0, 1): moisture in 0..100, leaf colour in 0.5..1, growth
    index at most 1.2, and a water tank that never goes below 0 and never
    refills. *)
Theorem soil_and_vitality_in_range (d p l : string) (r1 r2 r3 r4 r5 : Q)
    (inputs : list (option Q * Entropy)) :
  unitDraw r4 ->
  Forall (fun i => unitDraw (rMoisture (snd i))) inputs ->
  let s := state (afterReadings inputs (construct d p l r1 r2 r3 r4 r5)) in
  0 <= moisture s <= 100 /\ 0 <= waterTank s <= 80 /\
  0.5 <= leafColor s <= 1 /\ growthIndex s <= 1.2.
Proof.
  intros D HF. cbv zeta.
  assert (G : forall sim, healthyRanges (state sim) ->
            healthyRanges (state (afterReadings inputs sim)) /\
            waterTank (state (afterReadings inputs sim)) <= waterTank (state sim)).
  { induction HF as [|[c en] rest Hd _ IH]; intros sim H; cbn [afterReadings]; [split; [exact H | lra]|].
    destruct (reading_healthy c en sim Hd H) as [H1 W1].
    destruct (IH _ H1) as [H2 W2]. split; [exact H2 | lra]. }
  destruct (G _ (construct_healthy d p l r1 r2 r3 r4 r5 D)) as [(M & W & L & Gr) W'].
  change (waterTank (state (construct d p l r1 r2 r3 r4 r5))) with 80.0 in W'.
  repeat split; lra.
Qed.

Lemma soil_and_vitality_witness :
  let s := state (afterReadings [(None, calm 0); (Some 30, calm 1000)] monstera) in
  0 <= moisture s <= 100 /\ 0 <= waterTank s <= 80 /\
  0.5 <= leafColor s <= 1 /\ growthIndex s <= 1.2.
Proof.
  apply (soil_and_vitality_in_range "plant01" "Monstera" "living_room" 0.5 0.5 0.5 0.5 0.5
           [(None, calm 0); (Some 30, calm 1000)]).
  - split; numbers.
  - repeat constructor; numbers.
Defined.

(** X23.  Watering with a non-negative amount never lowers the moisture
    and never takes it above 100, draws the tank down but not below 0, and
    turns the trend upward: the next state update raises the moisture
    again instead of drying the soil. *)
Theorem watering_raises_moisture (amount : option Q) (en : Entropy) (sim : Simulator) :
  0 <= default 20 amount ->
  healthyRanges (state sim) -> unitDraw (rMoisture en) ->
  let watered := state (water amount sim) in
  moisture (state sim) <= moisture watered <= 100 /\
  0 <= waterTank watered <= waterTank (state sim) /\
  healthyRanges watered /\
  moisture watered <= moisture (updateState en watered).
Proof.
  intros A (M & W & L & G) [D0 D1]. cbv zeta. unfold water. cbv zeta.
  set (a := default 20 amount) in *.
  cbn [state].
  assert (M' : moisture (state sim) <= JS.Math_min 100 (moisture (state sim) + a) <= 100).
  { destruct (JSFacts.min_spec 100 (moisture (state sim) + a)) as [[? ->]|[? ->]]; lra. }
  assert (W' : 0 <= JS.Math_max 0 (waterTank (state sim) - a * 0.1) <= waterTank (state sim)).
  { destruct (JSFacts.max_spec 0 (waterTank (state sim) - a * 0.1)) as [[? ->]|[? ->]]; lra. }
  split; [exact M'|]. split; [exact W'|]. split.
  - unfold healthyRanges. cbn [moisture waterTank leafColor growthIndex]. repeat split; lra.
  - unfold updateState. cbv zeta. cbn [moisture moistureTrend waterTank Z.leb Z.compare].
    set (m := JS.Math_min 100 (moisture (state sim) + a)) in *.
    set (m1 := JS.Math_min 100 (m + (0.1 + rMoisture en * 0.2))).
    assert (M1 : m <= m1 <= 100).
    { subst m1. destruct (JSFacts.min_spec 100 (m + (0.1 + rMoisture en * 0.2))) as [[? ->]|[? ->]];
        lra. }
    destruct (_ && _ && _); [|lra].
    destruct (JSFacts.min_spec 100 (m1 + 0.5)) as [[? ->]|[? ->]]; lra.
Qed.

Lemma watering_witness :
  let watered := state (water None monstera) in
  moisture (state monstera) <= moisture watered <= 100 /\
  0 <= waterTank watered <= waterTank (state monstera) /\
  healthyRanges watered /\
  moisture watered <= moisture (updateState (calm 0) watered).
Proof.
  apply (watering_raises_moisture None (calm 0) monstera).
  - numbers.
  - apply construct_healthy. split; numbers.
  - split; numbers.
Defined.

End SimulatorMore.

(** ** The rules of the health analysis *)

Module HealthRulesFacts.
Import PlantHealthTypes VertexAIHealth.

Ltac band :=
  intros x;
  repeat match goal with
         | |- context [JS.lt ?a ?b] => JSFacts.case_lt a b
         end;
  repeat split; intros; try discriminate; try reflexivity; lra.

Lemma moisture_bands : bands 15 25 70 80 getMoistureStatus.
Proof. unfold bands, getMoistureStatus. band. Qed.

Lemma temperature_bands : bands 15 18 28 30 getTemperatureStatus.
Proof. unfold bands, getTemperatureStatus. band. Qed.

Lemma light_bands : bands 1000 3000 15000 20000 getLightStatus.
Proof. unfold bands, getLightStatus. band. Qed.

Lemma humidity_bands : bands 30 40 70 80 getHumidityStatus.
Proof. unfold bands, getHumidityStatus. band. Qed.

(** X24.  Each of the four status functions cuts the number line into
    five bands without gap or overlap, although it tests the two low
    bounds before the two high ones: critical below the outer bounds, low
    or high between an outer and an inner bound, optimal between the inner
    bounds, both included. *)
Theorem status_bands :
  bands 15 25 70 80 getMoistureStatus /\
  bands 15 18 28 30 getTemperatureStatus /\
  bands 1000 3000 15000 20000 getLightStatus /\
  bands 30 40 70 80 getHumidityStatus.
Proof.
  split; [exact moisture_bands|]. split; [exact temperature_bands|].
  split; [exact light_bands | exact humidity_bands].
Qed.

(** X25.  The health score lies in 0..100.  It is 100 exactly when the
    four statuses are optimal and the leaves are not pale, that is, when
    the average leaf colour as computed in doubles is not below 0.7: three
    events of leaf colour 0.7 average 0.6999999999999998 there and score
    85.  Any stress category caps the score at 90, and MULTIPLE_STRESS at
    80; but the category HEALTHY only promises a score of 10: high
    moisture, light and humidity cost points without being a stress. *)
Theorem health_score_and_category (moisture temp light humidity : MetricStatus)
    (events : list PlantSensorEvent) :
  let score := calculateHealthScore moisture temp light humidity events in
  let category := determineStressCategory moisture temp light humidity in
  let pale := below (averageOf64 (leafColours events)) (Binary64.fl 0.7) in
  (0 <= score <= 100)%Z /\
  (score = 100%Z <->
   moisture = OPTIMAL /\ temp = OPTIMAL /\ light = OPTIMAL /\ humidity = OPTIMAL /\
   pale = false) /\
  (category <> HEALTHY -> score <= 90)%Z /\
  (category = MULTIPLE_STRESS -> score <= 80)%Z /\
  (category = HEALTHY -> 10 <= score)%Z /\
  (List.map leafColorOf events = [0.7; 0.7; 0.7] ->
   calculateHealthScore OPTIMAL OPTIMAL OPTIMAL OPTIMAL events = 85%Z).
Proof.
  cbv zeta. split; [|split; [|split; [|split; [|split]]]].
  1-5: unfold calculateHealthScore; cbv zeta;
       generalize (below (averageOf64 (leafColours events)) (Binary64.fl 0.7));
       intros pale;
       destruct pale, moisture, temp, light, humidity; cbn;
       repeat split; intros; try lia; try discriminate; try reflexivity;
       try congruence; try (exfalso; intuition discriminate).
  intros E. unfold calculateHealthScore, leafColours. cbv zeta.
  rewrite <- (List.map_map leafColorOf Binary64.fl), E.
  vm_compute. reflexivity.
Qed.

(** X26.  The stress category looks at low moisture, low light, low
    humidity and any temperature off the optimum, and at nothing else: a
    high moisture, light or humidity status counts like an optimal one.
    The category is HEALTHY exactly when none of the five tests holds, and
    WATER_STRESS exactly when low moisture is the only one that does. *)
Theorem stress_category_rules (moisture temp light humidity : MetricStatus) :
  let category := determineStressCategory moisture temp light humidity in
  let levelled s := if isHigh s then OPTIMAL else s in
  category = determineStressCategory (levelled moisture) temp (levelled light)
               (levelled humidity) /\
  (category = HEALTHY <->
   isLow moisture = false /\ temp = OPTIMAL /\ isLow light = false /\
   isLow humidity = false) /\
  (category = WATER_STRESS <->
   isLow moisture = true /\ temp = OPTIMAL /\ isLow light = false /\
   isLow humidity = false).
Proof.
  cbv zeta.
  destruct moisture, temp, light, humidity; cbn;
    repeat split; intros; try discriminate; try reflexivity;
    try (exfalso; intuition discriminate).
Qed.

Lemma lastN_app3 {A} (older : list A) (a b c : A) :
  lastN 3 (older ++ [a; b; c]) = [a; b; c].
Proof.
  unfold lastN. rewrite length_app. cbn [length].
  replace (length older + 3 - 3)%nat with (length older) by lia.
  rewrite drop_app_length. reflexivity.
Qed.

Lemma steady_variance (a b c : Q) :
  a == b -> b == c -> above (calculateVariance [a; b; c]) 10 = false /\
                      above (calculateVariance [a; b; c]) 50 = false.
Proof.
  intros H1 H2. unfold calculateVariance, averageOf, sumQ.
  cbn [List.map fold_left length above].
  change (inject_Z (Z.of_nat 3)) with 3.
  set (mean := (0 + a + b + c) / 3).
  assert (M : mean == a). { subst mean. rewrite <- H2, <- H1. field. }
  assert (E : (0 + (a - mean) * (a - mean) + (b - mean) * (b - mean) +
               (c - mean) * (c - mean)) / 3 == 0).
  { rewrite M, <- H2, <- H1. field. }
  split; apply JSFacts.lt_false; rewrite E; lra.
Qed.

(** X27.  [detectAnomalies] reports nothing on fewer than three events,
    and on three or more it looks at the last three only, and of those
    only at moisture and temperature: when both are the same in the last
    three events there is no anomaly, whatever the other readings and the
    older events are. *)
Theorem anomalies_from_last_three :
  (forall events, (length events < 3)%nat -> detectAnomalies events = false) /\
  (forall older a b c, detectAnomalies (older ++ [a; b; c]) = detectAnomalies [a; b; c]) /\
  (forall older a b c,
     moistureOf a == moistureOf b -> moistureOf b == moistureOf c ->
     temperatureOf a == temperatureOf b -> temperatureOf b == temperatureOf c ->
     detectAnomalies (older ++ [a; b; c]) = false).
Proof.
  assert (L : forall older a b c,
             detectAnomalies (older ++ [a; b; c]) = detectAnomalies [a; b; c]).
  { intros older a b c. unfold detectAnomalies.
    rewrite (lastN_app3 older). change (lastN 3 [a; b; c]) with [a; b; c].
    rewrite length_app. cbn [length].
    replace (length older + 3 <? 3)%nat with false
      by (symmetry; apply Nat.ltb_ge; lia).
    reflexivity. }
  split; [|split; [exact L|]].
  - intros events H. unfold detectAnomalies.
    apply Nat.ltb_lt in H. now rewrite H.
  - intros older a b c M1 M2 T1 T2. rewrite L. unfold detectAnomalies.
    cbn [length Nat.ltb Nat.leb]. change (lastN 3 [a; b; c]) with [a; b; c].
    cbn [List.map].
    rewrite (proj2 (steady_variance _ _ _ M1 M2)).
    rewrite (proj1 (steady_variance _ _ _ T1 T2)). reflexivity.
Qed.

(** X28.  The default recommendations are never empty.  They consist of
    the single advice to continue the current care exactly when moisture
    is not low, temperature not high and light not low - so also under
    cold stress or humidity stress, for which there is no advice. *)
Theorem default_recommendations (moisture temp light humidity : MetricStatus) :
  let recs := getDefaultRecommendations moisture temp light in
  recs <> [] /\
  (recs = ["Continue current care routine"%string] <->
   isLow moisture = false /\ isHigh temp = false /\ isLow light = false) /\
  (In (determineStressCategory moisture temp light humidity)
      [HEALTHY; COLD_STRESS; HUMIDITY_STRESS] ->
   recs = ["Continue current care routine"%string]).
Proof.
  cbv zeta.
  destruct moisture, temp, light, humidity; cbn;
    repeat split; intros; try discriminate; try reflexivity;
    try (exfalso; intuition discriminate).
Qed.

Lemma fold_sum_bounds (lo hi : Q) (l : list Q) (acc : Q) :
  Forall (fun v => lo <= v <= hi) l ->
  acc + lo * inject_Z (Z.of_nat (length l)) <= fold_left Qplus l acc <=
  acc + hi * inject_Z (Z.of_nat (length l)).
Proof.
  intros H. revert acc. induction H as [|v l [Hlo Hhi] _ IH]; intros acc.
  - cbn [fold_left length]. change (inject_Z (Z.of_nat 0)) with 0. lra.
  - cbn [fold_left length]. rewrite Nat2Z.inj_succ. unfold Z.succ.
    rewrite inject_Z_plus. change (inject_Z 1) with 1.
    specialize (IH (acc + v)). set (N := inject_Z (Z.of_nat (length l))) in *.
    nra.
Qed.

(** The average of a non-empty list lies between its bounds. *)
Lemma averageOf_bounds (lo hi : Q) (l : list Q) :
  l <> [] -> Forall (fun v => lo <= v <= hi) l ->
  exists v, averageOf l = Some v /\ lo <= v <= hi.
Proof.
  intros Hne H. destruct l as [|q l]; [contradiction|].
  eexists. split; [reflexivity|]. unfold sumQ.
  pose proof (fold_sum_bounds lo hi (q :: l) 0 H) as [B1 B2].
  set (N := inject_Z (Z.of_nat (length (q :: l)))) in *.
  assert (HN : 0 < N).
  { subst N. change 0 with (inject_Z 0). rewrite <- Zlt_Qlt. cbn [length]. lia. }
  split.
  - apply Qle_shift_div_l; [exact HN | lra].
  - apply Qle_shift_div_r; [exact HN | lra].
Qed.

Lemma average_of_events (f : PlantSensorEvent -> Q) (lo hi : Q)
    (events : list PlantSensorEvent) :
  events <> [] -> Forall (fun e => lo <= f e <= hi) events ->
  exists v, averageOf (List.map f events) = Some v /\ lo <= v <= hi.
Proof.
  intros Hne H. apply averageOf_bounds.
  - destruct events; [contradiction | discriminate].
  - now apply Forall_map.
Qed.

Lemma cold_needs_low_temperature (moisture temp light humidity : MetricStatus) :
  determineStressCategory moisture temp light humidity = COLD_STRESS -> isLow temp = true.
Proof.
  destruct moisture, temp, light, humidity; cbn; intros; try discriminate; reflexivity.
Qed.

(** What [generateReading] guarantees of the environment of an event. *)
Local Abbreviation simulated :=
  (fun e : PlantSensorEvent =>
     18 <= temperatureOf e <= 30 /\ 30 <= humidityOf e <= 80 /\ 100 <= lightOf e <= 20000).

Lemma readings_simulated (inputs : list (option Q * PlantHealthSimulator.Entropy))
    (sim : PlantHealthSimulator.Simulator) :
  Forall simulated (PlantHealthSimulator.readings inputs sim) /\
  length (PlantHealthSimulator.readings inputs sim) = length inputs.
Proof.
  revert sim. induction inputs as [|[c en] rest IH]; intros sim.
  - split; [constructor | reflexivity].
  - cbn [PlantHealthSimulator.readings].
    pose proof (SimulatorMore.reading_environment_range c en sim) as R.
    destruct (PlantHealthSimulator.generateReading c en sim) as [sim' ev].
    cbn [snd] in R. destruct (IH sim') as [F Len]. split.
    + constructor; [|exact F]. destruct R as (T & H & [L1 L2]).
      unfold temperatureOf, humidityOf, lightOf. repeat split; try tauto.
      * change 100 with (inject_Z 100). now rewrite <- Zle_Qle.
      * change 20000 with (inject_Z 20000). now rewrite <- Zle_Qle.
    + cbn [length]. now rewrite Len.
Qed.

(** X29.  The simulator feeding the analysis: after any readings pushed
    into an empty window, the rule-based analysis runs on the last 10 of
    them (all of them when there are fewer), and since the simulator keeps
    its environment in range the analysis never sees a low temperature, a
    critical humidity or a critically high light: the temperature status
    is optimal or high, and the category is never COLD_STRESS. *)
Theorem simulated_plant_analysis (inputs : list (option Q * PlantHealthSimulator.Entropy))
    (sim : PlantHealthSimulator.Simulator) :
  inputs <> [] ->
  exists rb,
    analyzeRules (VertexAIService.addAll (PlantHealthSimulator.readings inputs sim) []) =
      Some rb /\
    events_count rb = Nat.min 10 (length inputs) /\
    (temperature_status rb = OPTIMAL \/ temperature_status rb = HIGH) /\
    humidity_status rb <> CRITICAL_LOW /\ humidity_status rb <> CRITICAL_HIGH /\
    light_status rb <> CRITICAL_HIGH /\
    stress_category rb <> COLD_STRESS.
Proof.
  intros Hne.
  destruct (readings_simulated inputs sim) as [F Len].
  set (evs := PlantHealthSimulator.readings inputs sim) in *.
  assert (Hn : (0 < length inputs)%nat) by (destruct inputs; [contradiction | cbn; lia]).
  rewrite WindowFacts.addAll_last by (cbn; lia). cbn [app].
  set (w := drop (length evs - 20) evs).
  assert (Lw : length w = Nat.min 20 (length inputs)).
  { subst w. rewrite length_drop. lia. }
  unfold analyzeRules.
  replace (length w =? 0)%nat with false by (symmetry; apply Nat.eqb_neq; lia).
  set (recent := lastN 10 w).
  assert (Lr : length recent = Nat.min 10 (length inputs)).
  { subst recent. unfold lastN. rewrite length_drop. lia. }
  assert (Fr : Forall simulated recent).
  { subst recent w. unfold lastN. now do 2 apply Forall_drop. }
  assert (Nr : recent <> []) by (intros E; rewrite E in Lr; cbn [length] in Lr; lia).
  destruct (average_of_events temperatureOf 18 30 recent Nr) as (t & Et & Bt).
  { eapply Forall_impl; [exact Fr|]. cbv beta. tauto. }
  destruct (average_of_events humidityOf 30 80 recent Nr) as (h & Eh & Bh).
  { eapply Forall_impl; [exact Fr|]. cbv beta. tauto. }
  destruct (average_of_events lightOf 100 20000 recent Nr) as (l & El & Bl).
  { eapply Forall_impl; [exact Fr|]. cbv beta. tauto. }
  eexists. split; [reflexivity|].
  cbn [events_count temperature_status humidity_status light_status stress_category].
  rewrite Et, Eh, El. cbn [statusOf].
  destruct (temperature_bands t) as (T1 & T2 & T3 & T4 & T5).
  destruct (humidity_bands h) as (H1 & H2 & H3 & H4 & H5).
  destruct (light_bands l) as (L1 & L2 & L3 & L4 & L5).
  assert (Temp : getTemperatureStatus t = OPTIMAL \/ getTemperatureStatus t = HIGH).
  { destruct (Qlt_le_dec 28 t); [right; apply T4 | left; apply T3]; lra. }
  split; [exact Lr|]. split; [exact Temp|].
  split; [intros E; apply H1 in E; lra|].
  split; [intros E; apply H5 in E; lra|].
  split; [intros E; apply L5 in E; lra|].
  intros E. apply cold_needs_low_temperature in E.
  destruct Temp as [T | T]; rewrite T in E; discriminate E.
Qed.

Lemma simulated_plant_witness :
  exists rb,
    analyzeRules (VertexAIService.addAll (PlantHealthSimulator.touchedReadings 25) []) =
      Some rb /\
    events_count rb = 10%nat /\
    (temperature_status rb = OPTIMAL \/ temperature_status rb = HIGH) /\
    humidity_status rb <> CRITICAL_LOW /\ humidity_status rb <> CRITICAL_HIGH /\
    light_status rb <> CRITICAL_HIGH /\
    stress_category rb <> COLD_STRESS.
Proof.
  refine (simulated_plant_analysis _ PlantHealthSimulator.monstera _). discriminate.
Defined.

End HealthRulesFacts.

(** ** The emotion of the spoken reply *)

Module TTSFacts.
Import GoogleTTS.

Lemma determineEmotion_named (healthScore : Z) (stressCategory : string)
    (userMessage : option string) :
  determineEmotion healthScore stressCategory userMessage <> neutral.
Proof.
  unfold determineEmotion. cbv zeta.
  destruct (_ || _ || _ || _); [discriminate|].
  destruct (_ || _ || _ || _); [discriminate|].
  destruct (85 <=? healthScore)%Z; [discriminate|].
  destruct (70 <=? healthScore)%Z; [discriminate|].
  destruct (50 <=? healthScore)%Z eqn:E; [discriminate|].
  destruct (healthScore <? 50)%Z eqn:E'; [discriminate|].
  apply Z.leb_gt in E. apply Z.ltb_ge in E'. lia.
Qed.

(** X30.  For a whole-number health score, the emotion [speak] works
    with is never 'neutral', the one emotion for which a voice has no
    pitch and rate: the lookup of the modifiers always succeeds.  The
    stress category plays no part in the choice, a health score of 0
    counts as a missing one, that is as 75, and without a score and a
    message the emotion is 'calm'. *)
Theorem spoken_emotion (healthScore : option Z) (stressCategory : option string)
    (userMessage : option string) (voice : PersonalityVoice) :
  speakEmotion healthScore stressCategory userMessage <> neutral /\
  is_Some (emotionModifiers voice (speakEmotion healthScore stressCategory userMessage)) /\
  (forall other, speakEmotion healthScore other userMessage =
                 speakEmotion healthScore stressCategory userMessage) /\
  speakEmotion (Some 0%Z) stressCategory userMessage =
    speakEmotion None stressCategory userMessage /\
  speakEmotion None stressCategory None = calm.
Proof.
  assert (N : speakEmotion healthScore stressCategory userMessage <> neutral)
    by apply determineEmotion_named.
  split; [exact N|]. split; [|split; [|split]]; try reflexivity.
  destruct (speakEmotion healthScore stressCategory userMessage);
    try (eexists; reflexivity). contradiction.
Qed.

End TTSFacts.
